(** * docx-to-markdown: the parsing pipeline of [app.py]

    A shallow embedding of the text pipeline of [app.py] (text cleaning,
    section segmentation, page parsing, navigation and review parsing,
    hyperlink extraction, image download and the assembly of the bundle),
    the properties of it that the specification states and further
    properties of the code.

    Python strings are lists of characters.  A character is a code point
    below 256 (the type [ascii] read as Latin-1); the character classes
    [\s], [\w], [\d] and [str.lower] are those of Python on that range.
    Regular expressions are run by a small backtracking matcher with
    Python's priorities (leftmost match, greedy and lazy repetition of a
    character class, groups, [^] and [$]); every pattern of the program is
    written item by item next to its source text. *)

From Stdlib Require Import List Ascii String Bool Arith Lia.
From Stdlib Require Import DecimalString.
Import ListNotations.

Set Implicit Arguments.

Definition str := list ascii.

Coercion list_ascii_of_string : string >-> list.

Open Scope string_scope.
Open Scope list_scope.
Open Scope bool_scope.
Open Scope nat_scope.

(** ** Python string primitives *)

Module Py.

Definition code (c : ascii) : nat := nat_of_ascii c.

Definition between (lo hi : nat) (c : ascii) : bool :=
  (lo <=? code c) && (code c <=? hi).

Definition ceq (a b : ascii) : bool := Ascii.eqb a b.

(** [str.isspace] and the class [\s]. *)
Definition is_space (c : ascii) : bool :=
  between 9 13 c || between 28 32 c || (code c =? 133) || (code c =? 160).

(** The class [\d]. *)
Definition is_digit (c : ascii) : bool := between 48 57 c.

(** [str.isalnum]: letters, digits and numerics of Latin-1. *)
Definition is_alnum (c : ascii) : bool :=
  between 48 57 c || between 65 90 c || between 97 122 c
  || (code c =? 170) || (code c =? 178) || (code c =? 179)
  || (code c =? 181) || (code c =? 185) || (code c =? 186)
  || between 188 190 c || between 192 214 c || between 216 246 c
  || between 248 255 c.

(** The class [\w]. *)
Definition is_word (c : ascii) : bool := is_alnum c || ceq c "_".

Definition lower_char (c : ascii) : ascii :=
  if between 65 90 c || between 192 214 c || between 216 222 c
  then ascii_of_nat (code c + 32) else c.

Definition lower (s : str) : str := map lower_char s.

Fixpoint dropwhile (p : ascii -> bool) (s : str) : str :=
  match s with
  | c :: s' => if p c then dropwhile p s' else s
  | [] => []
  end.

Definition lstrip_by (p : ascii -> bool) (s : str) : str := dropwhile p s.
Definition rstrip_by (p : ascii -> bool) (s : str) : str :=
  rev (dropwhile p (rev s)).
Definition strip_by (p : ascii -> bool) (s : str) : str :=
  rstrip_by p (lstrip_by p s).

(** [s.strip()] *)
Definition strip (s : str) : str := strip_by is_space s.

(** [s.strip(chars)] *)
Definition strip_chars (chars : str) (s : str) : str :=
  strip_by (fun c => existsb (ceq c) chars) s.

Fixpoint eqb (a b : str) : bool :=
  match a, b with
  | [], [] => true
  | x :: a', y :: b' => ceq x y && eqb a' b'
  | _, _ => false
  end.

(** [s.startswith(p)] *)
Fixpoint startswith (p s : str) : bool :=
  match p, s with
  | [], _ => true
  | x :: p', y :: s' => ceq x y && startswith p' s'
  | _ :: _, [] => false
  end.

(** [s.endswith(p)] *)
Definition endswith (p s : str) : bool := startswith (rev p) (rev s).

(** [sub in s] *)
Fixpoint isin (sub s : str) : bool :=
  startswith sub s ||
  match s with
  | [] => false
  | _ :: s' => isin sub s'
  end.

(** [s.replace(old, new)] for a non-empty [old]: occurrences are taken
    left to right and do not overlap.  [skip] counts the characters of
    the occurrence just replaced that are still to be passed over. *)
Fixpoint replace_from (old new : str) (skip : nat) (s : str) : str :=
  match s with
  | [] => []
  | c :: s' =>
      match skip with
      | S k => replace_from old new k s'
      | O =>
          if startswith old s
          then new ++ replace_from old new (pred (List.length old)) s'
          else c :: replace_from old new 0 s'
      end
  end.

(** [s.replace(old, new)]; with an empty [old] Python puts [new] before
    every character and at the end. *)
Definition replace (old new : str) (s : str) : str :=
  match old with
  | [] => new ++ flat_map (fun c => c :: new) s
  | _ :: _ => replace_from old new 0 s
  end.

(** [s.split(sep)] for a one-character separator. *)
Fixpoint split (sep : ascii) (s : str) : list str :=
  match s with
  | [] => [[]]
  | c :: s' =>
      if ceq c sep then [] :: split sep s'
      else match split sep s' with
           | w :: ws => (c :: w) :: ws
           | [] => [[c]]
           end
  end.

(** [s.split()]: the maximal runs of non-space characters. *)
Fixpoint words_from (cur : str) (s : str) : list str :=
  match s with
  | [] => match cur with [] => [] | _ => [rev cur] end
  | c :: s' =>
      if is_space c
      then match cur with
           | [] => words_from [] s'
           | _ => rev cur :: words_from [] s'
           end
      else words_from (c :: cur) s'
  end.

Definition split_ws (s : str) : list str := words_from [] s.

(** [sep.join(parts)] *)
Fixpoint join (sep : str) (parts : list str) : str :=
  match parts with
  | [] => []
  | [p] => p
  | p :: ps => p ++ sep ++ join sep ps
  end.

(** Truth value of a string. *)
Definition truthy (s : str) : bool :=
  match s with [] => false | _ => true end.

(** [l[-1]] of a non-empty list. *)
Fixpoint last_opt {A} (l : list A) : option A :=
  match l with
  | [] => None
  | [x] => Some x
  | _ :: l' => last_opt l'
  end.

End Py.

(** ** Regular expressions

    The patterns of the program are sequences of: one character of a
    class, a repeated class (greedy or lazy, with bounds), group
    delimiters and the anchors [^] and [$]. *)

Module Re.

Inductive item : Type :=
| Chr (p : ascii -> bool)
| Rep (greedy : bool) (lo : nat) (hi : option nat) (p : ascii -> bool)
| GOpen (n : nat)
| GClose (n : nat)
| Bol
| Eol.

Definition pattern := list item.

Record rmatch := MkMatch {
  m_end : nat;                      (* characters consumed *)
  m_groups : list (nat * str)       (* group number, captured text *)
}.

(* character classes *)
Definition lit (c : ascii) : ascii -> bool := fun x => Py.ceq x c.
Definition lit_i (c : ascii) : ascii -> bool :=
  fun x => Py.ceq (Py.lower_char x) (Py.lower_char c).
Definition oneof (cs : str) : ascii -> bool := fun x => existsb (Py.ceq x) cs.
Definition neg (p : ascii -> bool) : ascii -> bool := fun x => negb (p x).
Definition orc (p q : ascii -> bool) : ascii -> bool := fun x => p x || q x.
Definition dot : ascii -> bool := neg (lit "010").

(** A literal word, with or without IGNORECASE. *)
Definition word (ci : bool) (w : str) : pattern :=
  map (fun c => Chr (if ci then lit_i c else lit c)) w.

Definition star (p : ascii -> bool) := Rep true 0 None p.
Definition plus (p : ascii -> bool) := Rep true 1 None p.
Definition lazy_star (p : ascii -> bool) := Rep false 0 None p.
Definition opt (p : ascii -> bool) := Rep true 0 (Some 1) p.
Definition times (n : nat) (p : ascii -> bool) := Rep true n (Some n) p.

Definition more (hi : option nat) : bool :=
  match hi with None => true | Some h => negb (h =? 0) end.
Definition dec (hi : option nat) : option nat :=
  match hi with None => None | Some h => Some (pred h) end.

Section Repeat.
Variable R : Type.
Variable p : ascii -> bool.
(** What follows the repetition: previous character, position, rest. *)
Variable K : option ascii -> nat -> str -> option R.

(** Greedy: take one more character if possible, and come back to
    stop here only if everything after failed. *)
Fixpoint rep_greedy (lo : nat) (hi : option nat)
         (prev : option ascii) (pos : nat) (s : str) : option R :=
  let stop := if lo =? 0 then K prev pos s else None in
  match s with
  | c :: s' =>
      if p c && more hi then
        match rep_greedy (pred lo) (dec hi) (Some c) (S pos) s' with
        | Some r => Some r
        | None => stop
        end
      else stop
  | [] => stop
  end.

(** Lazy: stop here if what follows matches, else take one more. *)
Fixpoint rep_lazy (lo : nat) (hi : option nat)
         (prev : option ascii) (pos : nat) (s : str) : option R :=
  match (if lo =? 0 then K prev pos s else None) with
  | Some r => Some r
  | None =>
      match s with
      | c :: s' =>
          if p c && more hi
          then rep_lazy (pred lo) (dec hi) (Some c) (S pos) s'
          else None
      | [] => None
      end
  end.
End Repeat.

Definition at_bol (ml : bool) (prev : option ascii) : bool :=
  match prev with
  | None => true
  | Some c => ml && Py.ceq c "010"
  end.

Definition at_eol (ml : bool) (s : str) : bool :=
  match s with
  | [] => true
  | c :: s' => Py.ceq c "010" && (ml || match s' with [] => true | _ => false end)
  end.

(** [run ml pat prev pos s opens caps]: match [pat] against [s], which
    starts at offset [pos] of the attempt and is preceded by [prev] in
    the subject.  [opens] holds the groups opened and not yet closed,
    with the offset and the text at their opening. *)
Fixpoint run (ml : bool) (pat : pattern) (prev : option ascii) (pos : nat)
         (s : str) (opens : list (nat * (nat * str)))
         (caps : list (nat * str)) {struct pat} : option rmatch :=
  match pat with
  | [] => Some (MkMatch pos caps)
  | Chr p :: pat' =>
      match s with
      | c :: s' => if p c then run ml pat' (Some c) (S pos) s' opens caps else None
      | [] => None
      end
  | Rep greedy lo hi p :: pat' =>
      let K := fun prev' pos' s' => run ml pat' prev' pos' s' opens caps in
      if greedy then rep_greedy p K lo hi prev pos s
      else rep_lazy p K lo hi prev pos s
  | GOpen n :: pat' => run ml pat' prev pos s ((n, (pos, s)) :: opens) caps
  | GClose n :: pat' =>
      match opens with
      | (_, (pos0, s0)) :: opens' =>
          run ml pat' prev pos s opens' ((n, firstn (pos - pos0) s0) :: caps)
      | [] => None
      end
  | Bol :: pat' => if at_bol ml prev then run ml pat' prev pos s opens caps else None
  | Eol :: pat' => if at_eol ml s then run ml pat' prev pos s opens caps else None
  end.

(** One attempt at the current position; [prev] is the character just
    before it in the subject. *)
Definition here (ml : bool) (pat : pattern) (prev : option ascii) (s : str)
  : option rmatch :=
  run ml pat prev 0 s [] [].

(** [m.group(n)] *)
Fixpoint group (n : nat) (gs : list (nat * str)) : str :=
  match gs with
  | [] => []
  | (k, t) :: gs' => if k =? n then t else group n gs'
  end.

(** [re.match(pat, s)] *)
Definition rmatch_at_start (ml : bool) (pat : pattern) (s : str) : option rmatch :=
  here ml pat None s.

(** [re.search(pat, s)]: the first position, left to right, where an
    attempt succeeds. *)
Fixpoint search_from (ml : bool) (pat : pattern) (prev : option ascii) (s : str)
  : option rmatch :=
  match here ml pat prev s with
  | Some m => Some m
  | None =>
      match s with
      | [] => None
      | c :: s' => search_from ml pat (Some c) s'
      end
  end.

Definition search (ml : bool) (pat : pattern) (s : str) : option rmatch :=
  search_from ml pat None s.

(** A replacement template: literal text and group references. *)
Definition template := list (str + nat).

Definition expand (t : template) (m : rmatch) : str :=
  flat_map (fun x => match x with
                     | inl lit_text => lit_text
                     | inr n => group n (m_groups m)
                     end) t.

(** [re.sub(pat, repl, s)]: matches are replaced left to right and do
    not overlap; [skip] counts the characters of the last match still to
    be passed over.  After an empty match the next character is copied
    (no pattern of the program matches the empty string). *)
Fixpoint sub_from (ml : bool) (pat : pattern) (repl : template)
         (prev : option ascii) (skip : nat) (s : str) : str :=
  match skip with
  | S k =>
      match s with
      | [] => []
      | c :: s' => sub_from ml pat repl (Some c) k s'
      end
  | O =>
      match here ml pat prev s with
      | Some m =>
          expand repl m ++
          match s with
          | [] => []
          | c :: s' =>
              match m_end m with
              | O => c :: sub_from ml pat repl (Some c) 0 s'
              | S k => sub_from ml pat repl (Some c) k s'
              end
          end
      | None =>
          match s with
          | [] => []
          | c :: s' => c :: sub_from ml pat repl (Some c) 0 s'
          end
      end
  end.

Definition sub (ml : bool) (pat : pattern) (repl : template) (s : str) : str :=
  sub_from ml pat repl None 0 s.

End Re.

(** ** Configuration and constants *)

Definition nl : ascii := "010".
Definition dquote : ascii := "034".
Definition squote : ascii := "039".

Definition EXCLUDED_KEYWORDS : list str :=
  [ "00_ignore" : str; "mockup pages required" : str; "global sections" : str;
    "inside page components" : str; "optional specialty pages" : str;
    "header" : str; "footer" : str; "badges" : str; "navigation" : str;
    "inside form" : str; "financing box" : str; "contact info" : str;
    "variables" : str; "meta description" : str; "contact us today" : str;
    "homepage" : str; "promotions" : str; "contact" : str ].

Definition FIXED_DATE : str := "2001-01-01".
Definition DEFAULT_PHONE_NUMBER : str := "555-555-5555".
Definition START_MARKER : str := "Footer (All Pages)".

(** ** Utility functions *)

(** [\[([^\]]+)\]\(.*?\)] *)
Definition link_re : Re.pattern :=
  [ Re.Chr (Re.lit "["); Re.GOpen 1; Re.plus (Re.neg (Re.lit "]")); Re.GClose 1;
    Re.Chr (Re.lit "]"); Re.Chr (Re.lit "("); Re.lazy_star Re.dot;
    Re.Chr (Re.lit ")") ].

(** [re.sub(r'\[([^\]]+)\]\(.*?\)', r'\1', text)] *)
Definition strip_links (text : str) : str :=
  Re.sub false link_re [inr 1] text.

Definition clean_markdown_link (text : str) : str :=
  let text := strip_links text in
  let text := Py.replace ">" "" (Py.replace "<" "" (Py.replace "\" "" text)) in
  Py.strip text.

(** The class [[\s*_\-+\.]] *)
Definition nav_edge : ascii -> bool := Re.orc Py.is_space (Re.oneof "*_-+.").

(** [^[\s*_\-+\.]+] *)
Definition nav_lead_re : Re.pattern := [ Re.Bol; Re.plus nav_edge ].
(** [[\s*_\-+\.]+$] *)
Definition nav_trail_re : Re.pattern := [ Re.plus nav_edge; Re.Eol ].

Definition clean_nav_text (text : str) : str :=
  let text := strip_links text in
  let text := Py.replace "}" "" (Py.replace "{" "" text) in
  let text := Re.sub false nav_lead_re [] text in
  let text := Re.sub false nav_trail_re [] text in
  let text := Py.replace "#" "" text in
  let text := Py.replace "**" "" text in
  Py.strip text.

(** The class [[^\w\s-]] *)
Definition non_slug : ascii -> bool :=
  Re.neg (Re.orc Py.is_word (Re.orc Py.is_space (Re.lit "-"))).

Definition to_kebab_case (text : str) : str :=
  let text := clean_nav_text text in
  let text := Py.replace " - " " " text in
  let text := Py.replace "|" "" text in
  let text := Py.lower (Py.strip (Re.sub false [Re.Chr non_slug] [] text)) in
  Re.sub false [Re.plus Py.is_space] [inl ("-" : str)] text.

Definition should_skip_page (title content : str) : bool :=
  let clean_title := Py.strip (Py.lower title) in
  if existsb (fun keyword => Py.isin keyword clean_title) EXCLUDED_KEYWORDS
  then true
  else if List.length (Py.strip content) <? 10 then true
  else false.

(** ** Dictionaries

    A Python [dict] with string keys: an association list without
    duplicate keys, in insertion order. *)

Module Dict.
Section Dict.
Variable V : Type.
Definition t := list (str * V).

(** [d.get(k)] *)
Fixpoint get (k : str) (d : t) : option V :=
  match d with
  | [] => None
  | (k', v) :: d' => if Py.eqb k' k then Some v else get k d'
  end.

(** [k in d] *)
Definition mem (k : str) (d : t) : bool :=
  match get k d with Some _ => true | None => false end.

(** [d[k] = v]: an existing key keeps its place. *)
Fixpoint set (k : str) (v : V) (d : t) : t :=
  match d with
  | [] => [(k, v)]
  | (k', v') :: d' =>
      if Py.eqb k' k then (k', v) :: d' else (k', v') :: set k v d'
  end.

Definition keys (d : t) : list str := map fst d.
End Dict.
End Dict.

(** ** Navigation *)

Definition extract_nav_items_from_lines (lines : list str) : list str :=
  filter (fun clean =>
            Py.truthy clean && negb (Py.isin "Navigation (" clean)
            && negb (Py.isin "Dev Note" clean))
         (map clean_nav_text lines).

(** [^[\s]*[\-\*]\s+] *)
Definition list_pattern : Re.pattern :=
  [ Re.Bol; Re.star Py.is_space; Re.Chr (Re.oneof "-*"); Re.plus Py.is_space ].

Definition matches (pat : Re.pattern) (s : str) : bool :=
  match Re.rmatch_at_start false pat s with Some _ => true | None => false end.

Definition found (ml : bool) (pat : Re.pattern) (s : str) : bool :=
  match Re.search ml pat s with Some _ => true | None => false end.

Record nav_state := MkNav {
  nav_structure : Dict.t (list str);
  current_parent : option str
}.

Definition nav_init : nav_state := MkNav [] None.

(** One turn of the first loop of [generate_nav_yaml]. *)
Definition nav_line (st : nav_state) (line : str) : nav_state :=
  let stripped := Py.strip line in
  if negb (Py.truthy stripped) || Py.isin "Dev Note" stripped then st
  else
    let is_child := matches list_pattern stripped in
    let clean_text := clean_nav_text stripped in
    if negb (Py.truthy clean_text) then st
    else if is_child then
      match current_parent st with
      | Some parent =>
          if Py.truthy parent then
            match Dict.get parent (nav_structure st) with
            | Some children =>
                MkNav (Dict.set parent (children ++ [clean_text]) (nav_structure st))
                      (current_parent st)
            | None => st   (* KeyError: the current parent is always a key *)
            end
          else st
      | None => st
      end
    else
      MkNav (if Dict.mem clean_text (nav_structure st) then nav_structure st
             else Dict.set clean_text [] (nav_structure st))
            (Some clean_text).

Definition build_nav (lines : list str) : nav_state := fold_left nav_line lines nav_init.

(** [range(start, stop, step)] for a positive step, unrolled at most
    [fuel] times. *)
Fixpoint range_from (fuel start stop step : nat) : list nat :=
  match fuel with
  | O => []
  | S fuel' =>
      if start <? stop then start :: range_from fuel' (start + step) stop step
      else []
  end.

Definition range (start stop step : nat) : list nat :=
  range_from stop start stop step.

(** [l[i:j]] *)
Definition slice {A} (l : list A) (i j : nat) : list A :=
  firstn (j - i) (skipn i l).

(** [[children[i:i + 8] for i in range(0, len(children), 8)]] *)
Definition chunks {A} (children : list A) : list (list A) :=
  map (fun i => slice children i (i + 8)) (range 0 (List.length children) 8).

Definition render_child (parent child : str) : str :=
  let kebab := to_kebab_case child in
  let href : str :=
    if Py.eqb parent "Promotions" then "/promotions/" : str
    else if Py.eqb parent "About Us" then "/" ++ kebab ++ "/"
    else "/services/" ++ kebab ++ "/" in
  "        - text: " ++ child ++ [nl] ++ "          href: " ++ href ++ [nl].

Definition render_chunk (parent : str) (chunk : list str) : str :=
  "    - title:" ++ [nl] ++ "      links:" ++ [nl]
  ++ flat_map (render_child parent) chunk.

Definition render_parent (entry : str * list str) : str :=
  let (parent, children) := entry in
  let parent_kebab := to_kebab_case parent in
  let parent_href : str :=
    if Py.isin "contact" parent_kebab then "/contact-us/" else "#" in
  let head := "- text: " ++ parent ++ [nl]
              ++ "  href: " ++ [dquote] ++ parent_href ++ [dquote] ++ [nl] in
  match children with
  | [] => head ++ [nl]
  | _ => head ++ "  dropdown:" ++ [nl]
         ++ flat_map (render_chunk parent) (chunks children) ++ [nl]
  end.

Definition generate_nav_yaml (lines : list str) : str :=
  flat_map render_parent (nav_structure (build_nav lines)).

(** ** Reviews *)

Record review := MkReview {
  service_type : option str;
  r_text : str;
  r_source : str;
  r_service : str
}.

(** [^#.*] with MULTILINE *)
Definition heading_line_re : Re.pattern :=
  [ Re.Bol; Re.Chr (Re.lit "#"); Re.star Re.dot ].

(** The pattern [( .*? ) \s* \( ( [^)]+ ) \) $]. *)
Definition trailing_paren_re : Re.pattern :=
  [ Re.GOpen 1; Re.lazy_star Re.dot; Re.GClose 1; Re.star Py.is_space;
    Re.Chr (Re.lit "("); Re.GOpen 2; Re.plus (Re.neg (Re.lit ")")); Re.GClose 2;
    Re.Chr (Re.lit ")"); Re.Eol ].

(** The pattern [( .* [.!?Q] ) \s+ ( .* )], where [Q] is the double quote. *)
Definition sentence_split_re : Re.pattern :=
  [ Re.GOpen 1; Re.star Re.dot;
    Re.Chr (Re.orc (Re.oneof ".!?") (Re.lit dquote)); Re.GClose 1;
    Re.plus Py.is_space; Re.GOpen 2; Re.star Re.dot; Re.GClose 2 ].

Record review_state := MkRev {
  reviews_data : list review;
  buffer : list str
}.

(** One turn of the loop of [generate_reviews_yaml]. *)
Definition review_line (st : review_state) (line : str) : review_state :=
  let stripped := Py.strip line in
  if negb (Py.truthy stripped) then st
  else
    let clean_line := Py.strip (strip_links stripped) in
    match Re.search false trailing_paren_re clean_line with
    | Some m =>
        let pre_paren := Py.strip (Re.group 1 (Re.m_groups m)) in
        let service := Py.strip (Re.group 2 (Re.m_groups m)) in
        let '(review_text, source) :=
          match Re.search false sentence_split_re pre_paren with
          | Some split =>
              (Py.join " " (buffer st ++ [Py.strip (Re.group 1 (Re.m_groups split))]),
               Py.strip (Re.group 2 (Re.m_groups split)))
          | None =>
              let words := Py.split_ws pre_paren in
              if List.length words <? 5
              then (Py.join " " (buffer st), pre_paren)
              else (Py.join " " (buffer st ++ [pre_paren]), [])
          end in
        let review_text :=
          Py.replace "**" ""
            (Py.strip_chars [squote] (Py.strip_chars [dquote] (Py.strip review_text))) in
        MkRev (if Py.truthy review_text
               then reviews_data st ++
                    [MkReview None review_text (Py.replace "**" "" source)
                              ("(" ++ Py.replace "**" "" service ++ ")")]
               else reviews_data st)
              []
    | None => MkRev (reviews_data st) (buffer st ++ [clean_line])
    end.

(** The records that [generate_reviews_yaml] hands to [yaml.dump] under
    the key [reviews]; the serialisation itself is the YAML library's. *)
Definition generate_reviews_yaml (raw_text : str) : list review :=
  let raw_text := Re.sub true heading_line_re [] raw_text in
  let normalized_text := Py.replace "**" [nl] raw_text in
  let lines := Py.split nl normalized_text in
  reviews_data (fold_left review_line lines (MkRev [] [])).

(** ** Page content *)

Definition clean_body_line (text : str) : str :=
  Py.replace "\]" "]" (Py.replace "\[" "[" (Py.replace "\_" "_" (Py.strip text))).

(** The pattern [\[{tag_name}\] .*? ( \S .* )] with IGNORECASE. *)
Definition tag_re (tag_name : str) : Re.pattern :=
  Re.word true ("[" ++ tag_name ++ "]")
  ++ [ Re.lazy_star Re.dot; Re.GOpen 1; Re.Chr (Re.neg Py.is_space);
       Re.star Re.dot; Re.GClose 1 ].

(** The pattern [\[ .*? \] \( ( http [^)]+ ) \)]. *)
Definition md_url_re : Re.pattern :=
  [ Re.Chr (Re.lit "["); Re.lazy_star Re.dot; Re.Chr (Re.lit "]");
    Re.Chr (Re.lit "("); Re.GOpen 1 ]
  ++ Re.word false "http"
  ++ [ Re.plus (Re.neg (Re.lit ")")); Re.GClose 1; Re.Chr (Re.lit ")") ].

(** The pattern [( https? :// [^\s<>Q)\]]+ )], where [Q] is the double
    quote. *)
Definition bare_url_re : Re.pattern :=
  [ Re.GOpen 1 ] ++ Re.word false "http" ++ [ Re.opt (Re.lit "s") ]
  ++ Re.word false "://"
  ++ [ Re.plus (Re.neg (Re.orc Py.is_space
                          (Re.orc (Re.oneof "<>)]") (Re.lit dquote))));
       Re.GClose 1 ].

Definition extract_tag_value (line tag_name : str) (extract_url : bool) : option str :=
  match Re.search false (tag_re tag_name) (Py.replace "\" "" line) with
  | Some m =>
      let raw_val := Py.strip (Re.group 1 (Re.m_groups m)) in
      let plain := Some (clean_markdown_link raw_val) in
      if extract_url then
        match Re.search false md_url_re raw_val with
        | Some link_match => Some (Re.group 1 (Re.m_groups link_match))
        | None =>
            match Re.search false bare_url_re raw_val with
            | Some url_match => Some (Re.group 1 (Re.m_groups url_match))
            | None => plain
            end
        end
      else plain
  | None => None
  end.

Record cta := MkCta {
  cta_text : str;
  cta_link : str;
  cta_icon : str;
  cta_type : str;
  cta_scheme : str;
  cta_reverse : str
}.

Record page_data := MkData {
  title : str;
  hero_image : str;
  subheader : str;
  ctas : list cta;
  promos : list str;
  body_lines : list str
}.

Record card := MkCard { card_title : str; card_slug : str }.

Record service_box_data := MkBox {
  heading : str;
  sub_heading : str;
  cards : list card
}.

Record image_task := MkTask { url : str; filename : str }.

Record page_state := MkPage {
  data : page_data;
  service_box : option service_box_data;
  is_body_started : bool;
  is_service_box : bool;
  image_queue : list image_task
}.

Definition with_data (f : page_data -> page_data) (st : page_state) : page_state :=
  MkPage (f (data st)) (service_box st) (is_body_started st) (is_service_box st)
         (image_queue st).

Definition set_subheader (v : str) (d : page_data) : page_data :=
  MkData (title d) (hero_image d) v (ctas d) (promos d) (body_lines d).
Definition add_cta (c : cta) (d : page_data) : page_data :=
  MkData (title d) (hero_image d) (subheader d) (ctas d ++ [c]) (promos d) (body_lines d).
Definition add_promo (p : str) (d : page_data) : page_data :=
  MkData (title d) (hero_image d) (subheader d) (ctas d) (promos d ++ [p]) (body_lines d).
Definition set_body_lines (l : list str) (d : page_data) : page_data :=
  MkData (title d) (hero_image d) (subheader d) (ctas d) (promos d) l.

Definition set_box (b : option service_box_data) (st : page_state) : page_state :=
  MkPage (data st) b (is_body_started st) (is_service_box st) (image_queue st).
Definition set_body_started (b : bool) (st : page_state) : page_state :=
  MkPage (data st) (service_box st) b (is_service_box st) (image_queue st).
Definition set_in_box (b : bool) (st : page_state) : page_state :=
  MkPage (data st) (service_box st) (is_body_started st) b (image_queue st).
Definition push_image (t : image_task) (st : page_state) : page_state :=
  MkPage (data st) (service_box st) (is_body_started st) (is_service_box st)
         (image_queue st ++ [t]).

(** [l and l[-1] != ''] *)
Definition ends_nonblank (l : list str) : bool :=
  match Py.last_opt l with
  | Some x => Py.truthy x
  | None => false
  end.

(** What a test in the loop body does with the line: go to the next line,
    or fall through to the tests below. *)
Inductive flow : Type :=
| Continue (st : page_state)
| Fall (st : page_state).

(** The [if is_service_box:] block. *)
Definition service_box_block (st : page_state) (stripped line_lower : str) : flow :=
  if is_service_box st then
    if (Py.startswith "# " stripped || Py.startswith "## " stripped)
       && negb (Py.isin "how can we help" line_lower)
    then Fall (set_in_box false st)
    else if Py.isin "[p]" line_lower then
      let sub := Py.strip (Re.sub false (Re.word true "[p]") [] stripped) in
      Continue (set_box (option_map (fun b => MkBox (heading b) sub (cards b))
                                    (service_box st)) st)
    else if Py.truthy stripped && negb (Py.isin "[" stripped) then
      let card_title := clean_body_line stripped in
      let card_slug := to_kebab_case card_title in
      Continue (set_box (option_map
                           (fun b => MkBox (heading b) (sub_heading b)
                                           (cards b ++ [MkCard card_title card_slug]))
                           (service_box st)) st)
    else Continue st
  else Fall st.

(** The [if not is_body_started:] block. *)
Definition pre_body_block (st : page_state) (stripped : str) : flow :=
  if negb (is_body_started st) then
    if Py.startswith "##" stripped then Fall (set_body_started true st)
    else
      let is_h1 := Py.startswith "# " stripped in
      let is_title :=
        Py.eqb (Py.lower (clean_nav_text stripped)) (Py.lower (title (data st))) in
      if is_h1 || is_title then Continue st else Fall st
  else Fall st.

(** [final_url in k or k in final_url] for an entry of the table. *)
Definition hero_match (final_url : str) (kv : str * str) : bool :=
  Py.isin final_url (fst kv) || Py.isin (fst kv) final_url.

(** The lookup of a hero-image text in the hyperlink table: the text
    itself as a key, else the first key, in table order, that contains the
    text or is contained in it, else the text unchanged. *)
Definition resolve_hero (hyperlink_map : Dict.t str) (final_url : str) : str :=
  if Py.startswith "http" final_url || Py.startswith "https" final_url
  then final_url
  else
    match Dict.get final_url hyperlink_map with
    | Some v => v
    | None =>
        match find (hero_match final_url) hyperlink_map with
        | Some (_, v) => v
        | None => final_url
        end
    end.

(** The [if '[hero image]' in line_lower:] block. *)
Definition hero_block (hyperlink_map : Dict.t str) (page_slug : str)
           (st : page_state) (stripped : str) : page_state :=
  match extract_tag_value stripped "hero image" true with
  | Some text_val =>
      if Py.truthy text_val then
        let final_url := Py.strip text_val in
        push_image (MkTask (resolve_hero hyperlink_map final_url) page_slug) st
      else st
  | None => st
  end.

(** [a or b] on optional strings. *)
Definition or_else (a b : option str) : option str :=
  match a with
  | Some v => if Py.truthy v then a else b
  | None => b
  end.

(** The pattern [\[ .*? promo .*? \]] with IGNORECASE. *)
Definition promo_re : Re.pattern :=
  [ Re.Chr (Re.lit "["); Re.lazy_star Re.dot ] ++ Re.word true "promo"
  ++ [ Re.lazy_star Re.dot; Re.Chr (Re.lit "]") ].

(** [\d{3}[-.\s]?\d{3}] *)
Definition phone_re : Re.pattern :=
  [ Re.times 3 Py.is_digit; Re.opt (Re.orc (Re.oneof "-.") Py.is_space);
    Re.times 3 Py.is_digit ].

(** The classification of a CTA text (the body of [if val:]). *)
Definition make_cta (cta_text : str) : cta :=
  let '(display, link, icon, scheme, rev) :=
    if Py.isin DEFAULT_PHONE_NUMBER cta_text then
      ("{{ site.phone }}" : str, "tel:{{ site.phone }}" : str, "phone" : str,
       "accent" : str, "false" : str)
    else
      let '(display, link, icon, scheme, rev) :=
        (cta_text, "{{ site.contact_page }}" : str, "mark_email_unread" : str,
         "primary1" : str, "true" : str) in
      if found false phone_re cta_text
      then (display, "tel:{{ site.phone }}" : str, "phone" : str, "accent" : str,
            "false" : str)
      else (display, link, icon, scheme, rev) in
  MkCta display link icon "button-1" scheme rev.

(** The value of a CTA line: the first of the tags [cta], [cta_1] and
    [cta_2] that gives a non-empty value. *)
Definition cta_value (stripped : str) : option str :=
  or_else (extract_tag_value stripped "cta" false)
          (or_else (extract_tag_value stripped "cta_1" false)
                   (extract_tag_value stripped "cta_2" false)).

(** [val.replace('{', '').replace('}', '').strip().replace('**', '')] *)
Definition cta_text_of (val : str) : str :=
  Py.replace "**" "" (Py.strip (Py.replace "}" "" (Py.replace "{" "" val))).

(** The [if '[cta' in line_lower:] block. *)
Definition cta_block (st : page_state) (stripped : str) : page_state :=
  match cta_value stripped with
  | Some val =>
      if Py.truthy val
      then with_data (add_cta (make_cta (cta_text_of val))) st
      else st
  | None => st
  end.

(** The pattern [^ ( #+ ) ( [^#\s] )]. *)
Definition heading_fix_re : Re.pattern :=
  [ Re.Bol; Re.GOpen 1; Re.plus (Re.lit "#"); Re.GClose 1; Re.GOpen 2;
    Re.Chr (Re.neg (Re.orc (Re.lit "#") Py.is_space)); Re.GClose 2 ].

(** [^[\-\*]\s+] *)
Definition bullet_re : Re.pattern :=
  [ Re.Bol; Re.Chr (Re.oneof "-*"); Re.plus Py.is_space ].

(** [^\d+\.\s+] *)
Definition numbered_re : Re.pattern :=
  [ Re.Bol; Re.plus Py.is_digit; Re.Chr (Re.lit "."); Re.plus Py.is_space ].

Definition is_list_line (s : str) : bool :=
  matches bullet_re s || matches numbered_re s.

(** The text appended for an ordinary line. *)
Definition body_text (stripped : str) : str :=
  let cleaned := clean_body_line stripped in
  if matches heading_fix_re cleaned
  then Re.sub false heading_fix_re [inr 1; inl (" " : str); inr 2] cleaned
  else cleaned.

(** [body_lines] after an ordinary line. *)
Definition append_body (lines : list str) (cleaned : str) : list str :=
  let lines :=
    if Py.startswith "#" cleaned && ends_nonblank lines then lines ++ [[]]
    else lines in
  let is_list := is_list_line cleaned in
  let lines :=
    if ends_nonblank lines then
      let prev := match Py.last_opt lines with Some x => x | None => [] end in
      let prev_is_list := is_list_line prev in
      if negb (is_list && prev_is_list) && negb (Py.startswith "#" cleaned)
      then lines ++ [[]]
      else lines
    else lines in
  lines ++ [cleaned].

(** The end of the loop body, from [if '##' in stripped:]. *)
Definition body_block (st : page_state) (stripped : str) : page_state :=
  let st := if Py.isin "##" stripped then set_body_started true st else st in
  with_data (fun d => set_body_lines (append_body (body_lines d) (body_text stripped)) d) st.

(** One turn of the loop of [parse_page_content]. *)
Definition page_line (hyperlink_map : Dict.t str) (page_slug : str)
           (st : page_state) (line : str) : page_state :=
  let stripped := Py.strip line in
  if negb (Py.truthy stripped) then
    if is_body_started st && negb (is_service_box st)
       && ends_nonblank (body_lines (data st))
    then with_data (fun d => set_body_lines (body_lines d ++ [[]]) d) st
    else st
  else
    let line_lower := Py.replace "\" "" (Py.lower stripped) in
    if Py.isin "how can we help" line_lower && Py.isin "##" stripped then
      let clean_head := clean_body_line (Py.replace "##" "" stripped) in
      set_box (Some (MkBox clean_head [] [])) (set_in_box true st)
    else
      match service_box_block st stripped line_lower with
      | Continue st' => st'
      | Fall st =>
      match pre_body_block st stripped with
      | Continue st' => st'
      | Fall st =>
          if Py.isin "[hero image]" line_lower then
            hero_block hyperlink_map page_slug st stripped
          else if Py.isin "[para_subheader]" line_lower then
            match extract_tag_value stripped "para_subheader" false with
            | Some val =>
                if Py.truthy val
                then with_data (set_subheader (Py.replace "**" "" val)) st
                else st
            | None => st
            end
          else if Py.isin "[promo" line_lower || Py.isin "[hero_promo]" line_lower then
            let promo := Re.sub false promo_re [] stripped in
            with_data (add_promo (Py.replace "**" "" (clean_nav_text promo))) st
          else if Py.isin "[cta" line_lower then cta_block st stripped
          else body_block st stripped
      end end.

Definition clean_title_of (page_title : str) : str :=
  Py.strip (Py.replace " Page" "" (Py.replace "#" "" page_title)).

Definition page_slug_of (page_title : str) : str :=
  to_kebab_case (clean_title_of page_title).

Definition page_init (page_title : str) (image_queue : list image_task) : page_state :=
  MkPage (MkData (clean_title_of page_title) (page_slug_of page_title) [] [] [] [])
         None false false image_queue.

(** The state of [parse_page_content] when its loop ends. *)
Definition page_loop (raw_text page_title : str) (image_queue : list image_task)
           (hyperlink_map : Dict.t str) : page_state :=
  fold_left (page_line hyperlink_map (page_slug_of page_title))
            (Py.split nl raw_text) (page_init page_title image_queue).

Definition render_cta (c : cta) : str :=
  "        - cta-link: '" ++ cta_link c ++ "'" ++ [nl]
  ++ "          cta-text: '" ++ cta_text c ++ "'" ++ [nl]
  ++ "          cta-icon: " ++ cta_icon c ++ [nl]
  ++ "          cta-type: " ++ cta_type c ++ [nl]
  ++ "          cta-color-scheme: " ++ cta_scheme c
  ++ (if Py.eqb (cta_reverse c) "true"
      then [nl] ++ "          cta-reverse: true" else [])
  ++ [nl].

Definition render_promos (ps : list str) : str :=
  match ps with
  | [] => "    # - heading:" ++ [nl] ++ "    #   disclaimer: " ++ [nl]
          ++ "    #   link:"
  | _ => flat_map (fun p => "    - heading: " ++ p ++ [nl]) ps
  end.

Definition front_matter (d : page_data) : str :=
  flat_map (fun l : str => l ++ [nl])
    [ "---" : str;
      "layout: post-sidebar" : str;
      "title: " ++ title d;
      "title_override:" : str;
      "category: services" : str;
      "body_class:" : str;
      "show_steps_banner:" : str;
      "# top_review_slider:" : str;
      "#     show_slider: true" : str;
      "#     custom_class: " ++ [dquote] ++ "block lg:hidden" ++ [dquote];
      "# bottom_review_slider:" : str;
      "#     hide_slider: " : str;
      "#     custom_class: " ++ [dquote] ++ "hidden lg:block" ++ [dquote];
      [];
      "hero:" : str;
      "  variant: split" : str;
      "  image: " ++ hero_image d;
      "  image_position:" : str;
      "  content:" : str;
      "    - type: 'heading'" : str;
      "    # - type: 'lists'" : str;
      "    #   lists: " : str;
      "    #     - item: Lorem ipsum" : str;
      "    - type: 'paragraph'" : str;
      "      paragraph: " ++ subheader d;
      "    - type: 'cta'" : str;
      "      buttons:" : str;
      Py.rstrip_by Py.is_space (flat_map render_cta (ctas d));
      "  promos:" : str;
      render_promos (promos d);
      [];
      "hide_promo_carousel:" : str;
      "hide_sidebar_promo: true" : str;
      "hide_sidebar_review: true" : str;
      "hide_sidebar_financing: true" : str;
      "---" : str;
      [] ].

(** [parse_page_content]: the page file, the service box if any, and the
    image queue as the call leaves it. *)
Definition parse_page_content (raw_text page_title : str)
           (queue : list image_task) (hyperlink_map : Dict.t str)
  : str * option service_box_data * list image_task :=
  let st := page_loop raw_text page_title queue hyperlink_map in
  (front_matter (data st) ++ Py.join [nl] (body_lines (data st)),
   service_box st, image_queue st).

(** ** Section segmentation ([process_docx] after the conversion to
    markdown) *)

Inductive section_value : Type :=
| NavLines (lines : list str)
| Text (content : str).

Record nav_capture := MkCapture {
  cap_sections : Dict.t section_value;
  nav_lines : list str;
  is_capturing_nav : bool;
  nav_captured : bool
}.

(** One turn of the first loop of [process_docx]. *)
Definition capture_line (st : nav_capture) (line : str) : nav_capture :=
  let stripped := Py.strip line in
  let clean := clean_nav_text stripped in
  if negb (nav_captured st) && Py.isin "Navigation (All Pages)" clean then
    MkCapture (cap_sections st) (nav_lines st) true (nav_captured st)
  else if is_capturing_nav st then
    if Py.startswith "# " stripped
       || (Py.startswith "## " stripped && negb (Py.isin "Navigation" clean))
    then MkCapture (Dict.set "Navigation" (NavLines (nav_lines st)) (cap_sections st))
                   (nav_lines st) false true
    else MkCapture (cap_sections st) (nav_lines st ++ [stripped])
                   (is_capturing_nav st) (nav_captured st)
  else st.

Definition target_pages_of (sections : Dict.t section_value) : list str :=
  match Dict.get "Navigation" sections with
  | Some (NavLines l) => map Py.lower (extract_nav_items_from_lines l)
  | _ => []
  end.

Record segment_state := MkSeg {
  sections : Dict.t section_value;
  current_page : str;
  current_content : list str;
  has_passed_footer : bool
}.

(** [if current_content and current_page != "00_Ignore": sections[...] = ...] *)
Definition commit (st : segment_state) : Dict.t section_value :=
  match current_content st with
  | [] => sections st
  | _ =>
      if negb (Py.eqb (current_page st) "00_Ignore")
      then Dict.set (current_page st) (Text (Py.join [nl] (current_content st)))
                    (sections st)
      else sections st
  end.

(** One turn of the second loop of [process_docx]. *)
Definition segment_line (target_pages : list str) (st : segment_state) (line : str)
  : segment_state :=
  let stripped := Py.strip line in
  let clean := clean_nav_text stripped in
  if Py.isin START_MARKER stripped || Py.isin "Footer (All Pages)" stripped then
    MkSeg (sections st) "00_Ignore" [] true
  else if negb (has_passed_footer st) then st
  else
    let is_h1 := Py.startswith "# " stripped in
    let is_page_keyword := Py.endswith "page" (Py.lower clean) in
    let is_known := existsb (Py.eqb (Py.lower clean)) target_pages in
    let is_reviews := Py.isin "customer reviews" (Py.lower clean) in
    let keep :=
      MkSeg (sections st) (current_page st)
            (if negb (Py.eqb (current_page st) "00_Ignore")
             then current_content st ++ [line] else current_content st)
            (has_passed_footer st) in
    if (is_h1 || is_page_keyword || is_known || is_reviews)
       && (List.length clean <? 80) && negb (Py.isin "[" stripped)
    then
      let is_exc := existsb (fun exc => Py.isin exc (Py.lower clean)) EXCLUDED_KEYWORDS in
      let is_exc := if is_reviews then false else is_exc in
      if negb is_exc
      then MkSeg (commit st) (Py.strip (Py.replace "#" "" clean)) []
                 (has_passed_footer st)
      else keep
    else keep.

(** The section map of [process_docx] for the lines of the converted
    document. *)
Definition segment_lines (lines : list str) : Dict.t section_value :=
  let cap := fold_left capture_line lines (MkCapture [] [] false false) in
  let target_pages := target_pages_of (cap_sections cap) in
  commit (fold_left (segment_line target_pages) lines
                    (MkSeg (cap_sections cap) "00_Ignore" [] false)).

Definition process_docx (raw_md : str) : Dict.t section_value :=
  segment_lines (Py.split nl raw_md).

(** ** Hyperlink extraction

    The document object is the library's: what the code reads from it is
    a record of outcomes, each either a value or an exception.  The table
    is a dictionary mutated in place, so what was written before an
    exception stays written. *)

Inductive outcome (A : Type) : Type :=
| Ok (a : A)
| Raised.
Arguments Ok {A} a.
Arguments Raised {A}.

Record hyperlink_elem := MkElem {
  get_rid : outcome (option str);            (* item.get('{...}id') *)
  findall_t : outcome (list (option str))    (* node.text of the w:t nodes *)
}.

Record paragraph := MkPara {
  para_text : outcome str;                       (* paragraph.text *)
  para_xml : outcome str;                        (* paragraph._element.xml *)
  para_hyperlinks : outcome (list hyperlink_elem)  (* xpath('.//w:hyperlink') *)
}.

Record relationship := MkRel { target_ref : outcome str }.

Record document := MkDoc {
  rels : Dict.t relationship;
  paragraphs : list paragraph
}.

Record file_obj := MkFile {
  seek : outcome unit;               (* file_obj.seek(0) *)
  Document : outcome document        (* Document(file_obj) *)
}.

Module Exn.
(** A computation on the table that returns a value or raises. *)
Definition M (A : Type) : Type := Dict.t str -> outcome A * Dict.t str.

Definition ret {A} (a : A) : M A := fun m => (Ok a, m).

Definition bind {A B} (c : M A) (k : A -> M B) : M B :=
  fun m => match c m with
           | (Ok a, m') => k a m'
           | (Raised, m') => (Raised, m')
           end.

Definition lift {A} (o : outcome A) : M A := fun m => (o, m).

(** [hyperlinks_map[k] = v] *)
Definition store (k v : str) : M unit := fun m => (Ok tt, Dict.set k v m).

(** [try: c except: handler] *)
Definition try_except {A} (c : M A) (handler : M A) : M A :=
  fun m => match c m with
           | (Ok a, m') => (Ok a, m')
           | (Raised, m') => handler m'
           end.

(** [for x in l: body], threading a loop variable. *)
Fixpoint for_each {A S} (l : list A) (body : S -> A -> M S) (s : S) : M S :=
  match l with
  | [] => ret s
  | x :: l' => bind (body s x) (for_each l' body)
  end.
End Exn.

Notation "x <- c ;; k" := (Exn.bind c (fun x => k))
  (at level 61, c at next level, right associativity).
Notation "c ;;; k" := (Exn.bind c (fun _ => k))
  (at level 61, right associativity).

Definition truthy_opt (o : option str) : bool :=
  match o with Some v => Py.truthy v | None => false end.

(** The body of the inner [try]; returns the new [found_url]. *)
Definition inspect_hyperlink (rels : Dict.t relationship) (found_url : option str)
           (item : hyperlink_elem) : Exn.M (option str) :=
  rid <- Exn.lift (get_rid item) ;;
  match (if truthy_opt rid then rid else None) with
  | Some r =>
      match Dict.get r rels with
      | Some rel =>
          url <- Exn.lift (target_ref rel) ;;
          text_nodes <- Exn.lift (findall_t item) ;;
          let txt :=
            Py.strip (flat_map (fun t => match t with
                                         | Some x => x
                                         | None => []
                                         end) text_nodes) in
          (if Py.truthy txt
           then Exn.store txt url ;;; Exn.store (Py.replace " " "" txt) url
           else Exn.ret tt) ;;;
          Exn.ret (if negb (truthy_opt found_url) then Some url else found_url)
      | None => Exn.ret found_url
      end
  | None => Exn.ret found_url
  end.

(** [\[.*?\]] *)
Definition bracket_tag_re : Re.pattern :=
  [ Re.Chr (Re.lit "["); Re.lazy_star Re.dot; Re.Chr (Re.lit "]") ].

Definition target_tags : list str :=
  [ "[hero image]" : str; "[image]" : str; "[promo" : str ].

(** The body of the loop over the paragraphs. *)
Definition inspect_paragraph (rels : Dict.t relationship) (p : paragraph)
  : Exn.M unit :=
  t <- Exn.lift (para_text p) ;;
  let para_text := Py.strip t in
  xml <- Exn.lift (para_xml p) ;;
  found_url <-
    (if Py.isin "w:hyperlink" xml then
       items <- Exn.lift (para_hyperlinks p) ;;
       Exn.for_each items
         (fun found item =>
            Exn.try_except (inspect_hyperlink rels found item) (Exn.ret found))
         None
     else Exn.ret None) ;;
  match (if truthy_opt found_url then found_url else None) with
  | Some u =>
      Exn.for_each target_tags
        (fun _ tag =>
           if Py.isin tag (Py.lower para_text) then
             let clean_val := Py.strip (Re.sub false bracket_tag_re [] para_text) in
             if Py.truthy clean_val
             then Exn.store clean_val u ;;; Exn.store (Py.replace " " "" clean_val) u
             else Exn.ret tt
           else Exn.ret tt)
        tt
  | None => Exn.ret tt
  end.

(** The guarded region of [extract_hyperlinks_from_docx]. *)
Definition extract_guarded (f : file_obj) : Exn.M unit :=
  Exn.lift (seek f) ;;;
  doc <- Exn.lift (Document f) ;;
  Exn.for_each (paragraphs doc) (fun _ p => inspect_paragraph (rels doc) p) tt.

Definition extract_hyperlinks_from_docx (f : file_obj) : outcome (Dict.t str) :=
  let '(_, hyperlinks_map) :=
    Exn.try_except (extract_guarded f) (Exn.ret tt) [] in
  match seek f with
  | Ok _ => Ok hyperlinks_map
  | Raised => Raised
  end.

(** ** Image download

    The request and the image library are outside the program: a request
    is a function from the url and the user agent to what [requests.get]
    gives, a response or an exception, and a response carries what
    decoding and re-encoding its content gives. *)

Definition bytes := list Byte.byte.

(** What the body of the [try] can raise. *)
Inductive raised : Type :=
| UnidentifiedImageError
| OtherException (message : str).

Inductive attempt (A : Type) : Type :=
| Returns (a : A)
| Raises (e : raised).
Arguments Returns {A} a.
Arguments Raises {A} e.

Record response := MkResponse {
  status_code : nat;
  content_type_header : str;   (* response.headers.get('Content-Type', '') *)
  to_webp : attempt bytes      (* Image.open, img.save as WEBP, getvalue *)
}.

(** [requests.get(url, headers={'User-Agent': agent}, timeout=20)] *)
Definition web := str -> str -> attempt response.

(** The value [download_and_convert_image] returns: the image bytes, or a
    string that says why there is none. *)
Inductive fetched : Type :=
| ImageBytes (b : bytes)
| Message (m : str).

(** [str(n)] for a natural number. *)
Definition str_of_nat (n : nat) : str :=
  list_ascii_of_string (NilZero.string_of_uint (Nat.to_uint n)).

(** The class [[a-zA-Z0-9-_]] *)
Definition drive_id_char (c : ascii) : bool :=
  Py.between 97 122 c || Py.between 65 90 c || Py.between 48 57 c
  || Py.ceq c "-" || Py.ceq c "_".

(** [/d/([a-zA-Z0-9-_]+)] *)
Definition drive_id_re : Re.pattern :=
  Re.word false "/d/" ++ [ Re.GOpen 1; Re.plus drive_id_char; Re.GClose 1 ].

Definition user_agents : list str :=
  [ "Mozilla/5.0 (Windows NT 10.0; Win64; x64) AppleWebKit/537.36 (KHTML, like Gecko) Chrome/91.0.4472.124 Safari/537.36" : str;
    "Mozilla/5.0 (Macintosh; Intel Mac OS X 10_15_7) AppleWebKit/537.36 (KHTML, like Gecko) Chrome/92.0.4515.107 Safari/537.36" : str ].

(** The loop over [enumerate(user_agents)], from index [i] on. *)
Fixpoint try_agents (get : web) (url : str) (i : nat) (agents : list str)
  : fetched :=
  match agents with
  | [] => Message "Failed (Unknown)"
  | agent :: rest =>
      let on_exception (e : raised) :=
        match e with
        | UnidentifiedImageError => Message "Failed (Not an image file)"
        | OtherException message =>
            if i =? List.length user_agents - 1 then Message message
            else try_agents get url (S i) rest
        end in
      match get url agent with
      | Returns response =>
          if (status_code response =? 403) && (i <? List.length user_agents - 1)
          then try_agents get url (S i) rest
          else if negb (status_code response =? 200)
          then Message ("Failed (HTTP " ++ str_of_nat (status_code response) ++ ")")
          else
            let ct := Py.lower (content_type_header response) in
            if Py.isin "text/html" ct
            then Message "Skipped (Target is a Webpage, not Image)"
            else match to_webp response with
                 | Returns b => ImageBytes b
                 | Raises e => on_exception e
                 end
      | Raises e => on_exception e
      end
  end.

(** The url the requests go to, or the reason why none is made. *)
Definition request_url (url : str) : str + str :=
  match Re.search false bare_url_re url with
  | None => inr ("Skipped (Invalid URL format: " ++ url ++ ")")
  | Some clean_match =>
      let url := Re.group 1 (Re.m_groups clean_match) in
      if Py.isin "youtube.com" url || Py.isin "youtu.be" url
      then inr ("Skipped (Video Link)" : str)
      else if Py.isin "drive.google.com" url && Py.isin "/view" url then
        match Re.search false drive_id_re url with
        | Some file_id_match =>
            inl ("https://drive.google.com/uc?export=download&id="
                 ++ Re.group 1 (Re.m_groups file_id_match))
        | None => inl url
        end
      else inl url
  end.

Definition download_and_convert_image (get : web) (url : str) : fetched :=
  match request_url url with
  | inr reason => Message reason
  | inl url => try_agents get url 0 user_agents
  end.

(** ** Service cards *)

Record card_data := MkCardData {
  cd_title : str;
  cd_permalink : str;
  cd_image_position : str
}.

Record services_obj := MkServices {
  sv_heading : str;
  sv_sub_heading : str;
  sv_variant : str;
  sv_cards_data : list card_data
}.

(** The object that [generate_services_yaml] hands to [yaml.dump] under
    the key [services], or [None] where it returns the empty string. *)
Definition generate_services_yaml (box : option service_box_data)
  : option services_obj :=
  match box with
  | None => None
  | Some b =>
      Some (MkServices (heading b) (sub_heading b) "image"
              (map (fun c => MkCardData (card_title c)
                                        ("/services/" ++ card_slug c ++ "/")
                                        "[center_10%]")
                   (cards b)))
  end.

(** ** The bundle (the main block, without the display)

    The ZIP file is the list of the entries written to it, in order. *)

Inductive zip_content : Type :=
| PostFile (final_md : str)
| ReviewsFile (reviews : list review)
| ServicesFile (services : option services_obj)
| WebpFile (b : bytes).

Record bundle := MkBundle {
  zip_entries : list (str * zip_content);
  valid_cnt : nat;
  bundle_queue : list image_task
}.

(** One turn of the loop over [raw_sections.items()].  [None] stands for
    the AttributeError of [content.strip()] where the value of the section
    is a list: [should_skip_page] looks at the title first. *)
Definition convert_section (hyperlink_map : Dict.t str) (b : bundle)
           (entry : str * section_value) : option bundle :=
  let (page_name, value) := entry in
  if Py.eqb page_name "Navigation" || Py.eqb page_name "00_Ignore" then Some b
  else
    match value with
    | NavLines _ =>
        if existsb (fun keyword => Py.isin keyword (Py.strip (Py.lower page_name)))
                   EXCLUDED_KEYWORDS
        then Some b else None
    | Text content =>
        if should_skip_page page_name content then Some b
        else if Py.isin "customer reviews" (Py.lower page_name) then
          Some (MkBundle (zip_entries b
                          ++ [("_data/reviews.yml" : str,
                               ReviewsFile (generate_reviews_yaml content))])
                         (valid_cnt b) (bundle_queue b))
        else
          let '(final_md, service_box_data, queue) :=
            parse_page_content content page_name (bundle_queue b) hyperlink_map in
          let entries :=
            match service_box_data with
            | Some _ =>
                zip_entries b
                ++ [("_data/services.yml" : str,
                     ServicesFile (generate_services_yaml service_box_data))]
            | None => zip_entries b
            end in
          let slug :=
            to_kebab_case (Py.strip (Py.replace " page" "" (Py.lower page_name))) in
          let fname := FIXED_DATE ++ "-" ++ slug ++ ".md" in
          Some (MkBundle (entries ++ [("_posts/" ++ fname, PostFile final_md)])
                         (S (valid_cnt b)) queue)
    end.

(** The loop over the sections. *)
Fixpoint convert_sections (hyperlink_map : Dict.t str) (b : bundle)
         (raw_sections : Dict.t section_value) : option bundle :=
  match raw_sections with
  | [] => Some b
  | entry :: rest =>
      match convert_section hyperlink_map b entry with
      | Some b' => convert_sections hyperlink_map b' rest
      | None => None
      end
  end.

(** One turn of the loop over the image queue. *)
Definition convert_image (get : web) (entries : list (str * zip_content))
           (img_data : image_task) : list (str * zip_content) :=
  match download_and_convert_image get (url img_data) with
  | ImageBytes res => entries ++ [("img/" ++ filename img_data ++ ".webp", WebpFile res)]
  | Message _ => entries
  end.

(** The entries of the ZIP file for the sections and the hyperlink
    table that [process_docx] returned. *)
Definition convert (get : web) (raw_sections : Dict.t section_value)
           (hyperlink_map : Dict.t str) : option bundle :=
  match convert_sections hyperlink_map (MkBundle [] 0 []) raw_sections with
  | Some b =>
      Some (MkBundle (fold_left (convert_image get) (bundle_queue b) (zip_entries b))
                     (valid_cnt b) (bundle_queue b))
  | None => None
  end.

(** * Properties

    The rest of the file states and proves the properties of the
    pipeline.  It starts with the vocabulary the statements use. *)

Unset Implicit Arguments.

(** ** Vocabulary *)

(** The length of the leading run of characters of a class. *)
Fixpoint runlen (p : ascii -> bool) (s : str) : nat :=
  match s with
  | c :: s' => if p c then S (runlen p s') else 0
  | [] => 0
  end.

(** The character before the current position once [consumed] has been
    passed over. *)
Definition prev_after (prev : option ascii) (consumed : str) : option ascii :=
  match Py.last_opt consumed with
  | Some c => Some c
  | None => prev
  end.

(** [re.sub(r'[class]+', r, s)] *)
Definition collapse (p : ascii -> bool) (r : str) (s : str) : str :=
  Re.sub false [Re.plus p] [inl r] s.

(** The 256 characters, in order. *)
Definition all_chars : list ascii := map ascii_of_nat (seq 0 256).

(** A character of a slug: a word character or a hyphen, in lower case. *)
Definition slug_char (c : ascii) : bool :=
  (Py.is_word c || Py.ceq c "-") && Py.ceq (Py.lower_char c) c.

(** The characters [s.strip('-_')] removes. *)
Definition slug_edge (c : ascii) : bool := existsb (Py.ceq c) ("-_" : str).

(** The string holds a letter or a digit. *)
Definition has_alnum (s : str) : bool := existsb Py.is_alnum s.

(** The empty string. *)
Definition blank (s : str) : bool := negb (Py.truthy s).

(** No two consecutive elements are empty strings. *)
Fixpoint no_double_blank (l : list str) : bool :=
  match l with
  | a :: (b :: _) as rest => negb (blank a && blank b) && no_double_blank rest
  | _ => true
  end.

(** What one line does to [body_lines]. *)
Inductive body_change (l : list str) : list str -> Prop :=
| body_same : body_change l l
| body_blank : ends_nonblank l = true -> body_change l (l ++ [[]])
| body_text_added (cleaned : str) :
    Py.truthy cleaned = true -> body_change l (append_body l cleaned).

(** What a line of the navigation section is to the loop. *)
Inductive nav_kind : Type :=
| NavSkip
| NavChild (text : str)
| NavParent (text : str).

(** How the loop of [generate_nav_yaml] reads a line. *)
Definition nav_kind_of (line : str) : nav_kind :=
  let stripped := Py.strip line in
  if negb (Py.truthy stripped) || Py.isin "Dev Note" stripped then NavSkip
  else
    let clean_text := clean_nav_text stripped in
    if negb (Py.truthy clean_text) then NavSkip
    else if matches list_pattern stripped then NavChild clean_text
    else NavParent clean_text.

(** The line opens a parent. *)
Definition is_parent_line (line : str) : bool :=
  match nav_kind_of line with NavParent _ => true | _ => false end.

(** [child] was read from a child line that follows a parent line for
    [parent], with no other parent line between the two. *)
Definition attached (lines : list str) (parent child : str) : Prop :=
  exists before lp mid lc after,
    lines = before ++ lp :: mid ++ lc :: after
    /\ nav_kind_of lp = NavParent parent
    /\ nav_kind_of lc = NavChild child
    /\ Forall (fun l => is_parent_line l = false) mid.

(** The loop invariant of [generate_nav_yaml] after the lines [seen]. *)
Definition nav_inv (seen : list str) (st : nav_state) : Prop :=
  (forall p, current_parent st = Some p ->
             exists before lp mid,
               seen = before ++ lp :: mid
               /\ nav_kind_of lp = NavParent p
               /\ Forall (fun l => is_parent_line l = false) mid)
  /\ (forall p cs c, In (p, cs) (nav_structure st) -> In c cs ->
                     attached seen p c).

(** Number of places where [sub] occurs in [s]. *)
Fixpoint occurrences (sub s : str) : nat :=
  (if Py.startswith sub s then 1 else 0)
  + match s with
    | [] => 0
    | _ :: s' => occurrences sub s'
    end.

(** A parent line followed by seventeen child lines. *)
Definition nav_with_17_children : list str :=
  ("Services" : str) :: repeat ("- Drain Cleaning" : str) 17.

(** Modelled from the spec: the children in columns of eight, in order;
    column [i] holds the children [8i] to [8i+7], for [i] below
    ceil(n/8). *)
Definition nav_columns {A} (children : list A) : list (list A) :=
  map (fun i => firstn 8 (skipn (8 * i) children))
      (seq 0 ((List.length children + 7) / 8)).

(** A phone CTA with the given display text. *)
Definition phone_cta (display : str) : cta :=
  MkCta display "tel:{{ site.phone }}" "phone" "button-1" "accent" "false".

(** A contact CTA with the given display text. *)
Definition contact_cta (display : str) : cta :=
  MkCta display "{{ site.contact_page }}" "mark_email_unread" "button-1"
        "primary1" "true".

(** The review text of the specification. *)
Definition great_service : str :=
  "**" ++ [dquote] ++ "Great service!" ++ [dquote] ++ " - Jane D. (Plumbing)**".

(** The placeholder page name is not a key. *)
Definition no_ignore_key (d : Dict.t section_value) : Prop :=
  Dict.mem "00_Ignore" d = false.

(** The five lines of the specification. *)
Definition footer_example : list str :=
  [ "# Footer (All Pages)" : str; "# Home Page" : str; "Some content here" : str;
    "# About Page" : str; "More content" : str ].

(** A table with a key that is part of another. *)
Definition two_heroes : Dict.t str :=
  [ ("Hero" : str, "https://cdn.example/1.png" : str);
    ("Hero banner" : str, "https://cdn.example/2.png" : str) ].

(** Every key of [m] is still a key of [m']. *)
Definition grows (m m' : Dict.t str) : Prop :=
  forall k, Dict.mem k m = true -> Dict.mem k m' = true.

(** The visible text of a hyperlink run. *)
Definition link_text (text_nodes : list (option str)) : str :=
  Py.strip (flat_map (fun t => match t with Some x => x | None => [] end)
                     text_nodes).

(** A hyperlink run whose inspection raises nothing: its relationship id
    is in the table, and its text [txt] is not empty. *)
Definition healthy (rels : Dict.t relationship) (item : hyperlink_elem)
           (txt : str) : Prop :=
  exists r rel url nodes,
    get_rid item = Ok (Some r) /\ Py.truthy r = true
    /\ Dict.get r rels = Some rel /\ target_ref rel = Ok url
    /\ findall_t item = Ok nodes
    /\ txt = link_text nodes /\ Py.truthy txt = true.

(** A paragraph whose own accessors raise nothing. *)
Definition readable (p : paragraph) : Prop :=
  exists t xml items,
    para_text p = Ok t /\ para_xml p = Ok xml /\ para_hyperlinks p = Ok items.

(** The hyperlink runs the loop visits in paragraph [p]. *)
Definition visited (p : paragraph) (item : hyperlink_elem) : Prop :=
  exists xml items,
    para_xml p = Ok xml /\ Py.isin "w:hyperlink" xml = true
    /\ para_hyperlinks p = Ok items /\ In item items.

(** A paragraph whose inspection raises outside the guarded runs: in its
    text, in its xml, or in the search for its hyperlink runs. *)
Definition fails (p : paragraph) : Prop :=
  match para_text p, para_xml p with
  | Raised, _ => True
  | Ok _, Raised => True
  | Ok _, Ok xml => Py.isin "w:hyperlink" xml = true /\ para_hyperlinks p = Raised
  end.

(** A hyperlink run with the text [Home]. *)
Definition home_link : hyperlink_elem :=
  MkElem (Ok (Some ("rId1" : str))) (Ok [Some ("Home" : str)]).

(** A hyperlink run whose relationship id cannot be read. *)
Definition failing_link : hyperlink_elem := MkElem Raised (Ok []).

(** A paragraph with a failing run and a readable one. *)
Definition home_para : paragraph :=
  MkPara (Ok ("Home" : str)) (Ok ("<w:p><w:hyperlink/></w:p>" : str))
         (Ok [failing_link; home_link]).

(** A paragraph whose xml cannot be read. *)
Definition broken_para : paragraph :=
  MkPara (Ok ("Intro" : str)) Raised (Ok []).

(** The relationship table of the example document. *)
Definition home_rels : Dict.t relationship :=
  [ ("rId1" : str, MkRel (Ok ("https://example.com/" : str))) ].

Definition good_caps (P : ascii -> Prop) (caps : list (nat * str)) : Prop :=
  Forall (fun nt => Forall P (snd nt)) caps.

Definition good_opens (P : ascii -> Prop) (opens : list (nat * (nat * str))) : Prop :=
  Forall (fun o => Forall P (snd (snd o))) opens.

Definition nav_wf (st : nav_state) : Prop :=
  (forall p, current_parent st = Some p ->
             Py.truthy p = true /\ Dict.mem p (nav_structure st) = true)
  /\ NoDup (Dict.keys (nav_structure st))
  /\ Forall (fun entry => Py.truthy (fst entry) = true
                          /\ Forall (fun c => Py.truthy c = true) (snd entry))
            (nav_structure st).

Definition review_ok (r : review) : Prop :=
  service_type r = None
  /\ Py.truthy (r_text r) = true
  /\ Py.isin "**" (r_text r) = false
  /\ Py.isin "**" (r_source r) = false
  /\ exists service, r_service r = "(" ++ service ++ ")"
                     /\ Py.isin "**" service = false.

Definition is_tag_line (line : str) : bool :=
  let line_lower := Py.replace "\" "" (Py.lower (Py.strip line)) in
  Py.isin "[hero image]" line_lower || Py.isin "[para_subheader]" line_lower
  || (Py.isin "[promo" line_lower || Py.isin "[hero_promo]" line_lower)
  || Py.isin "[cta" line_lower.

Definition is_help_heading (line : str) : bool :=
  let stripped := Py.strip line in
  Py.isin "how can we help" (Py.replace "\" "" (Py.lower stripped))
  && Py.isin "##" stripped.

Definition has_box (st : page_state) : bool :=
  match service_box st with Some _ => true | None => false end.

Definition head_nonblank (l : list str) : bool :=
  match l with
  | [] => true
  | first :: _ => Py.truthy first
  end.

Definition card_ok (c : card) : Prop :=
  card_slug c = to_kebab_case (card_title c) /\ Py.truthy (card_title c) = true.

Definition cards_ok (st : page_state) : Prop :=
  match service_box st with
  | Some b => Forall card_ok (cards b)
  | None => True
  end.

(** What one line does to the image queue and to the fields of the front
    matter that are set before the loop. *)
Definition queue_step (page_slug : str) (st st' : page_state) : Prop :=
  title (data st') = title (data st)
  /\ hero_image (data st') = hero_image (data st)
  /\ (image_queue st' = image_queue st
      \/ exists u, image_queue st' = image_queue st ++ [MkTask u page_slug]).

Definition box_inv (st : page_state) : Prop :=
  (is_service_box st = true -> has_box st = true) /\ cards_ok st.

Definition help_page : str :=
  "## How can we help?" ++ [nl] ++ "Drain Cleaning" ++ [nl] ++ "Water Heaters".

Definition help_box : service_box_data :=
  MkBox "How can we help?" []
        [ MkCard "Drain Cleaning" "drain-cleaning";
          MkCard "Water Heaters" "water-heaters" ].

Definition no_keyword (s : str) : bool :=
  negb (existsb (fun exc => Py.isin exc s) EXCLUDED_KEYWORDS).

Definition page_name_ok (k : str) : Prop :=
  Forall (fun c => c <> "#"%char /\ c <> "["%char) k
  /\ List.length k < 80
  /\ Py.strip k = k
  /\ (Py.isin "customer reviews" (Py.lower k) = true
      \/ no_keyword (Py.lower k) = true).

Definition section_ok (kv : str * section_value) : Prop :=
  match snd kv with
  | NavLines _ => fst kv = ("Navigation" : str)
  | Text _ => page_name_ok (fst kv)
  end.

Definition is_nav_marker (line : str) : bool :=
  Py.isin "Navigation (All Pages)" (clean_nav_text (Py.strip line)).

Definition is_nav_end (line : str) : bool :=
  let stripped := Py.strip line in
  Py.startswith "# " stripped
  || (Py.startswith "## " stripped
      && negb (Py.isin "Navigation" (clean_nav_text stripped))).

Definition is_footer (line : str) : bool :=
  Py.isin "Footer (All Pages)" (Py.strip line).

Definition seg_inv (st : segment_state) : Prop :=
  Forall section_ok (sections st)
  /\ (current_page st = ("00_Ignore" : str) \/ page_name_ok (current_page st)).

(** What the first loop leaves in the section map: nothing, or the
    navigation lines. *)
Definition cap_inv (st : nav_capture) : Prop :=
  cap_sections st = []
  \/ exists l, cap_sections st = [("Navigation" : str, NavLines l)].

Definition nav_example : list str :=
  [ "Intro" : str; "## Navigation (All Pages)" : str; "Services" : str;
    "  - Drain Cleaning" : str; "# Footer (All Pages)" : str; "# Home Page" : str ].

(** [c] keeps the invariant [I] of the table, also when it raises, and
    returns only values that satisfy [Q]. *)
Definition hoare {A} (Inv : Dict.t str -> Prop) (c : Exn.M A) (Q : A -> Prop) : Prop :=
  forall m, Inv m ->
            Inv (snd (c m))
            /\ match fst (c m) with Ok a => Q a | Raised => True end.

Definition visible (k : str) : bool := existsb (Re.neg Py.is_space) k.

Definition from_rels (rels : Dict.t relationship) (u : str) : Prop :=
  exists r rel, Dict.get r rels = Some rel /\ target_ref rel = Ok u.

Definition table_ok (rels : Dict.t relationship) (m : Dict.t str) : Prop :=
  Forall (fun kv => visible (fst kv) = true /\ from_rels rels (snd kv)) m
  /\ forall k, Dict.mem k m = true -> Dict.mem (Py.replace " " "" k) m = true.

Definition found_ok (rels : Dict.t relationship) (found : option str) : Prop :=
  match found with Some u => from_rels rels u | None => True end.

Definition home_file : file_obj :=
  MkFile (Ok tt) (Ok (MkDoc home_rels [home_para])).

Definition within (hi : option nat) (n : nat) : Prop :=
  match hi with Some h => n <= h | None => True end.

Inductive reads (ml : bool) :
  Re.pattern -> nat -> str -> list (nat * (nat * str)) -> list (nat * str)
  -> Re.rmatch -> Prop :=
| reads_nil pos s opens caps : reads ml [] pos s opens caps (Re.MkMatch pos caps)
| reads_chr p pat c s pos opens caps m :
    p c = true -> reads ml pat (S pos) s opens caps m ->
    reads ml (Re.Chr p :: pat) pos (c :: s) opens caps m
| reads_rep greedy lo hi p pat a s pos opens caps m :
    forallb p a = true -> lo <= List.length a -> within hi (List.length a) ->
    reads ml pat (pos + List.length a) s opens caps m ->
    reads ml (Re.Rep greedy lo hi p :: pat) pos (a ++ s) opens caps m
| reads_open n pat pos s opens caps m :
    reads ml pat pos s ((n, (pos, s)) :: opens) caps m ->
    reads ml (Re.GOpen n :: pat) pos s opens caps m
| reads_close n pat pos s k pos0 s0 opens caps m :
    reads ml pat pos s opens ((n, firstn (pos - pos0) s0) :: caps) m ->
    reads ml (Re.GClose n :: pat) pos s ((k, (pos0, s0)) :: opens) caps m
| reads_bol pat pos s opens caps m :
    reads ml pat pos s opens caps m -> reads ml (Re.Bol :: pat) pos s opens caps m
| reads_eol pat pos s opens caps m :
    Re.at_eol ml s = true ->
    reads ml pat pos s opens caps m -> reads ml (Re.Eol :: pat) pos s opens caps m.

(** The class [[^\s<>Q)\]]] of the url pattern, where [Q] is the double
    quote. *)
Definition url_char : ascii -> bool :=
  Re.neg (Re.orc Py.is_space (Re.orc (Re.oneof "<>)]") (Re.lit dquote))).

Definition clean_url (u : str) : bool :=
  (Py.startswith "http://" u || Py.startswith "https://" u) && forallb url_char u.

Definition unreachable_web : web :=
  fun _ _ => Raises (OtherException "Connection timed out").

(** A web that answers like [unreachable_web] to the two user agents on
    clean urls, and serves an image to every other request. *)
Definition picky_web : web :=
  fun u agent =>
    if clean_url u && existsb (Py.eqb agent) user_agents
    then Raises (OtherException "Connection timed out")
    else Returns (MkResponse 200 "image/png" (Returns [Byte.x52; Byte.x49])).

Definition png_web : web :=
  fun _ _ => Returns (MkResponse 200 "image/png" (Returns [Byte.x52; Byte.x49])).

Definition is_slug (s : str) : Prop := Forall (fun c => slug_char c = true) s.

Definition entry_ok (e : str * zip_content) : Prop :=
  match snd e with
  | PostFile _ =>
      exists slug, fst e = "_posts/2001-01-01-" ++ slug ++ ".md" /\ is_slug slug
  | ReviewsFile _ => fst e = ("_data/reviews.yml" : str)
  | ServicesFile services =>
      fst e = ("_data/services.yml" : str) /\ services <> None
  | WebpFile _ =>
      exists slug, fst e = "img/" ++ slug ++ ".webp" /\ is_slug slug
  end.

Definition is_post (e : str * zip_content) : bool :=
  match snd e with PostFile _ => true | _ => false end.

Definition bundle_ok (b : bundle) : Prop :=
  Forall entry_ok (zip_entries b)
  /\ Forall (fun t => is_slug (filename t)) (bundle_queue b)
  /\ valid_cnt b = List.length (filter is_post (zip_entries b)).

Definition home_sections : Dict.t section_value :=
  [ ("Navigation" : str, NavLines [ "Services" : str ]);
    ("Home Page" : str,
     Text ("[hero image] https://example.com/a.png" ++ [nl]
           ++ "## Welcome" ++ [nl] ++ "We fix drains.")) ].

(** The test that makes a line after the footer open a new page. *)
Definition opens_page (target_pages : list str) (line : str) : bool :=
  let stripped := Py.strip line in
  let clean := clean_nav_text stripped in
  let is_reviews := Py.isin "customer reviews" (Py.lower clean) in
  (Py.startswith "# " stripped || Py.endswith "page" (Py.lower clean)
   || existsb (Py.eqb (Py.lower clean)) target_pages || is_reviews)
  && (List.length clean <? 80) && negb (Py.isin "[" stripped)
  && negb (if is_reviews then false
           else existsb (fun exc => Py.isin exc (Py.lower clean)) EXCLUDED_KEYWORDS).

Definition home_lines : list str :=
  [ "Intro" : str; "# Footer (All Pages)" : str; "# Home Page" : str;
    "  Some content here" : str; "" : str; "More" : str ].

(** A class that does not tell a letter from its lower case. *)
Definition caseless (p : ascii -> bool) : Prop :=
  forall c, p (Py.lower_char c) = p c.

Definition caseless_item (it : Re.item) : Prop :=
  match it with
  | Re.Chr p | Re.Rep _ _ _ p => caseless p
  | _ => True
  end.

Definition lower_caps (caps : list (nat * str)) : list (nat * str) :=
  map (fun nt => (fst nt, Py.lower (snd nt))) caps.

Definition lower_opens (opens : list (nat * (nat * str)))
  : list (nat * (nat * str)) :=
  map (fun o => (fst o, (fst (snd o), Py.lower (snd (snd o))))) opens.

Definition lower_match (m : Re.rmatch) : Re.rmatch :=
  Re.MkMatch (Re.m_end m) (lower_caps (Re.m_groups m)).

(** Every [ page] of the name, in whatever letter case, is written
    [ Page]. *)
Fixpoint page_word_exact (s : str) : bool :=
  Bool.eqb (Py.startswith " page" (Py.lower s)) (Py.startswith " Page" s)
  && match s with
     | [] => true
     | _ :: s' => page_word_exact s'
     end.

(** Two lines that may stand next to each other in the body: one of them
    is empty, or both are items of a list. *)
Definition apart (a b : str) : bool :=
  blank a || blank b || (is_list_line a && is_list_line b).

Fixpoint separated (l : list str) : bool :=
  match l with
  | a :: (b :: _) as rest => apart a b && separated rest
  | _ => true
  end.

Definition hash : ascii -> bool := Re.lit "#".

(** The class [[^#\s]] *)
Definition heading_text : ascii -> bool := Re.neg (Re.orc (Re.lit "#") Py.is_space).

(** A line is a well-formed heading, or no heading at all: if it starts
    with '#', its '#'s are followed by white space or by nothing. *)
Definition heading_ok (r : str) : bool :=
  negb (Py.startswith "#" r)
  || match Py.dropwhile hash r with
     | [] => true
     | c :: _ => Py.is_space c
     end.

(** ** Facts about the string primitives *)

Lemma ceq_eq (a b : ascii) : Py.ceq a b = true <-> a = b.
Proof. apply Ascii.eqb_eq. Qed.

Lemma ceq_refl (a : ascii) : Py.ceq a a = true.
Proof. apply ceq_eq; reflexivity. Qed.

Lemma eqb_eq (a b : str) : Py.eqb a b = true <-> a = b.
Proof.
  revert b; induction a as [|x a IH]; intros [|y b]; simpl; split; intro H;
    try reflexivity; try discriminate.
  - apply andb_true_iff in H as [H1 H2].
    apply ceq_eq in H1; apply IH in H2; congruence.
  - injection H as -> ->. rewrite ceq_refl; simpl. apply IH; reflexivity.
Qed.

Lemma eqb_refl (a : str) : Py.eqb a a = true.
Proof. apply eqb_eq; reflexivity. Qed.

Lemma eqb_neq (a b : str) : Py.eqb a b = false <-> a <> b.
Proof.
  split; intro H.
  - intro E; apply eqb_eq in E; congruence.
  - destruct (Py.eqb a b) eqn:E; [apply eqb_eq in E; contradiction | reflexivity].
Qed.

Lemma startswith_app (p s : str) : Py.startswith p (p ++ s) = true.
Proof. induction p as [|x p IH]; simpl; [reflexivity | now rewrite ceq_refl]. Qed.

Lemma startswith_inv (p s : str) :
  Py.startswith p s = true -> exists t, s = p ++ t.
Proof.
  revert s; induction p as [|x p IH]; intros s H; simpl in *.
  - now exists s.
  - destruct s as [|y s]; [discriminate|].
    apply andb_true_iff in H as [H1 H2]. apply ceq_eq in H1; subst y.
    destruct (IH _ H2) as [t ->]. now exists t.
Qed.

Lemma dropwhile_none (p : ascii -> bool) (s : str) :
  Forall (fun c => p c = false) s -> Py.dropwhile p s = s.
Proof. intros [|c s' Hc _]; simpl; [reflexivity | now rewrite Hc]. Qed.

Lemma dropwhile_ext (p q : ascii -> bool) (s : str) :
  Forall (fun c => p c = q c) s -> Py.dropwhile p s = Py.dropwhile q s.
Proof.
  induction 1 as [|c s Hc _ IH]; simpl; [reflexivity|].
  rewrite Hc, IH; reflexivity.
Qed.

Lemma dropwhile_suffix (p : ascii -> bool) (s : str) :
  exists pre, s = pre ++ Py.dropwhile p s /\ Forall (fun c => p c = true) pre.
Proof.
  induction s as [|c s [pre [E F]]]; simpl.
  - exists []; split; [reflexivity | constructor].
  - destruct (p c) eqn:Hc.
    + exists (c :: pre); split; [simpl; congruence | now constructor].
    + exists []; split; [reflexivity | constructor].
Qed.

Lemma Forall_dropwhile (P : ascii -> Prop) (p : ascii -> bool) (s : str) :
  Forall P s -> Forall P (Py.dropwhile p s).
Proof.
  intro H. destruct (dropwhile_suffix p s) as [pre [E _]].
  rewrite E in H. now apply Forall_app in H.
Qed.

Lemma Forall_strip_by (P : ascii -> Prop) (p : ascii -> bool) (s : str) :
  Forall P s -> Forall P (Py.strip_by p s).
Proof.
  intro H. unfold Py.strip_by, Py.rstrip_by, Py.lstrip_by.
  apply Forall_rev, Forall_dropwhile, Forall_rev, Forall_dropwhile, H.
Qed.

Lemma strip_by_none (p : ascii -> bool) (s : str) :
  Forall (fun c => p c = false) s -> Py.strip_by p s = s.
Proof.
  intro H. unfold Py.strip_by, Py.rstrip_by, Py.lstrip_by.
  rewrite (dropwhile_none _ _ H), dropwhile_none, rev_involutive; [reflexivity|].
  now apply Forall_rev.
Qed.

Lemma strip_by_ext (p q : ascii -> bool) (s : str) :
  Forall (fun c => p c = q c) s -> Py.strip_by p s = Py.strip_by q s.
Proof.
  intro H. unfold Py.strip_by, Py.rstrip_by, Py.lstrip_by.
  rewrite (dropwhile_ext _ _ _ H). f_equal. apply dropwhile_ext.
  apply Forall_rev, Forall_dropwhile, H.
Qed.

(** A character that the stripped class excludes survives [strip_by]. *)
Lemma existsb_dropwhile (P p : ascii -> bool) (s : str) :
  (forall c, P c = true -> p c = false) ->
  existsb P (Py.dropwhile p s) = existsb P s.
Proof.
  intro H. induction s as [|c s IH]; simpl; [reflexivity|].
  destruct (p c) eqn:Hc; [|reflexivity].
  rewrite IH. destruct (P c) eqn:HP; [|reflexivity].
  apply H in HP; congruence.
Qed.

Lemma existsb_rev (P : ascii -> bool) (s : str) : existsb P (rev s) = existsb P s.
Proof.
  induction s as [|c s IH]; simpl; [reflexivity|].
  rewrite existsb_app, IH; simpl. rewrite orb_false_r. apply orb_comm.
Qed.

Lemma existsb_strip_by (P p : ascii -> bool) (s : str) :
  (forall c, P c = true -> p c = false) ->
  existsb P (Py.strip_by p s) = existsb P s.
Proof.
  intro H. unfold Py.strip_by, Py.rstrip_by, Py.lstrip_by.
  now rewrite existsb_rev, existsb_dropwhile, existsb_rev, existsb_dropwhile.
Qed.

Lemma truthy_existsb (P : ascii -> bool) (s : str) :
  existsb P s = true -> Py.truthy s = true.
Proof. destruct s; [discriminate | reflexivity]. Qed.

Lemma truthy_nonempty (s : str) : Py.truthy s = true <-> s <> [].
Proof. destruct s; simpl; split; congruence. Qed.

(** [replace] leaves a string unchanged when the first character of [old]
    does not occur in it. *)
Lemma replace_absent (c0 : ascii) (old new s : str) :
  Forall (fun c => Py.ceq c0 c = false) s -> Py.replace (c0 :: old) new s = s.
Proof.
  unfold Py.replace. induction 1 as [|c s Hc _ IH]; simpl; [reflexivity|].
  rewrite Hc; simpl. now rewrite IH.
Qed.

(** Characters that are not in [old] and are outside the part being
    passed over survive [replace]. *)
Lemma existsb_replace_from (P : ascii -> bool) (o : ascii) (old new : str) :
  Forall (fun c => P c = false) (o :: old) ->
  forall (s : str) (k : nat),
    Forall (fun c => P c = false) (firstn k s) ->
    existsb P s = true -> existsb P (Py.replace_from (o :: old) new k s) = true.
Proof.
  intros Hold. induction s as [|c s IH]; intros k Hf Hs; [discriminate|].
  destruct k as [|k].
  - cbn [Py.replace_from].
    destruct (Py.startswith (o :: old) (c :: s)) eqn:Hst.
    + rewrite existsb_app. apply orb_true_iff; right.
      destruct (startswith_inv _ _ Hst) as [t Et].
      injection Et as -> ->. inversion Hold as [|? ? Ho Hold']; subst.
      simpl in Hs. rewrite Ho in Hs; simpl in Hs.
      apply IH; [| exact Hs].
      simpl. rewrite firstn_app, Nat.sub_diag, firstn_all; simpl.
      now rewrite app_nil_r.
    + simpl in *. apply orb_true_iff in Hs as [Hc|Hs]; [now rewrite Hc|].
      rewrite (IH 0); [apply orb_true_r | constructor | exact Hs].
  - simpl in *. inversion Hf as [|? ? Hc Hf']; subst. rewrite Hc in Hs; simpl in Hs.
    apply IH; [exact Hf' | exact Hs].
Qed.

Lemma existsb_replace (P : ascii -> bool) (o : ascii) (old new s : str) :
  Forall (fun c => P c = false) (o :: old) ->
  existsb P s = true -> existsb P (Py.replace (o :: old) new s) = true.
Proof.
  intros Hold Hs. unfold Py.replace.
  apply existsb_replace_from; [exact Hold | constructor | exact Hs].
Qed.

(** [replace] with a non-empty replacement keeps a string non-empty. *)
Lemma replace_truthy (o : ascii) (old new s : str) :
  Py.truthy new = true -> Py.truthy s = true ->
  Py.truthy (Py.replace (o :: old) new s) = true.
Proof.
  intros Hn Hs. unfold Py.replace. destruct s as [|c s]; [discriminate|].
  cbn [Py.replace_from]. destruct (Py.startswith _ _); [|reflexivity].
  destruct new; [discriminate | reflexivity].
Qed.

Lemma Forall_lower (P : ascii -> Prop) (s : str) :
  Forall (fun c => P (Py.lower_char c)) s -> Forall P (Py.lower s).
Proof. intro H. unfold Py.lower. now apply Forall_map. Qed.

Lemma existsb_lower (P : ascii -> bool) (s : str) :
  (forall c, P (Py.lower_char c) = P c) -> existsb P (Py.lower s) = existsb P s.
Proof.
  intro H. unfold Py.lower. induction s as [|c s IH]; simpl; [reflexivity|].
  now rewrite H, IH.
Qed.

Lemma lower_fixed (s : str) :
  Forall (fun c => Py.lower_char c = c) s -> Py.lower s = s.
Proof.
  unfold Py.lower. induction 1 as [|c s Hc _ IH]; simpl; [reflexivity|].
  now rewrite Hc, IH.
Qed.

(** ** Facts about the matcher *)

Lemma skipn_runlen (p : ascii -> bool) (s : str) :
  skipn (runlen p s) s = Py.dropwhile p s.
Proof.
  induction s as [|c s IH]; simpl; [reflexivity|].
  destruct (p c); simpl; [exact IH | reflexivity].
Qed.

Lemma runlen_le (p : ascii -> bool) (s : str) : runlen p s <= List.length s.
Proof. induction s as [|c s IH]; simpl; [lia|]. destruct (p c); simpl; lia. Qed.

Lemma dropwhile_length (p : ascii -> bool) (s : str) :
  List.length (Py.dropwhile p s) <= List.length s.
Proof. rewrite <- skipn_runlen, length_skipn. lia. Qed.

Lemma prev_after_cons (prev : option ascii) (c : ascii) (l : str) :
  prev_after prev (c :: l) = prev_after (Some c) l.
Proof.
  unfold prev_after. revert c. induction l as [|d l IH]; intro c; [reflexivity|].
  change (Py.last_opt (c :: d :: l)) with (Py.last_opt (d :: l)).
  destruct (Py.last_opt (d :: l)) eqn:E; [reflexivity|].
  specialize (IH d). rewrite E in IH.
  destruct l; [discriminate E|]. 
  change (Py.last_opt (d :: a :: l)) with (Py.last_opt (a :: l)) in E.
  clear IH. exfalso. revert a E. induction l as [|b l IHl]; intros a E; [discriminate|].
  apply (IHl b). exact E.
Qed.

(** Passing over [k] characters, then going on at the next one. *)
Lemma sub_from_skip (ml : bool) (pat : Re.pattern) (repl : Re.template) :
  forall (k : nat) (s : str) (prev : option ascii),
    k <= List.length s ->
    Re.sub_from ml pat repl prev k s
    = Re.sub_from ml pat repl (prev_after prev (firstn k s)) 0 (skipn k s).
Proof.
  induction k as [|k IH]; intros s prev Hk.
  - reflexivity.
  - destruct s as [|c s]; [simpl in Hk; lia|].
    cbn [firstn skipn]. rewrite prev_after_cons.
    rewrite <- IH by (simpl in Hk; lia). reflexivity.
Qed.

(** The unfolding of [sub_from] at a position where an attempt is made. *)
Lemma sub_from_here (ml : bool) (pat : Re.pattern) (repl : Re.template)
      (prev : option ascii) (s : str) :
  Re.sub_from ml pat repl prev 0 s =
  match Re.here ml pat prev s with
  | Some m =>
      Re.expand repl m ++
      match s with
      | [] => []
      | c :: s' =>
          match Re.m_end m with
          | O => c :: Re.sub_from ml pat repl (Some c) 0 s'
          | S k => Re.sub_from ml pat repl (Some c) k s'
          end
      end
  | None =>
      match s with
      | [] => []
      | c :: s' => c :: Re.sub_from ml pat repl (Some c) 0 s'
      end
  end.
Proof. destruct s; reflexivity. Qed.

(** A pattern that starts with a character finds nothing in a string
    without that character. *)
Lemma sub_absent (ml : bool) (p : ascii -> bool) (pat : Re.pattern)
      (repl : Re.template) (s : str) :
  Forall (fun c => p c = false) s ->
  forall prev, Re.sub_from ml (Re.Chr p :: pat) repl prev 0 s = s.
Proof.
  induction 1 as [|c s Hc _ IH]; intro prev; rewrite sub_from_here.
  - reflexivity.
  - unfold Re.here; simpl. rewrite Hc. now rewrite IH.
Qed.

(** [re.sub] of a one-character class by nothing is a filter. *)
Lemma sub_chr (p : ascii -> bool) (s : str) :
  forall prev, Re.sub_from false [Re.Chr p] [] prev 0 s = filter (Re.neg p) s.
Proof.
  induction s as [|c s IH]; intro prev; rewrite sub_from_here.
  - reflexivity.
  - unfold Re.here, Re.neg; simpl. destruct (p c); simpl; now rewrite IH.
Qed.

(** A greedy repetition followed by nothing takes the whole run. *)
Lemma greedy_run (p : ascii -> bool) (caps : list (nat * str)) :
  forall (s : str) (lo : nat) (prev : option ascii) (pos : nat),
    Re.rep_greedy p (fun _ pos' _ => Some (Re.MkMatch pos' caps)) lo None prev pos s
    = if lo <=? runlen p s then Some (Re.MkMatch (pos + runlen p s) caps) else None.
Proof.
  induction s as [|c s IH]; intros lo prev pos; simpl.
  - destruct lo; simpl; [now rewrite Nat.add_0_r | reflexivity].
  - destruct (p c) eqn:Hc; simpl.
    + rewrite IH. destruct lo as [|lo]; simpl.
      * now rewrite Nat.add_succ_r.
      * destruct (lo <=? runlen p s); [now rewrite Nat.add_succ_r | reflexivity].
    + destruct lo; simpl; [now rewrite Nat.add_0_r | reflexivity].
Qed.

Lemma here_plus (p : ascii -> bool) (prev : option ascii) (s : str) :
  Re.here false [Re.plus p] prev s
  = match runlen p s with
    | O => None
    | S n => Some (Re.MkMatch (S n) [])
    end.
Proof.
  unfold Re.here, Re.plus; cbn [Re.run]. rewrite greedy_run.
  destruct (runlen p s); reflexivity.
Qed.

Lemma here_bol_plus (p : ascii -> bool) (prev : option ascii) (s : str) :
  Re.here false [Re.Bol; Re.plus p] prev s
  = match prev with
    | Some _ => None
    | None => match runlen p s with
              | O => None
              | S n => Some (Re.MkMatch (S n) [])
              end
    end.
Proof.
  unfold Re.here, Re.plus; cbn [Re.run]. destruct prev; simpl; [reflexivity|].
  rewrite greedy_run. destruct (runlen p s); reflexivity.
Qed.

(** Past the start of the subject a pattern anchored by [^] finds
    nothing. *)
Lemma sub_bol_later (pat : Re.pattern) (repl : Re.template) (s : str) :
  forall c, Re.sub_from false (Re.Bol :: pat) repl (Some c) 0 s = s.
Proof.
  induction s as [|d s IH]; intro c; rewrite sub_from_here; unfold Re.here; simpl.
  - reflexivity.
  - now rewrite IH.
Qed.

(** [re.sub(r'^[class]+', '', s)] drops the leading run of the class. *)
Lemma sub_lead (p : ascii -> bool) (s : str) :
  Re.sub false [Re.Bol; Re.plus p] [] s = Py.dropwhile p s.
Proof.
  unfold Re.sub. rewrite sub_from_here, here_bol_plus.
  destruct s as [|c s]; [reflexivity|]. simpl.
  destruct (p c) eqn:Hc; simpl.
  - rewrite sub_from_skip by apply runlen_le.
    rewrite skipn_runlen.
    destruct (prev_after (Some c) (firstn (runlen p s) s)) eqn:E.
    + apply sub_bol_later.
    + unfold prev_after in E. destruct (Py.last_opt _); discriminate.
  - now rewrite sub_bol_later.
Qed.

Lemma dropwhile_app (p : ascii -> bool) (a b : str) :
  Py.dropwhile p (a ++ b)
  = if forallb p a then Py.dropwhile p b else Py.dropwhile p a ++ b.
Proof.
  induction a as [|c a IH]; simpl; [reflexivity|].
  destruct (p c); simpl; [exact IH | reflexivity].
Qed.

Lemma forallb_rev (p : ascii -> bool) (s : str) : forallb p (rev s) = forallb p s.
Proof.
  induction s as [|c s IH]; simpl; [reflexivity|].
  rewrite forallb_app, IH; simpl. rewrite andb_true_r. apply andb_comm.
Qed.

Lemma rstrip_by_cons (p : ascii -> bool) (c : ascii) (s : str) :
  Py.rstrip_by p (c :: s)
  = if forallb p (c :: s) then [] else c :: Py.rstrip_by p s.
Proof.
  unfold Py.rstrip_by. simpl rev. rewrite dropwhile_app, forallb_rev.
  simpl. destruct (forallb p s) eqn:Hs.
  - destruct (p c); simpl; [reflexivity|].
    replace (Py.dropwhile p (rev s)) with (@nil ascii); [reflexivity|].
    symmetry. rewrite <- forallb_rev in Hs.
    induction (rev s) as [|d l IH]; simpl in *; [reflexivity|].
    apply andb_true_iff in Hs as [Hd Hl]. rewrite Hd. now apply IH.
  - rewrite andb_false_r, rev_app_distr. reflexivity.
Qed.

Section TrailingRun.
Variable p : ascii -> bool.
Hypothesis p_newline : p nl = true.

(** A greedy repetition followed by [$] succeeds only by taking the
    whole rest of the subject. *)
Lemma greedy_eol :
  forall (s : str) (lo : nat) (prev : option ascii) (pos : nat),
    Re.rep_greedy p (fun prev' pos' s' => Re.run false [Re.Eol] prev' pos' s' [] [])
                  lo None prev pos s
    = if (lo <=? List.length s) && forallb p s
      then Some (Re.MkMatch (pos + List.length s) [])
      else None.
Proof.
  induction s as [|c s IH]; intros lo prev pos.
  - simpl. destruct lo; simpl; [now rewrite Nat.add_0_r | reflexivity].
  - cbn [Re.rep_greedy]. destruct (p c) eqn:Hc; cbn [andb Re.more].
    + rewrite IH. cbn [forallb List.length]. rewrite Hc. cbn [andb].
      destruct lo as [|lo]; cbn [pred Nat.leb Nat.eqb].
      * destruct (forallb p s) eqn:Hs; cbn [andb].
        -- now rewrite Nat.add_succ_r.
        -- cbn [Re.run Re.at_eol]. 
           destruct s as [|d s]; [discriminate Hs|].
           now rewrite andb_false_r.
      * destruct ((lo <=? List.length s) && forallb p s);
          [now rewrite Nat.add_succ_r | reflexivity].
    + cbn [forallb]. rewrite Hc. rewrite andb_false_r.
      destruct lo; cbn [Nat.eqb]; [|reflexivity].
      cbn [Re.run Re.at_eol].
      destruct (Py.ceq c nl) eqn:E.
      * apply ceq_eq in E; subst c. congruence.
      * unfold nl in E. now rewrite E.
Qed.

Lemma here_plus_eol (prev : option ascii) (s : str) :
  Re.here false [Re.plus p; Re.Eol] prev s
  = if (1 <=? List.length s) && forallb p s
    then Some (Re.MkMatch (List.length s) [])
    else None.
Proof. unfold Re.here, Re.plus; cbn [Re.run]. apply greedy_eol. Qed.

(** [re.sub(r'[class]+$', '', s)] drops the trailing run of a class that
    holds the newline. *)
Lemma sub_trail (s : str) :
  Re.sub false [Re.plus p; Re.Eol] [] s = Py.rstrip_by p s.
Proof.
  unfold Re.sub. generalize (@None ascii) as prev.
  induction s as [|c s IH]; intro prev; rewrite sub_from_here, here_plus_eol.
  - reflexivity.
  - rewrite rstrip_by_cons. cbn [List.length Nat.leb andb].
    destruct (forallb p (c :: s)) eqn:Hall.
    + cbn [Re.expand flat_map app Re.m_end].
      rewrite sub_from_skip by lia. rewrite skipn_all.
      rewrite sub_from_here, here_plus_eol. reflexivity.
    + now rewrite IH.
Qed.
End TrailingRun.

Section Collapse.
Variable p : ascii -> bool.
Variable r : str.

Lemma collapse_from (s : str) :
  forall prev, Re.sub_from false [Re.plus p] [inl r] prev 0 s = collapse p r s.
Proof.
  unfold collapse, Re.sub. generalize (@None ascii) as prev0.
  assert (G : forall (s : str) (k : nat) (a b : option ascii),
             Re.sub_from false [Re.plus p] [inl r] a k s
             = Re.sub_from false [Re.plus p] [inl r] b k s).
  { clear s. induction s as [|c s IH]; intros k a b.
    - destruct k; [|reflexivity]. now rewrite !sub_from_here, !here_plus.
    - destruct k as [|k]; [|apply IH].
      rewrite !sub_from_here, !here_plus. reflexivity. }
  intros prev0 prev. apply G.
Qed.

Lemma collapse_nil : collapse p r [] = [].
Proof. reflexivity. Qed.

Lemma collapse_cons (c : ascii) (s : str) :
  collapse p r (c :: s)
  = if p c then r ++ collapse p r (Py.dropwhile p s) else c :: collapse p r s.
Proof.
  unfold collapse at 1, Re.sub. rewrite sub_from_here, here_plus. simpl.
  destruct (p c) eqn:Hc; simpl.
  - rewrite app_nil_r. f_equal.
    rewrite sub_from_skip by apply runlen_le.
    rewrite skipn_runlen. apply collapse_from.
  - f_equal. apply collapse_from.
Qed.

Lemma collapse_ind (P : str -> str -> Prop) :
  P [] [] ->
  (forall c s, p c = true ->
               P (Py.dropwhile p s) (collapse p r (Py.dropwhile p s)) ->
               P (c :: s) (r ++ collapse p r (Py.dropwhile p s))) ->
  (forall c s, p c = false -> P s (collapse p r s) -> P (c :: s) (c :: collapse p r s)) ->
  forall s, P s (collapse p r s).
Proof.
  intros H0 H1 H2 s.
  assert (G : forall n (s : str), List.length s <= n -> P s (collapse p r s)).
  { clear s. induction n as [|n IH]; intros s Hn.
    - destruct s; [exact H0 | simpl in Hn; lia].
    - destruct s as [|c s]; [exact H0|].
      rewrite collapse_cons. destruct (p c) eqn:Hc.
      + apply H1; [exact Hc|]. apply IH.
        pose proof (dropwhile_length p s). simpl in Hn. lia.
      + apply H2; [exact Hc|]. apply IH. simpl in Hn. lia. }
  apply (G (List.length s)). lia.
Qed.

Lemma collapse_none (s : str) :
  Forall (fun c => p c = false) s -> collapse p r s = s.
Proof.
  induction 1 as [|c s Hc _ IH]; [reflexivity|].
  now rewrite collapse_cons, Hc, IH.
Qed.

Lemma Forall_collapse (Q : ascii -> Prop) (s : str) :
  Forall Q r ->
  Forall (fun c => p c = false -> Q c) s -> Forall Q (collapse p r s).
Proof.
  intro Hr. pattern s, (collapse p r s). apply collapse_ind.
  - intros _. constructor.
  - intros c t Hc IH Hs. apply Forall_app; split; [exact Hr|].
    apply IH. inversion Hs; subst. now apply Forall_dropwhile.
  - intros c t Hc IH Hs. inversion Hs; subst. constructor; auto.
Qed.

Lemma existsb_collapse (Q : ascii -> bool) (s : str) :
  (forall c, Q c = true -> p c = false) ->
  existsb Q s = true -> existsb Q (collapse p r s) = true.
Proof.
  intro HQ. pattern s, (collapse p r s). apply collapse_ind.
  - intro H; exact H.
  - intros c t Hc IH Hs. rewrite existsb_app. apply orb_true_iff; right.
    apply IH. rewrite existsb_dropwhile by exact HQ.
    simpl in Hs. apply orb_true_iff in Hs as [Hq|Hs]; [|exact Hs].
    apply HQ in Hq; congruence.
  - intros c t Hc IH Hs. simpl in *. apply orb_true_iff in Hs as [Hq|Hs].
    + now rewrite Hq.
    + rewrite (IH Hs). apply orb_true_r.
Qed.
End Collapse.

(** ** Characters, case by case *)

Lemma forall_chars (f : ascii -> bool) :
  forallb f all_chars = true -> forall c, f c = true.
Proof.
  intros H c. rewrite forallb_forall in H. apply H.
  unfold all_chars. rewrite <- (ascii_nat_embedding c).
  apply in_map, in_seq. pose proof (nat_ascii_bounded c). lia.
Qed.

Lemma slug_imp (g : ascii -> bool) :
  forallb (fun c => implb (slug_char c) (g c)) all_chars = true ->
  forall c, slug_char c = true -> g c = true.
Proof.
  intros H c Hc. pose proof (forall_chars _ H c) as G. simpl in G.
  now rewrite Hc in G.
Qed.

Lemma slug_char_facts (c : ascii) :
  slug_char c = true ->
  Py.ceq c "[" = false /\ Py.ceq "{" c = false /\ Py.ceq "}" c = false
  /\ Py.ceq "#" c = false /\ Py.ceq "*" c = false /\ Py.ceq " " c = false
  /\ Py.ceq "|" c = false /\ Py.is_space c = false /\ non_slug c = false
  /\ Py.lower_char c = c /\ nav_edge c = slug_edge c.
Proof.
  intro H.
  assert (B : forall g,
             forallb (fun c => implb (slug_char c) (g c)) all_chars = true ->
             g c = true) by (intros g Hg; apply (slug_imp g Hg c H)).
  repeat split.
  - apply negb_true_iff, (B (fun c => negb (Py.ceq c "["))). now vm_compute.
  - apply negb_true_iff, (B (fun c => negb (Py.ceq "{" c))). now vm_compute.
  - apply negb_true_iff, (B (fun c => negb (Py.ceq "}" c))). now vm_compute.
  - apply negb_true_iff, (B (fun c => negb (Py.ceq "#" c))). now vm_compute.
  - apply negb_true_iff, (B (fun c => negb (Py.ceq "*" c))). now vm_compute.
  - apply negb_true_iff, (B (fun c => negb (Py.ceq " " c))). now vm_compute.
  - apply negb_true_iff, (B (fun c => negb (Py.ceq "|" c))). now vm_compute.
  - apply negb_true_iff, (B (fun c => negb (Py.is_space c))). now vm_compute.
  - apply negb_true_iff, (B (fun c => negb (non_slug c))). now vm_compute.
  - apply ceq_eq, (B (fun c => Py.ceq (Py.lower_char c) c)). now vm_compute.
  - apply Bool.eqb_prop,
      (B (fun c => Bool.eqb (nav_edge c) (slug_edge c))). now vm_compute.
Qed.

Lemma after_filter_lower (c : ascii) :
  Re.neg non_slug c = true ->
  Py.is_space (Py.lower_char c) = false -> slug_char (Py.lower_char c) = true.
Proof.
  intros H1 H2.
  assert (G : implb (Re.neg non_slug c)
                (implb (negb (Py.is_space (Py.lower_char c)))
                       (slug_char (Py.lower_char c))) = true).
  { clear. revert c. apply forall_chars. vm_compute. reflexivity. }
  rewrite H1, H2 in G. exact G.
Qed.

(** Every character of a slug is a slug character. *)
Lemma to_kebab_case_chars (x : str) :
  Forall (fun c => slug_char c = true) (to_kebab_case x).
Proof.
  unfold to_kebab_case.
  apply (Forall_collapse Py.is_space ("-" : str)).
  - repeat constructor.
  - apply Forall_lower, Forall_strip_by.
    unfold Re.sub. rewrite sub_chr. apply Forall_forall.
    intros c Hc. apply filter_In in Hc as [_ Hc]. now apply after_filter_lower.
Qed.

Lemma filter_all (p : ascii -> bool) (s : str) :
  Forall (fun c => p c = true) s -> filter p s = s.
Proof.
  induction 1 as [|c s Hc _ IH]; simpl; [reflexivity|]. now rewrite Hc, IH.
Qed.

Lemma nav_edge_newline : nav_edge nl = true.
Proof. reflexivity. Qed.

Lemma strip_links_absent (s : str) :
  Forall (fun c => Py.ceq c "[" = false) s -> strip_links s = s.
Proof. intro H. unfold strip_links, Re.sub, link_re. now apply sub_absent. Qed.

(** On a string of slug characters [to_kebab_case] only strips the
    hyphens and underscores at both ends. *)
Lemma to_kebab_case_on_slug (y : str) :
  Forall (fun c => slug_char c = true) y ->
  to_kebab_case y = Py.strip_chars "-_" y.
Proof.
  intro Hy.
  assert (F : forall (P : ascii -> Prop) (s : str),
             (forall c, slug_char c = true -> P c) ->
             Forall (fun c => slug_char c = true) s -> Forall P s).
  { intros P s HP Hs. eapply Forall_impl; [|exact Hs]. exact HP. }
  set (z := Py.strip_by nav_edge y).
  assert (Hz : Forall (fun c => slug_char c = true) z)
    by (now apply Forall_strip_by).
  assert (Hclean : clean_nav_text y = z).
  { unfold clean_nav_text. cbn [list_ascii_of_string].
    rewrite strip_links_absent
      by (apply (F _ _ (fun c H => proj1 (slug_char_facts c H)) Hy)).
    rewrite (replace_absent "{") by (apply F with (2 := Hy); intros c H;
                                      apply (slug_char_facts c H)).
    rewrite (replace_absent "}") by (apply F with (2 := Hy); intros c H;
                                      apply (slug_char_facts c H)).
    unfold nav_lead_re, nav_trail_re.
    rewrite sub_lead, (sub_trail nav_edge nav_edge_newline).
    change (Py.rstrip_by nav_edge (Py.dropwhile nav_edge y)) with z.
    rewrite (replace_absent "#") by (apply F with (2 := Hz); intros c H;
                                      apply (slug_char_facts c H)).
    rewrite (replace_absent "*") by (apply F with (2 := Hz); intros c H;
                                      apply (slug_char_facts c H)).
    apply strip_by_none. apply F with (2 := Hz); intros c H;
                           apply (slug_char_facts c H). }
  unfold to_kebab_case. rewrite Hclean. cbn [list_ascii_of_string].
  rewrite (replace_absent " ") by (apply F with (2 := Hz); intros c H;
                                    apply (slug_char_facts c H)).
  rewrite (replace_absent "|") by (apply F with (2 := Hz); intros c H;
                                    apply (slug_char_facts c H)).
  unfold Re.sub at 2. rewrite sub_chr, filter_all.
  2:{ apply F with (2 := Hz). intros c H. unfold Re.neg.
      destruct (slug_char_facts c H) as (_&_&_&_&_&_&_&_&E&_). now rewrite E. }
  unfold Py.strip. rewrite strip_by_none
    by (apply F with (2 := Hz); intros c H; apply (slug_char_facts c H)).
  rewrite lower_fixed
    by (apply F with (2 := Hz); intros c H; apply (slug_char_facts c H)).
  change (Re.sub false [Re.plus Py.is_space] [inl ["-"%char]] z)
    with (collapse Py.is_space ["-"%char] z).
  rewrite collapse_none
    by (apply F with (2 := Hz); intros c H; apply (slug_char_facts c H)).
  subst z. unfold Py.strip_chars. apply strip_by_ext.
  apply F with (2 := Hy). intros c H. apply (slug_char_facts c H).
Qed.

Lemma dropwhile_head (p : ascii -> bool) (s : str) :
  match Py.dropwhile p s with
  | [] => True
  | c :: _ => p c = false
  end.
Proof.
  induction s as [|c s IH]; simpl; [exact I|].
  destruct (p c) eqn:E; [exact IH | exact E].
Qed.

Lemma dropwhile_idem (p : ascii -> bool) (s : str) :
  Py.dropwhile p (Py.dropwhile p s) = Py.dropwhile p s.
Proof.
  pose proof (dropwhile_head p s) as H.
  destruct (Py.dropwhile p s) as [|c t]; [reflexivity|]. simpl. now rewrite H.
Qed.

(** Stripping twice is stripping once. *)
Lemma strip_by_idem (p : ascii -> bool) (s : str) :
  Py.strip_by p (Py.strip_by p s) = Py.strip_by p s.
Proof.
  unfold Py.strip_by, Py.lstrip_by.
  assert (L : Py.dropwhile p (Py.rstrip_by p (Py.dropwhile p s))
              = Py.rstrip_by p (Py.dropwhile p s)).
  { pose proof (dropwhile_head p s) as H.
    destruct (Py.dropwhile p s) as [|c t]; [reflexivity|].
    rewrite rstrip_by_cons. simpl. rewrite H. simpl. now rewrite H. }
  rewrite L. unfold Py.rstrip_by. rewrite rev_involutive.
  now rewrite dropwhile_idem.
Qed.

(** C1 (as amended).  Applying [to_kebab_case] to a slug only strips the
    hyphens and underscores at its two ends: for every input [x], the
    second application returns [to_kebab_case x] stripped of its leading and
    trailing '-' and '_'.  So the function is idempotent exactly on the
    inputs whose slug neither starts nor ends with one of the two, and a
    third application never changes anything. *)
Theorem to_kebab_case_settles (x : str) :
  to_kebab_case (to_kebab_case x) = Py.strip_chars "-_" (to_kebab_case x)
  /\ to_kebab_case (to_kebab_case (to_kebab_case x))
     = to_kebab_case (to_kebab_case x).
Proof.
  pose proof (to_kebab_case_chars x) as Hx.
  rewrite (to_kebab_case_on_slug _ Hx). split; [reflexivity|].
  rewrite to_kebab_case_on_slug by (now apply Forall_strip_by).
  apply strip_by_idem.
Qed.

(** C1, the claim as stated fails: the slug of [!-a] is [-a], and the slug
    of [-a] is [a]. *)
Lemma to_kebab_case_not_idempotent :
  to_kebab_case "!-a" = ("-a" : str)
  /\ to_kebab_case (to_kebab_case "!-a") = ("a" : str)
  /\ to_kebab_case (to_kebab_case "!-a") <> to_kebab_case "!-a".
Proof. repeat split; [vm_compute; reflexivity .. | vm_compute; discriminate]. Qed.

(** ** The slug of a page *)

Lemma alnum_imp (g : ascii -> bool) :
  forallb (fun c => implb (Py.is_alnum c) (g c)) all_chars = true ->
  forall c, Py.is_alnum c = true -> g c = true.
Proof.
  intros H c Hc. pose proof (forall_chars _ H c) as G. simpl in G.
  now rewrite Hc in G.
Qed.

Lemma alnum_not_edge (c : ascii) : Py.is_alnum c = true -> nav_edge c = false.
Proof.
  intro H. apply negb_true_iff.
  apply (alnum_imp (fun c => negb (nav_edge c))); [now vm_compute | exact H].
Qed.

Lemma alnum_not_space (c : ascii) : Py.is_alnum c = true -> Py.is_space c = false.
Proof.
  intro H. apply negb_true_iff.
  apply (alnum_imp (fun c => negb (Py.is_space c))); [now vm_compute | exact H].
Qed.

Lemma alnum_in_slug (c : ascii) : Py.is_alnum c = true -> Re.neg non_slug c = true.
Proof.
  intro H. apply (alnum_imp (Re.neg non_slug)); [now vm_compute | exact H].
Qed.

Lemma alnum_lower (c : ascii) : Py.is_alnum (Py.lower_char c) = Py.is_alnum c.
Proof.
  apply Bool.eqb_prop. revert c. apply forall_chars. now vm_compute.
Qed.

Lemma existsb_filter (P q : ascii -> bool) (s : str) :
  (forall c, P c = true -> q c = true) ->
  existsb P (filter q s) = existsb P s.
Proof.
  intro H. induction s as [|c s IH]; simpl; [reflexivity|].
  destruct (q c) eqn:Hq; simpl; rewrite IH; [reflexivity|].
  destruct (P c) eqn:HP; [|reflexivity]. apply H in HP; congruence.
Qed.

Lemma isin_char_false (c : ascii) (s : str) :
  Py.isin [c] s = false -> Forall (fun x => Py.ceq x c = false) s.
Proof.
  induction s as [|x s IH]; intro H; [constructor|].
  simpl in H. apply orb_false_iff in H as [H1 H2].
  rewrite andb_true_r in H1. constructor; [|now apply IH].
  destruct (Py.ceq x c) eqn:E; [|reflexivity].
  apply ceq_eq in E; subst. now rewrite ceq_refl in H1.
Qed.

(** A letter or digit outside the markdown links survives the cleaning. *)
Lemma clean_nav_text_keeps (s : str) :
  has_alnum (strip_links s) = true -> has_alnum (clean_nav_text s) = true.
Proof.
  intros Ha. unfold clean_nav_text, has_alnum in *.
  cbn [list_ascii_of_string] in *.
  unfold Py.strip. rewrite existsb_strip_by by apply alnum_not_space.
  apply existsb_replace; [repeat constructor|].
  apply existsb_replace; [repeat constructor|].
  unfold nav_lead_re, nav_trail_re.
  rewrite sub_lead, (sub_trail nav_edge nav_edge_newline).
  change (Py.rstrip_by nav_edge (Py.dropwhile nav_edge ?x))
    with (Py.strip_by nav_edge x).
  rewrite existsb_strip_by by apply alnum_not_edge.
  apply existsb_replace; [repeat constructor|].
  apply existsb_replace; [repeat constructor|].
  exact Ha.
Qed.

Lemma to_kebab_case_keeps (s : str) :
  has_alnum (strip_links s) = true -> has_alnum (to_kebab_case s) = true.
Proof.
  intros Ha. pose proof (clean_nav_text_keeps s Ha) as Hc.
  unfold to_kebab_case, has_alnum in *. cbn [list_ascii_of_string] in *.
  change (Re.sub false [Re.plus Py.is_space] [inl ["-"%char]] ?z)
    with (collapse Py.is_space ["-"%char] z).
  apply existsb_collapse; [apply alnum_not_space|].
  rewrite existsb_lower by apply alnum_lower.
  unfold Py.strip. rewrite existsb_strip_by by apply alnum_not_space.
  unfold Re.sub. rewrite sub_chr, existsb_filter by apply alnum_in_slug.
  apply existsb_replace; [repeat constructor|].
  apply existsb_replace; [repeat constructor|].
  exact Hc.
Qed.

(** C6 (as amended).  The slug of a page is not empty when its cleaned
    title, with its markdown links replaced by their labels, holds a letter
    or a digit; in particular when the cleaned title holds a letter or a
    digit and no opening bracket. *)
Theorem page_slug_nonempty (page_title : str) :
  (has_alnum (strip_links (clean_title_of page_title)) = true ->
   Py.truthy (page_slug_of page_title) = true)
  /\ (Py.isin "[" (clean_title_of page_title) = false ->
      has_alnum (clean_title_of page_title) = true ->
      Py.truthy (page_slug_of page_title) = true).
Proof.
  assert (G : has_alnum (strip_links (clean_title_of page_title)) = true ->
              Py.truthy (page_slug_of page_title) = true).
  { intro Ha. unfold page_slug_of.
    apply (truthy_existsb Py.is_alnum). now apply to_kebab_case_keeps. }
  split; [exact G|].
  intros Hb Ha. apply G.
  rewrite strip_links_absent; [exact Ha|]. now apply isin_char_false.
Qed.

(** The title [# Home Page]. *)
Lemma page_slug_nonempty_witness :
  Py.truthy (page_slug_of "# Home Page") = true.
Proof. apply (proj1 (page_slug_nonempty "# Home Page")); reflexivity. Defined.

(** C6, the claim as stated fails: a heading [# !!!] opens a page named
    [!!!]; with a long enough content it passes the exclusion filter, and
    its slug is empty. *)
Lemma page_slug_empty :
  segment_lines [ "# Footer (All Pages)" : str; "# !!!" : str;
                  "Some content here" : str ]
  = [ ("!!!" : str, Text "Some content here") ]
  /\ should_skip_page "!!!" "Some content here" = false
  /\ page_slug_of "!!!" = [].
Proof. repeat split; vm_compute; reflexivity. Qed.

(** ** Blank lines of the page body *)

Lemma last_opt_snoc {A} (l : list A) (x : A) : Py.last_opt (l ++ [x]) = Some x.
Proof.
  induction l as [|a l IH]; [reflexivity|].
  simpl. destruct (l ++ [x]) eqn:E; [destruct l; discriminate | exact IH].
Qed.

Lemma no_double_blank_snoc (l : list str) (x : str) :
  no_double_blank (l ++ [x])
  = no_double_blank l
    && negb (match Py.last_opt l with Some y => blank y | None => false end
             && blank x).
Proof.
  induction l as [|a l IH]; [reflexivity|].
  destruct l as [|b l]; [simpl; now rewrite andb_true_r|].
  change (no_double_blank ((a :: b :: l) ++ [x]))
    with (negb (blank a && blank b) && no_double_blank ((b :: l) ++ [x])).
  rewrite IH.
  change (no_double_blank (a :: b :: l))
    with (negb (blank a && blank b) && no_double_blank (b :: l)).
  change (Py.last_opt (a :: b :: l)) with (Py.last_opt (b :: l)).
  now rewrite andb_assoc.
Qed.

Lemma no_double_blank_spec (l : list str) :
  no_double_blank l = true <-> forall pre post, l <> pre ++ [] :: [] :: post.
Proof.
  induction l as [|a l IH].
  - split; [|reflexivity]. intros _ [|? pre] post; discriminate.
  - destruct l as [|b l].
    + split; [|reflexivity]. intros _ [|? [|? pre]] post; discriminate.
    + change (no_double_blank (a :: b :: l))
        with (negb (blank a && blank b) && no_double_blank (b :: l)).
      rewrite andb_true_iff, IH. split.
      * intros [H1 H2] [|x pre] post E.
        -- injection E as -> -> _. discriminate.
        -- injection E as -> E. now apply (H2 pre post).
      * intro H. split.
        -- destruct a, b; try reflexivity. exfalso. now apply (H [] l).
        -- intros pre post E. apply (H (a :: pre) post). simpl. now rewrite E.
Qed.

Lemma push_blank_ok (l : list str) :
  no_double_blank l = true -> ends_nonblank l = true ->
  no_double_blank (l ++ [[]]) = true.
Proof.
  intros H E. rewrite no_double_blank_snoc, H. unfold ends_nonblank in E.
  destruct (Py.last_opt l); [|reflexivity]. unfold blank. now rewrite E.
Qed.

Lemma push_text_ok (l : list str) (x : str) :
  no_double_blank l = true -> Py.truthy x = true ->
  no_double_blank (l ++ [x]) = true.
Proof.
  intros H E. rewrite no_double_blank_snoc, H. unfold blank. rewrite E.
  now rewrite andb_false_r.
Qed.

Lemma append_body_ok (l : list str) (cleaned : str) :
  no_double_blank l = true -> Py.truthy cleaned = true ->
  no_double_blank (append_body l cleaned) = true.
Proof.
  intros H E. unfold append_body.
  set (l1 := if Py.startswith "#" cleaned && ends_nonblank l then l ++ [[]] else l).
  assert (H1 : no_double_blank l1 = true).
  { subst l1. destruct (Py.startswith "#" cleaned); simpl; [|exact H].
    destruct (ends_nonblank l) eqn:El; [now apply push_blank_ok | exact H]. }
  apply push_text_ok; [|exact E].
  destruct (ends_nonblank l1) eqn:E1; [|exact H1].
  destruct (negb _ && negb _); [now apply push_blank_ok | exact H1].
Qed.

Lemma truthy_rev (s : str) : Py.truthy (rev s) = Py.truthy s.
Proof. destruct s as [|c s]; [reflexivity|]. simpl. now destruct (rev s). Qed.

Lemma truthy_dropwhile (p : ascii -> bool) (s : str) :
  Py.truthy (Py.dropwhile p s) = existsb (Re.neg p) s.
Proof.
  induction s as [|c s IH]; [reflexivity|]. simpl. unfold Re.neg at 1.
  destruct (p c); [exact IH | reflexivity].
Qed.

Lemma truthy_strip_by (p : ascii -> bool) (s : str) :
  Py.truthy (Py.strip_by p s) = existsb (Re.neg p) s.
Proof.
  unfold Py.strip_by, Py.rstrip_by, Py.lstrip_by.
  rewrite truthy_rev, truthy_dropwhile, existsb_rev.
  apply existsb_dropwhile. intros c H. unfold Re.neg in H.
  now apply negb_true_iff.
Qed.

(** Stripping a stripped string leaves it non-empty. *)
Lemma truthy_strip_strip (s : str) :
  Py.truthy (Py.strip s) = true -> Py.truthy (Py.strip (Py.strip s)) = true.
Proof.
  unfold Py.strip. rewrite !truthy_strip_by. intro H.
  rewrite existsb_strip_by; [exact H|].
  intros c Hc. now apply negb_true_iff.
Qed.

Lemma clean_body_line_truthy (s : str) :
  Py.truthy (Py.strip s) = true -> Py.truthy (clean_body_line s) = true.
Proof.
  intro H. unfold clean_body_line. cbn [list_ascii_of_string].
  repeat (apply replace_truthy; [reflexivity|]). exact H.
Qed.

(** The text appended for a non-blank line is never empty. *)
Lemma body_text_truthy (line : str) :
  Py.truthy (Py.strip line) = true ->
  Py.truthy (body_text (Py.strip line)) = true.
Proof.
  intro H. unfold body_text.
  pose proof (clean_body_line_truthy _ (truthy_strip_strip _ H)) as Hc.
  destruct (matches heading_fix_re (clean_body_line (Py.strip line))) eqn:Hm;
    [|exact Hc].
  unfold matches, Re.rmatch_at_start in Hm. unfold Re.sub.
  rewrite sub_from_here.
  destruct (Re.here false heading_fix_re None _) as [m|]; [|discriminate].
  unfold Re.expand. cbn [flat_map list_ascii_of_string].
  now destruct (Re.group 1 (Re.m_groups m)).
Qed.

Lemma service_box_block_body (st : page_state) (stripped line_lower : str) :
  body_lines (data match service_box_block st stripped line_lower with
                   | Continue st' => st'
                   | Fall st' => st'
                   end)
  = body_lines (data st).
Proof.
  unfold service_box_block.
  repeat match goal with
         | |- context [if ?b then _ else _] => destruct b
         end; reflexivity.
Qed.

Lemma pre_body_block_body (st : page_state) (stripped : str) :
  body_lines (data match pre_body_block st stripped with
                   | Continue st' => st'
                   | Fall st' => st'
                   end)
  = body_lines (data st).
Proof.
  unfold pre_body_block.
  repeat match goal with
         | |- context [if ?b then _ else _] => destruct b
         end; reflexivity.
Qed.

Lemma hero_block_body (hm : Dict.t str) (slug : str) (st : page_state) (s : str) :
  body_lines (data (hero_block hm slug st s)) = body_lines (data st).
Proof.
  unfold hero_block. destruct (extract_tag_value s _ true) as [v|]; [|reflexivity].
  destruct (Py.truthy v); reflexivity.
Qed.

Lemma cta_block_body (st : page_state) (s : str) :
  body_lines (data (cta_block st s)) = body_lines (data st).
Proof.
  unfold cta_block. destruct (cta_value s) as [v|]; [|reflexivity].
  destruct (Py.truthy v); reflexivity.
Qed.

Lemma page_line_body (hm : Dict.t str) (slug : str) (st : page_state) (line : str) :
  body_change (body_lines (data st))
              (body_lines (data (page_line hm slug st line))).
Proof.
  unfold page_line.
  destruct (Py.truthy (Py.strip line)) eqn:Hs; cbn [negb].
  2:{ destruct (is_body_started st && negb (is_service_box st)
                && ends_nonblank (body_lines (data st))) eqn:E.
      - apply andb_true_iff in E as [_ E]. simpl. now apply body_blank.
      - apply body_same. }
  destruct (Py.isin "how can we help" _ && Py.isin "##" _); [apply body_same|].
  pose proof (service_box_block_body st (Py.strip line)
                (Py.replace "\" "" (Py.lower (Py.strip line)))) as H1.
  destruct (service_box_block st _ _) as [st1|st1];
    [rewrite H1; apply body_same|].
  pose proof (pre_body_block_body st1 (Py.strip line)) as H2.
  destruct (pre_body_block st1 _) as [st2|st2]; rewrite <- H1, <- H2;
    [apply body_same|].
  destruct (Py.isin "[hero image]" _); [rewrite hero_block_body; apply body_same|].
  destruct (Py.isin "[para_subheader]" _).
  { destruct (extract_tag_value _ _ false) as [v|]; [|apply body_same].
    destruct (Py.truthy v); apply body_same. }
  destruct (Py.isin "[promo" _ || Py.isin "[hero_promo]" _); [apply body_same|].
  destruct (Py.isin "[cta" _); [rewrite cta_block_body; apply body_same|].
  unfold body_block.
  destruct (Py.isin "##" (Py.strip line)); simpl;
    apply body_text_added, body_text_truthy, Hs.
Qed.

Lemma page_line_no_double_blank (hm : Dict.t str) (slug : str)
      (st : page_state) (line : str) :
  no_double_blank (body_lines (data st)) = true ->
  no_double_blank (body_lines (data (page_line hm slug st line))) = true.
Proof.
  intro H. destruct (page_line_body hm slug st line) as [|E|c Hc].
  - exact H.
  - now apply push_blank_ok.
  - now apply append_body_ok.
Qed.

Lemma page_fold_no_double_blank (hm : Dict.t str) (slug : str) (lines : list str) :
  forall st,
    no_double_blank (body_lines (data st)) = true ->
    no_double_blank (body_lines (data (fold_left (page_line hm slug) lines st)))
    = true.
Proof.
  induction lines as [|l lines IH]; intros st H; [exact H|].
  simpl. apply IH. now apply page_line_no_double_blank.
Qed.

(** C9.  [body_lines] never holds two consecutive empty strings: after
    every number of lines processed by the loop, and when the loop ends. *)
Theorem body_lines_no_double_blank
        (raw_text page_title : str) (queue : list image_task)
        (hyperlink_map : Dict.t str) :
  (forall n : nat,
      no_double_blank
        (body_lines
           (data (fold_left (page_line hyperlink_map (page_slug_of page_title))
                            (firstn n (Py.split nl raw_text))
                            (page_init page_title queue)))) = true)
  /\ no_double_blank
       (body_lines (data (page_loop raw_text page_title queue hyperlink_map)))
     = true.
Proof.
  split; [intro n|unfold page_loop]; now apply page_fold_no_double_blank.
Qed.

(** ** Chunks of eight *)

Lemma range_from_lt (step : nat) :
  forall fuel start stop x, In x (range_from fuel start stop step) -> x < stop.
Proof.
  induction fuel as [|fuel IH]; intros start stop x H; [contradiction|].
  simpl in H. destruct (start <? stop) eqn:E; [|contradiction].
  destruct H as [<-|H]; [now apply Nat.ltb_lt | now apply IH in H].
Qed.

Lemma range_from_length :
  forall fuel start stop,
    stop - start <= fuel ->
    List.length (range_from fuel start stop 8) = (stop - start + 7) / 8.
Proof.
  induction fuel as [|fuel IH]; intros start stop H.
  - replace (stop - start) with 0 by lia. reflexivity.
  - cbn [range_from]. destruct (start <? stop) eqn:E.
    + apply Nat.ltb_lt in E. cbn [List.length]. rewrite IH by lia.
      destruct (Nat.le_gt_cases 8 (stop - start)) as [G|G].
      * replace (stop - start + 7) with ((stop - (start + 8) + 7) + 1 * 8) by lia.
        rewrite Nat.div_add by lia. lia.
      * replace (stop - (start + 8)) with 0 by lia.
        change ((0 + 7) / 8) with 0.
        apply (Nat.div_unique _ 8 1 (stop - start - 1)); lia.
    + apply Nat.ltb_ge in E. replace (stop - start) with 0 by lia. reflexivity.
Qed.

Lemma chunks_concat_from {A} (l : list A) :
  forall fuel start,
    List.length l - start <= fuel ->
    List.concat (map (fun i => slice l i (i + 8))
                (range_from fuel start (List.length l) 8))
    = skipn start l.
Proof.
  induction fuel as [|fuel IH]; intros start H.
  - simpl. symmetry. apply skipn_all2. lia.
  - simpl. destruct (start <? List.length l) eqn:E.
    + simpl. rewrite IH by lia. unfold slice.
      replace (start + 8 - start) with 8 by lia.
      rewrite Nat.add_comm, <- skipn_skipn. apply firstn_skipn.
    + apply Nat.ltb_ge in E. symmetry. apply skipn_all2. exact E.
Qed.

Lemma slice_length {A} (l : list A) (i : nat) :
  i < List.length l ->
  1 <= List.length (slice l i (i + 8)) <= 8.
Proof.
  intro H. unfold slice. rewrite length_firstn, length_skipn. lia.
Qed.

(** ** Navigation *)

Lemma nav_line_kind (st : nav_state) (line : str) :
  nav_line st line =
  match nav_kind_of line with
  | NavSkip => st
  | NavChild c =>
      match current_parent st with
      | Some parent =>
          if Py.truthy parent then
            match Dict.get parent (nav_structure st) with
            | Some children =>
                MkNav (Dict.set parent (children ++ [c]) (nav_structure st))
                      (current_parent st)
            | None => st
            end
          else st
      | None => st
      end
  | NavParent p =>
      MkNav (if Dict.mem p (nav_structure st) then nav_structure st
             else Dict.set p [] (nav_structure st))
            (Some p)
  end.
Proof.
  unfold nav_line, nav_kind_of.
  destruct (negb (Py.truthy (Py.strip line)) || Py.isin "Dev Note" (Py.strip line));
    [reflexivity|].
  destruct (negb (Py.truthy (clean_nav_text (Py.strip line)))); [reflexivity|].
  destruct (matches list_pattern (Py.strip line)); reflexivity.
Qed.

Lemma dict_set_in {V} (k : str) (v : V) (d : Dict.t V) (q : str) (w : V) :
  In (q, w) (Dict.set k v d) -> (q = k /\ w = v) \/ In (q, w) d.
Proof.
  induction d as [|[k' v'] d IH]; simpl.
  - intros [E|[]]. injection E as <- <-. now left.
  - destruct (Py.eqb k' k) eqn:E.
    + apply eqb_eq in E; subst k'. intros [H|H].
      * injection H as <- <-. now left.
      * right; now right.
    + intros [H|H]; [right; now left|].
      destruct (IH H) as [G|G]; [now left | right; now right].
Qed.

Lemma dict_get_in {V} (k : str) (d : Dict.t V) (v : V) :
  Dict.get k d = Some v -> In (k, v) d.
Proof.
  induction d as [|[k' v'] d IH]; simpl; [discriminate|].
  destruct (Py.eqb k' k) eqn:E.
  - apply eqb_eq in E; subst k'. intro H; injection H as <-. now left.
  - intro H. right. now apply IH.
Qed.

Lemma attached_more (seen : list str) (l p c : str) :
  attached seen p c -> attached (seen ++ [l]) p c.
Proof.
  intros (before & lp & mid & lc & after & E & H1 & H2 & H3).
  exists before, lp, mid, lc, (after ++ [l]). repeat split; try assumption.
  rewrite E. rewrite <- !app_assoc. simpl. rewrite <- !app_assoc. reflexivity.
Qed.

Lemma nav_inv_step (seen : list str) (st : nav_state) (line : str) :
  nav_inv seen st -> nav_inv (seen ++ [line]) (nav_line st line).
Proof.
  intros [Hp Hc].
  assert (Keep : is_parent_line line = false ->
                 nav_inv (seen ++ [line]) st).
  { intro Hl. split.
    - intros p E. destruct (Hp p E) as (before & lp & mid & Es & K & F).
      exists before, lp, (mid ++ [line]). repeat split; [|exact K|].
      + rewrite Es, <- app_assoc. reflexivity.
      + apply Forall_app; split; [exact F | now repeat constructor].
    - intros p cs c H1 H2. apply attached_more. now apply (Hc p cs c). }
  rewrite nav_line_kind. destruct (nav_kind_of line) as [|c|p] eqn:K.
  - apply Keep. unfold is_parent_line. now rewrite K.
  - assert (Hl : is_parent_line line = false)
      by (unfold is_parent_line; now rewrite K).
    destruct (current_parent st) as [parent|] eqn:Ecur; [|now apply Keep].
    destruct (Py.truthy parent); [|now apply Keep].
    destruct (Dict.get parent (nav_structure st)) as [children|] eqn:G;
      [|now apply Keep].
    destruct (Keep Hl) as [Hp' Hc']. split.
    + simpl. rewrite Ecur in Hp'. exact Hp'.
    + simpl. intros q cs x Hin Hx.
      apply dict_set_in in Hin as [[-> ->]|Hin]; [|now apply (Hc' q cs x)].
      apply in_app_iff in Hx as [Hx|[<-|[]]].
      * apply (Hc' parent children x); [now apply dict_get_in | exact Hx].
      * destruct (Hp parent eq_refl) as (before & lp & mid & Es & Kp & F).
        exists before, lp, mid, line, []. repeat split; try assumption.
        rewrite Es, <- app_assoc. reflexivity.
  - split.
    + simpl. intros q E. injection E as <-.
      exists seen, line, []. repeat split; [exact K | constructor].
    + simpl. intros q cs x Hin Hx. apply attached_more.
      destruct (Dict.mem p (nav_structure st)); [now apply (Hc q cs x)|].
      apply dict_set_in in Hin as [[-> ->]|Hin]; [contradiction|].
      now apply (Hc q cs x).
Qed.

Lemma nav_inv_fold (lines : list str) :
  forall seen st,
    nav_inv seen st -> nav_inv (seen ++ lines) (fold_left nav_line lines st).
Proof.
  induction lines as [|l lines IH]; intros seen st H.
  - now rewrite app_nil_r.
  - simpl. replace (seen ++ l :: lines) with ((seen ++ [l]) ++ lines)
      by (now rewrite <- app_assoc).
    apply IH. now apply nav_inv_step.
Qed.

Lemma nav_inv_init : nav_inv [] nav_init.
Proof. split; [discriminate | intros ? ? ? []]. Qed.

Lemma child_line_not_parent (line : str) :
  matches list_pattern (Py.strip line) = true -> is_parent_line line = false.
Proof.
  intro H. unfold is_parent_line, nav_kind_of. rewrite H.
  destruct (negb _ || _); [reflexivity|]. now destruct (negb _).
Qed.

(** Lines before any parent line leave the state as it started. *)
Lemma nav_orphans (pre : list str) :
  Forall (fun l => is_parent_line l = false) pre ->
  fold_left nav_line pre nav_init = nav_init.
Proof.
  induction 1 as [|l pre Hl _ IH]; [reflexivity|].
  simpl. replace (nav_line nav_init l) with nav_init; [exact IH|].
  rewrite nav_line_kind. unfold is_parent_line in Hl.
  destruct (nav_kind_of l); [reflexivity | reflexivity | discriminate Hl].
Qed.

(** C10.  A line that matches the list-marker pattern is never a parent
    line, and lines that come before any parent line change nothing: the
    navigation structure and the rendered navigation are those of the
    remaining lines.  And every child of the structure was read from a
    child line that follows a parent line of its parent, with no other
    parent line between the two. *)
Theorem nav_orphan_children_dropped :
  (forall line : str,
      matches list_pattern (Py.strip line) = true -> is_parent_line line = false)
  /\ (forall pre rest : list str,
         Forall (fun l => is_parent_line l = false) pre ->
         build_nav (pre ++ rest) = build_nav rest
         /\ generate_nav_yaml (pre ++ rest) = generate_nav_yaml rest)
  /\ (forall (lines : list str) (parent : str) (children : list str) (child : str),
         In (parent, children) (nav_structure (build_nav lines)) ->
         In child children ->
         attached lines parent child).
Proof.
  split; [exact child_line_not_parent | split].
  - intros pre rest H.
    assert (E : build_nav (pre ++ rest) = build_nav rest).
    { unfold build_nav. rewrite fold_left_app. now rewrite nav_orphans. }
    split; [exact E|]. unfold generate_nav_yaml. now rewrite E.
  - intros lines parent children child H1 H2.
    destruct (nav_inv_fold lines [] nav_init nav_inv_init) as [_ H].
    now apply (H parent children child).
Qed.

(** An orphan child line before the first parent. *)
Lemma nav_orphan_children_dropped_witness :
  build_nav [ "- Orphan" : str; "Services" : str; "- Plumbing" : str ]
  = build_nav [ "Services" : str; "- Plumbing" : str ]
  /\ generate_nav_yaml [ "- Orphan" : str; "Services" : str; "- Plumbing" : str ]
     = generate_nav_yaml [ "Services" : str; "- Plumbing" : str ].
Proof.
  apply (proj1 (proj2 nav_orphan_children_dropped)
               [ "- Orphan" : str ] [ "Services" : str; "- Plumbing" : str ]).
  repeat constructor.
Defined.

Lemma range_from_steps :
  forall fuel start stop,
    range_from fuel start stop 8
    = map (fun j => start + 8 * j)
          (seq 0 (List.length (range_from fuel start stop 8))).
Proof.
  induction fuel as [|fuel IH]; intros start stop; [reflexivity|].
  cbn [range_from]. destruct (start <? stop); [|reflexivity].
  cbn [List.length seq map]. f_equal; [lia|].
  rewrite (IH (start + 8) stop) at 1.
  rewrite <- seq_shift, map_map. apply map_ext. intro j. lia.
Qed.

Lemma chunks_columns {A} (children : list A) : chunks children = nav_columns children.
Proof.
  unfold chunks, nav_columns, range.
  rewrite range_from_steps, range_from_length by lia.
  rewrite Nat.sub_0_r, map_map. apply map_ext. intro i.
  unfold slice. cbn [Nat.add]. f_equal. lia.
Qed.

(** C7.  The children of a parent are cut into ceil(n/8) chunks (the
    number (n+7)/8, the least k with n <= 8k), each of one to eight
    children, which put end to end give the children back in order;
    seventeen children give chunks of sizes 8, 8 and 1, and the navigation
    rendered for them has three dropdown columns.  The chunks are the
    columns of the specification, column [i] holding the children [8i] to
    [8i+7]; and [generate_nav_yaml] renders every parent of the structure
    that has children as its heading lines, the line [dropdown:], and for
    each column in turn a [- title:] block with the links of the children
    of that column. *)
Theorem nav_chunking (children : list str) :
  List.length (chunks children) = (List.length children + 7) / 8
  /\ List.length children <= 8 * List.length (chunks children)
     < List.length children + 8
  /\ Forall (fun chunk => 1 <= List.length chunk <= 8) (chunks children)
  /\ List.concat (chunks children) = children
  /\ (List.length children = 17 ->
      map (@List.length str) (chunks children) = [8; 8; 1])
  /\ occurrences "    - title:" (generate_nav_yaml nav_with_17_children) = 3
  /\ chunks children = nav_columns children
  /\ (forall parent : str,
         children <> [] ->
         exists head,
           render_parent (parent, []) = head ++ [nl]
           /\ render_parent (parent, children)
              = head ++ "  dropdown:" ++ [nl]
                ++ flat_map (fun column =>
                               "    - title:" ++ [nl] ++ "      links:" ++ [nl]
                               ++ flat_map (render_child parent) column)
                            (nav_columns children)
                ++ [nl])
  /\ (forall lines : list str,
         generate_nav_yaml lines
         = flat_map render_parent (nav_structure (build_nav lines))).
Proof.
  assert (L : List.length (chunks children) = (List.length children + 7) / 8).
  { unfold chunks, range.
    rewrite length_map, range_from_length by lia. now rewrite Nat.sub_0_r. }
  split; [exact L|]. split.
  { rewrite L.
    pose proof (Nat.div_mod_eq (List.length children + 7) 8) as D.
    pose proof (Nat.mod_upper_bound (List.length children + 7) 8) as U. lia. }
  split; [|split; [|split; [|split; [|split; [|split]]]]].
  - unfold chunks, range.
    apply Forall_forall. intros chunk H. apply in_map_iff in H as [i [<- Hi]].
    apply slice_length. now apply range_from_lt in Hi.
  - unfold chunks, range. now rewrite chunks_concat_from by lia.
  - intro H. do 17 (destruct children as [|? children]; [discriminate H|]).
    destruct children; [reflexivity | discriminate H].
  - vm_compute. reflexivity.
  - apply chunks_columns.
  - intros parent Hne. rewrite <- chunks_columns.
    destruct children as [|child rest]; [contradiction|].
    unfold render_parent. eexists. split; reflexivity.
  - reflexivity.
Qed.

(** Seventeen children. *)
Lemma nav_chunking_witness :
  map (@List.length str) (chunks (repeat ("Drain Cleaning" : str) 17)) = [8; 8; 1].
Proof.
  apply (proj1 (proj2 (proj2 (proj2 (proj2
           (nav_chunking (repeat ("Drain Cleaning" : str) 17))))))).
  reflexivity.
Defined.

(** ** Calls to action *)

(** C2 (as amended).  The classification of a CTA text has three cases: a
    text that contains the default phone number gives the phone CTA with the
    templated display; otherwise a text with a phone-shaped digit sequence
    gives the phone link, icon, scheme and reverse flag but keeps the text
    itself as display; any other text gives the contact CTA with the text as
    display.  Every non-empty value extracted from a CTA line appends the
    CTA so classified.  The two inputs of the specification, run through
    the page loop, give a phone CTA and a contact CTA. *)
Theorem cta_classification :
  (forall cta_text : str,
      make_cta cta_text =
      if Py.isin DEFAULT_PHONE_NUMBER cta_text then phone_cta "{{ site.phone }}"
      else if found false phone_re cta_text then phone_cta cta_text
      else contact_cta cta_text)
  /\ (forall (st : page_state) (stripped val : str),
         cta_value stripped = Some val -> Py.truthy val = true ->
         ctas (data (cta_block st stripped))
         = ctas (data st) ++ [make_cta (cta_text_of val)])
  /\ ctas (data (page_loop "[cta] Call 555-555-5555 now" "Home Page" [] []))
     = [phone_cta "{{ site.phone }}"]
  /\ ctas (data (page_loop "[cta] Get a free quote" "Home Page" [] []))
     = [contact_cta "Get a free quote"].
Proof.
  split; [|split; [|split; vm_compute; reflexivity]].
  - intro t. unfold make_cta, phone_cta, contact_cta.
    destruct (Py.isin DEFAULT_PHONE_NUMBER t); [reflexivity|].
    destruct (found false phone_re t); reflexivity.
  - intros st stripped val Hv Ht. unfold cta_block. now rewrite Hv, Ht.
Qed.

(** The first input of the specification as a CTA line. *)
Lemma cta_classification_witness :
  ctas (data (cta_block (page_init "Home Page" []) "[cta] Call 555-555-5555 now"))
  = [make_cta (cta_text_of "Call 555-555-5555 now")].
Proof.
  apply (proj1 (proj2 cta_classification) (page_init "Home Page" [])
               "[cta] Call 555-555-5555 now" "Call 555-555-5555 now");
    reflexivity.
Defined.

(** C2, the claim as stated fails: a text with a phone-shaped number other
    than the default one is displayed as it is, not as the templated
    phone. *)
Lemma cta_phone_shape_keeps_text :
  Py.isin DEFAULT_PHONE_NUMBER "Call 123-456-7890" = false
  /\ found false phone_re "Call 123-456-7890" = true
  /\ ctas (data (page_loop "[cta] Call 123-456-7890" "Home Page" [] []))
     = [phone_cta "Call 123-456-7890"]
  /\ cta_text (make_cta "Call 123-456-7890") <> ("{{ site.phone }}" : str).
Proof.
  repeat split; try (vm_compute; reflexivity). vm_compute. discriminate.
Qed.

(** ** Reviews *)

(** C3 (as amended).  The input of the specification gives exactly one
    review, with text [Great service!], service [(Plumbing)] and the source
    [- Jane D.]: the dash that precedes the name stays in the source. *)
Theorem review_end_to_end :
  generate_reviews_yaml great_service
  = [MkReview None "Great service!" "- Jane D." "(Plumbing)"].
Proof. vm_compute. reflexivity. Qed.

(** C3, the claim as stated fails: the source is [- Jane D.], not
    [Jane D.]. *)
Lemma review_source_keeps_dash :
  map r_source (generate_reviews_yaml great_service) = [("- Jane D." : str)]
  /\ map r_source (generate_reviews_yaml great_service) <> [("Jane D." : str)].
Proof. split; [vm_compute; reflexivity | vm_compute; discriminate]. Qed.

(** ** Sections *)

Lemma dict_mem_set {V} (k : str) (v : V) (d : Dict.t V) (q : str) :
  Dict.mem q (Dict.set k v d) = Py.eqb k q || Dict.mem q d.
Proof.
  unfold Dict.mem. induction d as [|[k' v'] d IH]; simpl.
  - now destruct (Py.eqb k q).
  - destruct (Py.eqb k' k) eqn:E; simpl.
    + apply eqb_eq in E; subst k'. now destruct (Py.eqb k q).
    + destruct (Py.eqb k' q) eqn:E'; [now rewrite orb_true_r | exact IH].
Qed.

Lemma capture_line_keys (st : nav_capture) (line : str) :
  no_ignore_key (cap_sections st) ->
  no_ignore_key (cap_sections (capture_line st line)).
Proof.
  intro H. unfold capture_line.
  repeat match goal with
         | |- context [if ?b then _ else _] => destruct b
         end; simpl; try exact H.
  unfold no_ignore_key. rewrite dict_mem_set. now rewrite H.
Qed.

Lemma commit_keys (st : segment_state) :
  no_ignore_key (sections st) -> no_ignore_key (commit st).
Proof.
  intro H. unfold commit. destruct (current_content st); [exact H|].
  destruct (Py.eqb (current_page st) "00_Ignore") eqn:E; simpl; [exact H|].
  unfold no_ignore_key. rewrite dict_mem_set, E. exact H.
Qed.

Lemma segment_line_keys (targets : list str) (st : segment_state) (line : str) :
  no_ignore_key (sections st) ->
  no_ignore_key (sections (segment_line targets st line)).
Proof.
  intro H. unfold segment_line.
  repeat match goal with
         | |- context [if ?b then _ else _] => destruct b
         end; simpl; try exact H; now apply commit_keys.
Qed.

Lemma fold_keeps {S} (P : S -> Prop) (f : S -> str -> S) (lines : list str) :
  (forall st l, P st -> P (f st l)) ->
  forall st, P st -> P (fold_left f lines st).
Proof.
  intro Hf. induction lines as [|l lines IH]; intros st H; [exact H|].
  simpl. apply IH, Hf, H.
Qed.

(** C4.  The five lines of the specification give exactly two sections,
    [Home Page] with body [Some content here] and [About Page] with body
    [More content], and [00_Ignore] is not a key of the section map; it is
    a key of no section map at all. *)
Theorem segmentation_example :
  segment_lines footer_example
  = [ ("Home Page" : str, Text "Some content here");
      ("About Page" : str, Text "More content") ]
  /\ Dict.mem "00_Ignore" (segment_lines footer_example) = false
  /\ (forall lines : list str, Dict.mem "00_Ignore" (segment_lines lines) = false).
Proof.
  split; [vm_compute; reflexivity|]. split; [vm_compute; reflexivity|].
  intro lines. unfold segment_lines. apply commit_keys.
  apply (fold_keeps (fun st => no_ignore_key (sections st))).
  - intros st l. apply segment_line_keys.
  - simpl.
    apply (fold_keeps (fun st => no_ignore_key (cap_sections st))).
    + intros st l. apply capture_line_keys.
    + reflexivity.
Qed.

(** ** Hero images *)

Lemma startswith_longer (p q s : str) :
  Py.startswith p s = false -> Py.startswith (p ++ q) s = false.
Proof.
  revert s; induction p as [|x p IH]; intros s H; [discriminate|].
  destruct s as [|y s]; [reflexivity|]. simpl in *.
  destruct (Py.ceq x y); [now apply IH | reflexivity].
Qed.

Lemma find_first {A} (f : A -> bool) (pre : list A) (x : A) (post : list A) :
  Forall (fun a => f a = false) pre -> f x = true ->
  find f (pre ++ x :: post) = Some x.
Proof.
  induction 1 as [|a pre Ha _ IH]; intro Hx; simpl.
  - now rewrite Hx.
  - rewrite Ha. now apply IH.
Qed.

Lemma find_none {A} (f : A -> bool) (l : list A) :
  Forall (fun a => f a = false) l -> find f l = None.
Proof. induction 1 as [|a l Ha _ IH]; simpl; [reflexivity | now rewrite Ha]. Qed.

Lemma service_box_block_queue (st : page_state) (stripped line_lower : str) :
  image_queue match service_box_block st stripped line_lower with
              | Continue st' => st'
              | Fall st' => st'
              end
  = image_queue st.
Proof.
  unfold service_box_block.
  repeat match goal with
         | |- context [if ?b then _ else _] => destruct b
         end; reflexivity.
Qed.

Lemma pre_body_block_queue (st : page_state) (stripped : str) :
  image_queue match pre_body_block st stripped with
              | Continue st' => st'
              | Fall st' => st'
              end
  = image_queue st.
Proof.
  unfold pre_body_block.
  repeat match goal with
         | |- context [if ?b then _ else _] => destruct b
         end; reflexivity.
Qed.

(** A line that reaches the tag tests and carries the hero-image tag is
    handled by [hero_block]. *)
Lemma page_line_hero (hm : Dict.t str) (slug : str) (st st1 st2 : page_state)
      (line : str) :
  let stripped := Py.strip line in
  let line_lower := Py.replace "\" "" (Py.lower stripped) in
  Py.isin "how can we help" line_lower && Py.isin "##" stripped = false ->
  service_box_block st stripped line_lower = Fall st1 ->
  pre_body_block st1 stripped = Fall st2 ->
  Py.isin "[hero image]" line_lower = true ->
  page_line hm slug st line = hero_block hm slug st2 stripped
  /\ image_queue st2 = image_queue st.
Proof.
  intros stripped line_lower Hhelp Hbox Hpre Htag.
  split.
  - unfold page_line. fold stripped. fold line_lower.
    destruct (Py.truthy stripped) eqn:Hs.
    + cbn [negb]. rewrite Hhelp, Hbox, Hpre, Htag. reflexivity.
    + destruct stripped; [|discriminate Hs]. discriminate Htag.
  - pose proof (service_box_block_queue st stripped line_lower) as Q1.
    pose proof (pre_body_block_queue st1 stripped) as Q2.
    rewrite Hbox in Q1. rewrite Hpre in Q2. congruence.
Qed.

Lemma isin_self (s : str) : Py.isin s s = true.
Proof.
  assert (H : Py.startswith s s = true).
  { rewrite <- (app_nil_r s) at 2. apply startswith_app. }
  destruct s as [|c s]; [reflexivity|].
  cbn [Py.isin]. now rewrite H.
Qed.

(** C8.  For a line that reaches the tag tests with the hero-image tag and
    an extracted value that is not empty and is not a URL: when the value
    matches a key of the table, exactly or by substring in either
    direction, the task appended to the queue has the page slug as file
    name and, as url, the table's value for a key that matches, not the
    text itself.  More precisely the url is the table's value for the
    value itself when it is a key; otherwise the table's value for the
    first key, in table order, that contains the value or is contained in
    it; and the value itself when no key matches. *)
Theorem hero_image_resolution
        (hm : Dict.t str) (page_slug : str) (st st1 st2 : page_state)
        (line value : str) :
  let stripped := Py.strip line in
  let line_lower := Py.replace "\" "" (Py.lower stripped) in
  let final_url := Py.strip value in
  Py.isin "how can we help" line_lower && Py.isin "##" stripped = false ->
  service_box_block st stripped line_lower = Fall st1 ->
  pre_body_block st1 stripped = Fall st2 ->
  Py.isin "[hero image]" line_lower = true ->
  extract_tag_value stripped "hero image" true = Some value ->
  Py.truthy value = true ->
  Py.startswith "http" final_url = false ->
  (forall u,
      Dict.get final_url hm = Some u ->
      image_queue (page_line hm page_slug st line)
      = image_queue st ++ [MkTask u page_slug])
  /\ (forall pre k u post,
         Dict.get final_url hm = None ->
         hm = pre ++ (k, u) :: post ->
         Forall (fun kv => hero_match final_url kv = false) pre ->
         hero_match final_url (k, u) = true ->
         image_queue (page_line hm page_slug st line)
         = image_queue st ++ [MkTask u page_slug])
  /\ (Dict.get final_url hm = None ->
      Forall (fun kv => hero_match final_url kv = false) hm ->
      image_queue (page_line hm page_slug st line)
      = image_queue st ++ [MkTask final_url page_slug])
  /\ (forall kv,
         In kv hm -> hero_match final_url kv = true ->
         exists k u,
           In (k, u) hm /\ hero_match final_url (k, u) = true
           /\ image_queue (page_line hm page_slug st line)
              = image_queue st ++ [MkTask u page_slug]).
Proof.
  intros stripped line_lower final_url Hhelp Hbox Hpre Htag Hval Htruthy Hurl.
  destruct (page_line_hero hm page_slug st st1 st2 line Hhelp Hbox Hpre Htag)
    as [E Q].
  assert (R : forall u, resolve_hero hm final_url = u ->
                        image_queue (page_line hm page_slug st line)
                        = image_queue st ++ [MkTask u page_slug]).
  { intros u Hu. rewrite E. unfold hero_block. fold stripped.
    rewrite Hval, Htruthy. fold final_url. rewrite Hu. simpl. now rewrite Q. }
  assert (U : forall x, (match Dict.get final_url hm with
                         | Some v => v
                         | None =>
                             match find (hero_match final_url) hm with
                             | Some (_, v) => v
                             | None => final_url
                             end
                         end) = x -> resolve_hero hm final_url = x).
  { intros x Hx.
    assert (Hs : Py.startswith "https" final_url = false)
      by exact (startswith_longer "http" "s" final_url Hurl).
    unfold resolve_hero. rewrite Hurl, Hs. exact Hx. }
  split; [|split; [|split]].
  - intros u G. apply R, U. now rewrite G.
  - intros pre k u post G Ehm Hpre' Hk. apply R, U. rewrite G, Ehm.
    now rewrite (find_first _ pre (k, u) post Hpre' Hk).
  - intros G Hnone. apply R, U. rewrite G. now rewrite (find_none _ hm Hnone).
  - intros kv Hin Hk.
    destruct (Dict.get final_url hm) as [v|] eqn:G.
    + exists final_url, v. split; [now apply dict_get_in|].
      split; [unfold hero_match; cbn [fst]; now rewrite isin_self|].
      apply R, U. reflexivity.
    + destruct (find (hero_match final_url) hm) as [[k u]|] eqn:F.
      * pose proof (find_some _ _ F) as [Fin Fk].
        exists k, u. split; [exact Fin|]. split; [exact Fk|].
        apply R, U. reflexivity.
      * pose proof (List.find_none _ _ F kv Hin) as N. congruence.
Qed.

(** A value that is itself a key of the table. *)
Lemma hero_image_resolution_witness :
  image_queue (page_line two_heroes "home" (page_init "Home Page" [])
                         "[hero image] Hero banner")
  = [MkTask "https://cdn.example/2.png" "home"].
Proof.
  refine (proj1 (hero_image_resolution two_heroes "home"
            (page_init "Home Page" []) (page_init "Home Page" [])
            (page_init "Home Page" [])
            "[hero image] Hero banner" "Hero banner"
            _ _ _ _ _ _ _) "https://cdn.example/2.png" _);
    reflexivity.
Defined.

(** When several keys match, the first of them in table order gives the
    url: the value [Hero banner image] contains the keys [Hero] and
    [Hero banner], and the queued url is the table's value for [Hero]. *)
Lemma hero_image_first_key_wins :
  image_queue (page_loop "[hero image] Hero banner image" "Home Page" []
                         two_heroes)
  = [MkTask "https://cdn.example/1.png" "home"]
  /\ Py.isin "Hero banner" "Hero banner image" = true
  /\ Dict.get "Hero banner" two_heroes = Some ("https://cdn.example/2.png" : str).
Proof. repeat split; vm_compute; reflexivity. Qed.

(** ** Hyperlink extraction *)

Lemma grows_refl (m : Dict.t str) : grows m m.
Proof. intros k H; exact H. Qed.

Lemma grows_trans (a b c : Dict.t str) : grows a b -> grows b c -> grows a c.
Proof. intros H1 H2 k H. apply H2, H1, H. Qed.

Lemma grows_set (k v : str) (m : Dict.t str) : grows m (Dict.set k v m).
Proof. intros q H. rewrite dict_mem_set, H. apply orb_true_r. Qed.

Lemma mem_set_same (k v : str) (m : Dict.t str) :
  Dict.mem k (Dict.set k v m) = true.
Proof. now rewrite dict_mem_set, eqb_refl. Qed.

(** The guarded inspection of one run never raises and loses no key. *)
Lemma inspect_hyperlink_guarded (rels : Dict.t relationship)
      (found : option str) (item : hyperlink_elem) (m : Dict.t str) :
  exists found' m',
    Exn.try_except (inspect_hyperlink rels found item) (Exn.ret found) m
    = (Ok found', m')
    /\ grows m m'.
Proof.
  unfold Exn.try_except, inspect_hyperlink, Exn.bind, Exn.lift, Exn.ret, Exn.store.
  destruct (get_rid item) as [rid|]; [|eauto using grows_refl].
  destruct (if truthy_opt rid then rid else None) as [r|]; [|eauto using grows_refl].
  destruct (Dict.get r rels) as [rel|]; [|eauto using grows_refl].
  destruct (target_ref rel) as [url|]; [|eauto using grows_refl].
  destruct (findall_t item) as [nodes|]; [|eauto using grows_refl].
  destruct (Py.truthy _); [|eauto using grows_refl].
  do 2 eexists. split; [reflexivity|].
  eapply grows_trans; apply grows_set.
Qed.

Lemma inspect_hyperlink_healthy (rels : Dict.t relationship)
      (found : option str) (item : hyperlink_elem) (txt : str) (m : Dict.t str) :
  healthy rels item txt ->
  exists found' m',
    Exn.try_except (inspect_hyperlink rels found item) (Exn.ret found) m
    = (Ok found', m')
    /\ grows m m' /\ Dict.mem txt m' = true.
Proof.
  intros (r & rel & url & nodes & H1 & H2 & H3 & H4 & H5 & -> & H7).
  unfold Exn.try_except, inspect_hyperlink, Exn.bind, Exn.lift, Exn.ret, Exn.store.
  rewrite H1. cbn [truthy_opt]. rewrite H2, H3, H4, H5.
  fold (link_text nodes). rewrite H7.
  do 2 eexists. split; [reflexivity|]. split.
  - eapply grows_trans; apply grows_set.
  - apply grows_set, mem_set_same.
Qed.

Lemma items_loop (rels : Dict.t relationship) (items : list hyperlink_elem) :
  forall (found : option str) (m : Dict.t str),
  exists found' m',
    Exn.for_each items
      (fun found item =>
         Exn.try_except (inspect_hyperlink rels found item) (Exn.ret found))
      found m
    = (Ok found', m')
    /\ grows m m'
    /\ (forall item txt, In item items -> healthy rels item txt ->
                         Dict.mem txt m' = true).
Proof.
  induction items as [|it items IH]; intros found m.
  - exists found, m. repeat split; [apply grows_refl | intros ? ? []].
  - cbn [Exn.for_each]. unfold Exn.bind at 1.
    destruct (inspect_hyperlink_guarded rels found it m) as (f1 & m1 & E1 & G1).
    rewrite E1. destruct (IH f1 m1) as (f2 & m2 & E2 & G2 & K2).
    exists f2, m2. split; [exact E2|]. split; [eapply grows_trans; eassumption|].
    intros item txt [<-|Hin] Hh; [|now apply (K2 item txt)].
    destruct (inspect_hyperlink_healthy rels found it txt m Hh)
      as (f1' & m1' & E1' & _ & K1).
    rewrite E1 in E1'. injection E1' as <- <-. now apply G2.
Qed.

(** A loop whose body never raises and loses no key does neither. *)
Lemma for_each_safe {A S} (l : list A) (body : S -> A -> Exn.M S) :
  (forall s a m, exists s' m', body s a m = (Ok s', m') /\ grows m m') ->
  forall s m, exists s' m', Exn.for_each l body s m = (Ok s', m') /\ grows m m'.
Proof.
  intro Hb. induction l as [|a l IH]; intros s m.
  - exists s, m. split; [reflexivity | apply grows_refl].
  - cbn [Exn.for_each]. unfold Exn.bind at 1.
    destruct (Hb s a m) as (s1 & m1 & E1 & G1). rewrite E1.
    destruct (IH s1 m1) as (s2 & m2 & E2 & G2).
    exists s2, m2. split; [exact E2 | eapply grows_trans; eassumption].
Qed.

Lemma tags_loop (para_text u : str) (tags : list str) (m : Dict.t str) :
  exists m',
    Exn.for_each tags
      (fun _ tag =>
         if Py.isin tag (Py.lower para_text) then
           let clean_val := Py.strip (Re.sub false bracket_tag_re [] para_text) in
           if Py.truthy clean_val
           then Exn.store clean_val u ;;; Exn.store (Py.replace " " "" clean_val) u
           else Exn.ret tt
         else Exn.ret tt)
      tt m
    = (Ok tt, m')
    /\ grows m m'.
Proof.
  match goal with
  | |- exists m', Exn.for_each ?l ?body tt m = _ /\ _ =>
      destruct (for_each_safe l body) with (s := tt) (m := m)
        as ([] & m' & E & G)
  end.
  - intros [] tag m0. destruct (Py.isin tag (Py.lower para_text)).
    + cbv zeta. destruct (Py.truthy _).
      * unfold Exn.bind, Exn.store. do 2 eexists. split; [reflexivity|].
        eapply grows_trans; apply grows_set.
      * exists tt, m0. split; [reflexivity | apply grows_refl].
    + exists tt, m0. split; [reflexivity | apply grows_refl].
  - exists m'. split; assumption.
Qed.

(** A readable paragraph is inspected to the end, whatever its runs do. *)
Lemma inspect_paragraph_readable (rels : Dict.t relationship) (p : paragraph)
      (m : Dict.t str) :
  readable p ->
  exists m',
    inspect_paragraph rels p m = (Ok tt, m')
    /\ grows m m'
    /\ (forall item txt, visited p item -> healthy rels item txt ->
                         Dict.mem txt m' = true).
Proof.
  intros (t & xml & items & Ht & Hx & Hi).
  unfold inspect_paragraph, Exn.bind at 1 2, Exn.lift at 1 2.
  rewrite Ht, Hx. unfold Exn.bind at 1.
  destruct (Py.isin "w:hyperlink" xml) eqn:Hw.
  - unfold Exn.bind at 1, Exn.lift at 1. rewrite Hi.
    destruct (items_loop rels items None m) as (f1 & m1 & E1 & G1 & K1).
    rewrite E1.
    assert (V : forall item txt, visited p item -> healthy rels item txt ->
                                 Dict.mem txt m1 = true).
    { intros item txt (xml' & items' & Hx' & _ & Hi' & Hin) Hh.
      rewrite Hi in Hi'. injection Hi' as <-. now apply (K1 item txt). }
    destruct (if truthy_opt f1 then f1 else None) as [u|].
    + destruct (tags_loop (Py.strip t) u target_tags m1) as (m2 & E2 & G2).
      exists m2. split; [exact E2|]. split; [eapply grows_trans; eassumption|].
      intros item txt Hv Hh. apply G2. now apply (V item txt).
    + exists m1. repeat split; assumption.
  - unfold Exn.ret at 1. cbn [truthy_opt].
    exists m. split; [reflexivity|]. split; [apply grows_refl|].
    intros item txt (xml' & items' & Hx' & Hw' & _) _.
    rewrite Hx in Hx'. injection Hx' as <-. congruence.
Qed.

Lemma paragraphs_loop (rels : Dict.t relationship) (ps : list paragraph) :
  Forall readable ps ->
  forall m : Dict.t str,
  exists m',
    Exn.for_each ps (fun _ p => inspect_paragraph rels p) tt m = (Ok tt, m')
    /\ grows m m'
    /\ (forall p item txt, In p ps -> visited p item -> healthy rels item txt ->
                           Dict.mem txt m' = true).
Proof.
  induction 1 as [|p ps Hp _ IH]; intro m.
  - exists m. repeat split; [apply grows_refl | intros ? ? ? []].
  - cbn [Exn.for_each]. unfold Exn.bind at 1.
    destruct (inspect_paragraph_readable rels p m Hp) as (m1 & E1 & G1 & K1).
    rewrite E1. destruct (IH m1) as (m2 & E2 & G2 & K2).
    exists m2. split; [exact E2|]. split; [eapply grows_trans; eassumption|].
    intros q item txt [<-|Hin] Hv Hh.
    + apply G2. now apply (K1 item txt).
    + now apply (K2 q item txt).
Qed.

Lemma inspect_paragraph_fails (rels : Dict.t relationship) (p : paragraph)
      (m : Dict.t str) :
  fails p -> inspect_paragraph rels p m = (Raised, m).
Proof.
  unfold fails, inspect_paragraph, Exn.bind, Exn.lift.
  destruct (para_text p) as [t|]; [|reflexivity].
  destruct (para_xml p) as [xml|]; [|reflexivity].
  intros [Hw Hi]. now rewrite Hw, Hi.
Qed.

(** The loop stops at a failing paragraph with the table as it was. *)
Lemma paragraphs_loop_cut (rels : Dict.t relationship) (p : paragraph)
      (ps1 ps2 : list paragraph) :
  fails p ->
  forall m : Dict.t str,
    snd (Exn.for_each (ps1 ++ p :: ps2) (fun _ q => inspect_paragraph rels q) tt m)
    = snd (Exn.for_each ps1 (fun _ q => inspect_paragraph rels q) tt m).
Proof.
  intro Hp. induction ps1 as [|a ps1 IH]; intro m.
  - cbn [app Exn.for_each]. unfold Exn.bind at 1.
    now rewrite inspect_paragraph_fails.
  - cbn [app Exn.for_each]. unfold Exn.bind at 1 2.
    destruct (inspect_paragraph rels a m) as [[[]|] m1]; [apply IH | reflexivity].
Qed.

Lemma extract_guarded_table (s : outcome unit) (doc : document) (m : Dict.t str) :
  snd (extract_guarded (MkFile s (Ok doc)) m)
  = match s with
    | Ok _ => snd (Exn.for_each (paragraphs doc)
                                (fun _ q => inspect_paragraph (rels doc) q) tt m)
    | Raised => m
    end.
Proof.
  unfold extract_guarded, Exn.bind, Exn.lift. simpl. now destruct s.
Qed.

Lemma try_except_table (c : Exn.M unit) (m : Dict.t str) :
  snd (Exn.try_except c (Exn.ret tt) m) = snd (c m).
Proof. unfold Exn.try_except, Exn.ret. now destruct (c m) as [[|] m']. Qed.

(** C5 (as amended).  [extract_hyperlinks_from_docx] returns a table
    whenever the final [seek] succeeds.  A failure while inspecting one
    hyperlink run is swallowed and the extraction goes on with the next run:
    when no paragraph fails in its own accessors (text, xml, xpath), every
    paragraph is inspected, and the text of every run that can be read is a
    key of the table, whatever the other runs do.  A paragraph that fails in
    its own accessors ends the extraction: the result is the one of the
    paragraphs before it. *)
Theorem hyperlink_extraction_best_effort :
  (forall f : file_obj,
      seek f = Ok tt -> exists m, extract_hyperlinks_from_docx f = Ok m)
  /\ (forall (f : file_obj) (doc : document),
         seek f = Ok tt -> Document f = Ok doc ->
         Forall readable (paragraphs doc) ->
         exists m,
           extract_hyperlinks_from_docx f = Ok m
           /\ forall p item txt,
               In p (paragraphs doc) -> visited p item ->
               healthy (rels doc) item txt ->
               Dict.mem txt m = true)
  /\ (forall (s : outcome unit) (rels : Dict.t relationship)
             (ps1 ps2 : list paragraph) (p : paragraph),
         fails p ->
         extract_hyperlinks_from_docx
           (MkFile s (Ok (MkDoc rels (ps1 ++ p :: ps2))))
         = extract_hyperlinks_from_docx (MkFile s (Ok (MkDoc rels ps1)))).
Proof.
  split; [|split].
  - intros f Hs. unfold extract_hyperlinks_from_docx.
    destruct (Exn.try_except _ _ _) as [o m]. rewrite Hs. now exists m.
  - intros f doc Hs Hd Hr. unfold extract_hyperlinks_from_docx.
    destruct (paragraphs_loop (rels doc) (paragraphs doc) Hr []) as (m & E & _ & K).
    unfold Exn.try_except, extract_guarded, Exn.bind, Exn.lift.
    rewrite Hs, Hd. unfold Exn.bind in E. rewrite E. exists m. split; [reflexivity|].
    exact K.
  - intros s rels ps1 ps2 p Hp. unfold extract_hyperlinks_from_docx.
    pose proof (try_except_table
                  (extract_guarded (MkFile s (Ok (MkDoc rels (ps1 ++ p :: ps2)))))
                  []) as T1.
    pose proof (try_except_table
                  (extract_guarded (MkFile s (Ok (MkDoc rels ps1)))) []) as T2.
    destruct (Exn.try_except
                (extract_guarded (MkFile s (Ok (MkDoc rels (ps1 ++ p :: ps2)))))
                (Exn.ret tt) []) as [o1 m1].
    destruct (Exn.try_except
                (extract_guarded (MkFile s (Ok (MkDoc rels ps1))))
                (Exn.ret tt) []) as [o2 m2].
    simpl in T1, T2. subst m1 m2.
    replace (snd (extract_guarded
                    (MkFile s (Ok (MkDoc rels (ps1 ++ p :: ps2)))) []))
      with (snd (extract_guarded (MkFile s (Ok (MkDoc rels ps1))) []));
      [reflexivity|].
    rewrite !extract_guarded_table. destruct s; [|reflexivity].
    symmetry. now apply paragraphs_loop_cut.
Qed.

(** A paragraph with a failing run followed by a readable one. *)
Lemma hyperlink_extraction_best_effort_witness :
  exists m,
    extract_hyperlinks_from_docx
      (MkFile (Ok tt) (Ok (MkDoc home_rels [home_para]))) = Ok m
    /\ forall p item txt,
        In p [home_para] -> visited p item -> healthy home_rels item txt ->
        Dict.mem txt m = true.
Proof.
  apply (proj1 (proj2 hyperlink_extraction_best_effort)
               (MkFile (Ok tt) (Ok (MkDoc home_rels [home_para])))
               (MkDoc home_rels [home_para]) eq_refl eq_refl).
  repeat constructor. exists ("Home" : str), ("<w:p><w:hyperlink/></w:p>" : str),
    [failing_link; home_link]. repeat split.
Defined.

(** C5, the claim as stated fails: a paragraph whose xml cannot be read ends
    the whole loop, so the link of the paragraph after it is not collected;
    and a file object whose [seek] raises makes the function raise. *)
Lemma paragraph_failure_stops_extraction :
  extract_hyperlinks_from_docx
    (MkFile (Ok tt) (Ok (MkDoc home_rels [home_para])))
  = Ok [("Home" : str, "https://example.com/" : str)]
  /\ extract_hyperlinks_from_docx
       (MkFile (Ok tt) (Ok (MkDoc home_rels [broken_para; home_para])))
     = Ok []
  /\ extract_hyperlinks_from_docx
       (MkFile Raised (Ok (MkDoc home_rels [home_para])))
     = Raised.
Proof. repeat split; vm_compute; reflexivity. Qed.

(** ** Further properties *)

(** *** What the string primitives keep *)

Lemma Forall_replace_from (P : ascii -> Prop) (old new : str) :
  Forall P new ->
  forall (s : str) (k : nat), Forall P s -> Forall P (Py.replace_from old new k s).
Proof.
  intros Hn s. induction s as [|c s IH]; intros k Hs; simpl; [constructor|].
  inversion Hs as [|? ? Hc Hs']; subst.
  destruct k as [|k]; [|now apply IH].
  destruct (Py.startswith old (c :: s)).
  - apply Forall_app; split; [assumption | now apply IH].
  - constructor; [assumption | now apply IH].
Qed.

Lemma Forall_replace (P : ascii -> Prop) (o : ascii) (old new s : str) :
  Forall P new -> Forall P s -> Forall P (Py.replace (o :: old) new s).
Proof. intros Hn Hs. unfold Py.replace. now apply Forall_replace_from. Qed.

(** Removing every occurrence of a character leaves none. *)
Lemma replace_char_gone (c : ascii) (s : str) :
  Forall (fun x => x <> c) (Py.replace [c] [] s).
Proof.
  unfold Py.replace. induction s as [|x s IH]; simpl; [constructor|].
  destruct (Py.ceq c x) eqn:E; simpl.
  - exact IH.
  - constructor; [|exact IH]. intro H; subst x. now rewrite ceq_refl in E.
Qed.

Lemma Forall_firstn {A} (P : A -> Prop) (n : nat) (l : list A) :
  Forall P l -> Forall P (firstn n l).
Proof.
  intro H. revert n. induction H as [|x l Hx _ IH]; intros [|n]; simpl;
    constructor; auto.
Qed.

Lemma Forall_skipn {A} (P : A -> Prop) (n : nat) (l : list A) :
  Forall P l -> Forall P (skipn n l).
Proof.
  intro H. revert n. induction H as [|x l Hx Hl IH]; intros [|n]; simpl;
    try constructor; auto.
Qed.

Section Captures.
Variable P : ascii -> Prop.

Lemma rep_greedy_keeps (R : Type) (Q : R -> Prop) (p : ascii -> bool)
    (K : option ascii -> nat -> str -> option R) :
(forall prev pos s r, Forall P s -> K prev pos s = Some r -> Q r) ->
forall (s : str) lo hi prev pos r,
  Forall P s -> Re.rep_greedy p K lo hi prev pos s = Some r -> Q r.
Proof.
intros HK s. induction s as [|c s IH]; intros lo hi prev pos r Hs; simpl.
- destruct (lo =? 0); [apply HK; assumption | discriminate].
- inversion Hs as [|? ? Hc Hs']; subst.
  assert (Hstop : (if lo =? 0 then K prev pos (c :: s) else None) = Some r -> Q r).
  { destruct (lo =? 0); [apply HK; assumption | discriminate]. }
  destruct (p c && Re.more hi); [|exact Hstop].
  destruct (Re.rep_greedy p K (pred lo) (Re.dec hi) (Some c) (S pos) s) eqn:E.
  + intro H; injection H as <-. eapply IH; eassumption.
  + exact Hstop.
Qed.

Lemma rep_lazy_keeps (R : Type) (Q : R -> Prop) (p : ascii -> bool)
    (K : option ascii -> nat -> str -> option R) :
(forall prev pos s r, Forall P s -> K prev pos s = Some r -> Q r) ->
forall (s : str) lo hi prev pos r,
  Forall P s -> Re.rep_lazy p K lo hi prev pos s = Some r -> Q r.
Proof.
intros HK s. induction s as [|c s IH]; intros lo hi prev pos r Hs; simpl.
- destruct (if lo =? 0 then K prev pos [] else None) eqn:E; [|discriminate].
  intro H; injection H as <-.
  destruct (lo =? 0); [eapply HK; eassumption | discriminate].
- inversion Hs as [|? ? Hc Hs']; subst.
  destruct (if lo =? 0 then K prev pos (c :: s) else None) eqn:E.
  + intro H; injection H as <-.
    destruct (lo =? 0); [exact (HK _ _ _ _ Hs E) | discriminate].
  + destruct (p c && Re.more hi); [|discriminate].
    intro H. eapply IH; eassumption.
Qed.

(** The groups of a match hold characters of the subject. *)
Lemma run_caps (ml : bool) (pat : Re.pattern) :
forall prev pos (s : str) opens caps m,
  Forall P s -> good_opens P opens -> good_caps P caps ->
  Re.run ml pat prev pos s opens caps = Some m -> good_caps P (Re.m_groups m).
Proof.
induction pat as [|it pat IH]; intros prev pos s opens caps m Hs Ho Hc; simpl.
- intro H; injection H as <-. exact Hc.
- destruct it as [p|greedy lo hi p|n|n| |].
  + destruct s as [|c s]; [discriminate|].
    inversion Hs; subst. destruct (p c); [|discriminate].
    apply IH; assumption.
  + destruct greedy.
    * intro H.
      eapply (rep_greedy_keeps Re.rmatch (fun m => good_caps P (Re.m_groups m)));
        [|exact Hs|exact H].
      intros prev' pos' s' r Hs' H'. exact (IH _ _ _ _ _ _ Hs' Ho Hc H').
    * intro H.
      eapply (rep_lazy_keeps Re.rmatch (fun m => good_caps P (Re.m_groups m)));
        [|exact Hs|exact H].
      intros prev' pos' s' r Hs' H'. exact (IH _ _ _ _ _ _ Hs' Ho Hc H').
  + apply IH; try assumption. constructor; assumption.
  + destruct opens as [|[k [pos0 s0]] opens]; [discriminate|].
    inversion Ho as [|? ? H0 Ho']; subst. simpl in H0.
    apply IH; try assumption.
    constructor; [|assumption]. simpl. now apply Forall_firstn.
  + destruct (Re.at_bol ml prev); [|discriminate]. now apply IH.
  + destruct (Re.at_eol ml s); [|discriminate]. now apply IH.
Qed.

Lemma group_good (n : nat) (gs : list (nat * str)) :
good_caps P gs -> Forall P (Re.group n gs).
Proof.
induction 1 as [|[k t] gs Ht _ IH]; simpl; [constructor|].
destruct (k =? n); assumption.
Qed.

Lemma here_caps (ml : bool) (pat : Re.pattern) (prev : option ascii) (s : str)
    (m : Re.rmatch) :
Forall P s -> Re.here ml pat prev s = Some m -> good_caps P (Re.m_groups m).
Proof. intros Hs. unfold Re.here. apply run_caps; [assumption | constructor ..]. Qed.

Lemma search_from_caps (ml : bool) (pat : Re.pattern) (s : str) :
forall prev m,
  Forall P s -> Re.search_from ml pat prev s = Some m ->
  good_caps P (Re.m_groups m).
Proof.
induction s as [|c s IH]; intros prev m Hs; simpl.
- destruct (Re.here ml pat prev []) eqn:E; [|discriminate].
  intro H; injection H as <-. eapply here_caps; eassumption.
- destruct (Re.here ml pat prev (c :: s)) eqn:E.
  + intro H; injection H as <-. eapply here_caps; eassumption.
  + inversion Hs; subst. now apply IH.
Qed.

Lemma search_group (ml : bool) (pat : Re.pattern) (s : str) (m : Re.rmatch)
    (n : nat) :
Forall P s -> Re.search ml pat s = Some m -> Forall P (Re.group n (Re.m_groups m)).
Proof. intros Hs H. apply group_good. eapply search_from_caps; eassumption. Qed.

Lemma expand_good (repl : Re.template) (m : Re.rmatch) :
Forall (fun x => match x with inl t => Forall P t | inr _ => True end) repl ->
good_caps P (Re.m_groups m) -> Forall P (Re.expand repl m).
Proof.
intros Hr Hm. unfold Re.expand.
induction Hr as [|x repl Hx _ IH]; simpl; [constructor|].
apply Forall_app; split; [|exact IH].
destruct x; [assumption | now apply group_good].
Qed.

(** A substitution puts only characters of the subject and of the
  template into its result. *)
Lemma Forall_sub_from (ml : bool) (pat : Re.pattern) (repl : Re.template) :
Forall (fun x => match x with inl t => Forall P t | inr _ => True end) repl ->
forall (s : str) prev k,
  Forall P s -> Forall P (Re.sub_from ml pat repl prev k s).
Proof.
intros Hr s. induction s as [|c s IH]; intros prev k Hs.
- destruct k; simpl; [|constructor].
  destruct (Re.here ml pat prev []) eqn:E; [|constructor].
  rewrite app_nil_r. apply expand_good; [assumption|].
  eapply here_caps; eassumption.
- inversion Hs as [|? ? Hc Hs']; subst.
  destruct k; simpl; [|now apply IH].
  destruct (Re.here ml pat prev (c :: s)) eqn:E.
  + apply Forall_app; split.
    * apply expand_good; [assumption|]. exact (here_caps _ _ _ _ _ Hs E).
    * destruct (Re.m_end r); [constructor; [assumption|] |]; now apply IH.
  + constructor; [assumption | now apply IH].
Qed.

Lemma Forall_sub (ml : bool) (pat : Re.pattern) (repl : Re.template) (s : str) :
Forall (fun x => match x with inl t => Forall P t | inr _ => True end) repl ->
Forall P s -> Forall P (Re.sub ml pat repl s).
Proof. intros Hr Hs. unfold Re.sub. now apply Forall_sub_from. Qed.

Lemma Forall_strip_links (s : str) : Forall P s -> Forall P (strip_links s).
Proof.
intro Hs. unfold strip_links. apply Forall_sub; [|assumption].
repeat constructor.
Qed.

Lemma Forall_clean_nav_text (s : str) : Forall P s -> Forall P (clean_nav_text s).
Proof.
intro Hs. unfold clean_nav_text, Py.strip.
apply Forall_strip_by.
do 2 (apply Forall_replace; [constructor|]).
do 2 (apply Forall_sub; [constructor|]).
do 2 (apply Forall_replace; [constructor|]).
now apply Forall_strip_links.
Qed.

Lemma Forall_clean_markdown_link (s : str) :
Forall P s -> Forall P (clean_markdown_link s).
Proof.
intro Hs. unfold clean_markdown_link, Py.strip.
apply Forall_strip_by.
do 3 (apply Forall_replace; [constructor|]).
now apply Forall_strip_links.
Qed.
End Captures.

(** *** Substrings *)

Lemma isin_start (x s : str) : Py.startswith x s = true -> Py.isin x s = true.
Proof. intro H. destruct s; simpl; now rewrite H. Qed.

Lemma isin_app (x a b : str) : Py.isin x (a ++ x ++ b) = true.
Proof.
  induction a as [|c a IH]; simpl.
  - apply isin_start, startswith_app.
  - rewrite IH. apply orb_true_r.
Qed.

Lemma isin_inv (x s : str) :
  Py.isin x s = true -> exists a b, s = a ++ x ++ b.
Proof.
  induction s as [|c s IH]; simpl; intro H.
  - rewrite orb_false_r in H. apply startswith_inv in H as [t Ht].
    exists [], t. exact Ht.
  - apply orb_true_iff in H as [H|H].
    + apply startswith_inv in H as [t Ht]. exists [], t. exact Ht.
    + destruct (IH H) as (a & b & ->). now exists (c :: a), b.
Qed.

Lemma isin_within (x a s b : str) :
  Py.isin x s = true -> Py.isin x (a ++ s ++ b) = true.
Proof.
  intro H. apply isin_inv in H as (a' & b' & ->).
  replace (a ++ (a' ++ x ++ b') ++ b) with ((a ++ a') ++ x ++ (b' ++ b))
    by (now rewrite <- !app_assoc).
  apply isin_app.
Qed.

Lemma strip_by_within (p : ascii -> bool) (s : str) :
  exists a b, s = a ++ Py.strip_by p s ++ b.
Proof.
  unfold Py.strip_by, Py.rstrip_by, Py.lstrip_by.
  destruct (dropwhile_suffix p s) as (a & Ha & _).
  destruct (dropwhile_suffix p (rev (Py.dropwhile p s))) as (b & Hb & _).
  exists a, (rev b).
  rewrite <- rev_app_distr, <- Hb, rev_involutive. exact Ha.
Qed.

Lemma isin_strip_by (p : ascii -> bool) (x s : str) :
  Py.isin x (Py.strip_by p s) = true -> Py.isin x s = true.
Proof.
  intro H. destruct (strip_by_within p s) as (a & b & E).
  rewrite E. now apply isin_within.
Qed.

(** A word whose first and last characters are not stripped survives
    the stripping of the text around it. *)
Lemma dropwhile_keeps (p : ascii -> bool) (c : ascii) (w a b : str) :
  p c = false ->
  exists a', Py.dropwhile p (a ++ (c :: w) ++ b) = a' ++ (c :: w) ++ b.
Proof.
  intro Hc. rewrite dropwhile_app.
  destruct (forallb p a).
  - exists []. simpl. now rewrite Hc.
  - now exists (Py.dropwhile p a).
Qed.

Lemma strip_by_keeps (p : ascii -> bool) (x a b : str) :
  match x with c :: _ => p c = false | [] => False end ->
  match rev x with c :: _ => p c = false | [] => False end ->
  exists a' b', Py.strip_by p (a ++ x ++ b) = a' ++ x ++ b'.
Proof.
  intros Hh Hl. unfold Py.strip_by, Py.rstrip_by, Py.lstrip_by.
  destruct x as [|c w]; [contradiction|].
  destruct (dropwhile_keeps p c w a b Hh) as [a' ->].
  destruct (rev (c :: w)) as [|d v] eqn:Er; [contradiction|].
  rewrite !rev_app_distr, Er, <- app_assoc.
  destruct (dropwhile_keeps p d v (rev b) (rev a') Hl) as [b' ->].
  exists a', (rev b').
  rewrite !rev_app_distr, rev_involutive, <- Er, rev_involutive, <- app_assoc.
  reflexivity.
Qed.

Lemma isin_strip_by_keeps (p : ascii -> bool) (x s : str) :
  match x with c :: _ => p c = false | [] => False end ->
  match rev x with c :: _ => p c = false | [] => False end ->
  Py.isin x s = true -> Py.isin x (Py.strip_by p s) = true.
Proof.
  intros Hh Hl H. apply isin_inv in H as (a & b & ->).
  destruct (strip_by_keeps p x a b Hh Hl) as (a' & b' & ->).
  apply isin_app.
Qed.

Lemma isin_false_tail (x a b : str) :
  Py.isin x (a ++ b) = false -> Py.isin x b = false.
Proof.
  intro H. destruct (Py.isin x b) eqn:E; [|reflexivity].
  pose proof (isin_within x a b [] E) as W. rewrite app_nil_r in W.
  now rewrite W in H.
Qed.

(** *** Text cleaning *)

Lemma slug_char_alphabet (c : ascii) :
  slug_char c = true ->
  (Py.is_alnum c = true \/ c = "_"%char \/ c = "-"%char)
  /\ Py.lower_char c = c /\ Py.is_space c = false
  /\ c <> "/"%char /\ c <> "."%char.
Proof.
  intro H.
  pose proof (slug_imp
    (fun c => (Py.is_alnum c || Py.ceq c "_" || Py.ceq c "-")
              && Py.ceq (Py.lower_char c) c && negb (Py.is_space c)
              && negb (Py.ceq c "/") && negb (Py.ceq c "."))
    eq_refl c H) as F.
  cbv beta in F.
  repeat (apply andb_true_iff in F as [F ?]).
  repeat split.
  - apply orb_true_iff in F as [F|F]; [apply orb_true_iff in F as [F|F]|].
    + now left.
    + right; left. now apply ceq_eq.
    + right; right. now apply ceq_eq.
  - now apply ceq_eq.
  - now apply negb_true_iff.
  - intro E; subst c; discriminate.
  - intro E; subst c; discriminate.
Qed.

(** X1.  A slug is made of lower-case letters, digits, underscores and
    hyphens only: whatever the text, every character of
    [to_kebab_case text] is alphanumeric, '_' or '-', is its own lower
    case, and is not white space; in particular a slug holds no '/' and
    no '.'. *)
Theorem to_kebab_case_alphabet (text : str) :
  Forall (fun c => (Py.is_alnum c = true \/ c = "_"%char \/ c = "-"%char)
                   /\ Py.lower_char c = c /\ Py.is_space c = false
                   /\ c <> "/"%char /\ c <> "."%char)
         (to_kebab_case text).
Proof.
  eapply Forall_impl; [|apply to_kebab_case_chars].
  intros c H. now apply slug_char_alphabet.
Qed.

Lemma replace_stars_head (s : str) :
  Py.startswith "*" (Py.replace_from "**" [] 0 s) = true ->
  Py.startswith "*" s = true.
Proof.
  destruct s as [|d s]; [discriminate|].
  cbn [Py.replace_from].
  destruct (Py.startswith "**" (d :: s)) eqn:G.
  - intros _.
    change (Py.startswith "**" (d :: s))
      with (Py.ceq "*" d && Py.startswith "*" s) in G.
    apply andb_true_iff in G as [G _].
    change (Py.ceq "*" d && true = true). now rewrite G.
  - intro F. exact F.
Qed.

Lemma replace_stars_from (s : str) :
  Py.isin "**" (Py.replace_from "**" [] 0 s) = false
  /\ Py.isin "**" (Py.replace_from "**" [] 1 s) = false.
Proof.
  induction s as [|c s [IH0 IH1]]; [split; reflexivity|].
  split; [|exact IH0].
  cbn [Py.replace_from].
  destruct (Py.startswith "**" (c :: s)) eqn:E; [exact IH1|].
  cbn [Py.isin]. rewrite IH0, orb_false_r.
  destruct (Py.startswith "**" (c :: Py.replace_from "**" [] 0 s)) eqn:F;
    [|reflexivity].
  exfalso.
  change (Py.ceq "*" c && Py.startswith "*" s = false) in E.
  change (Py.ceq "*" c && Py.startswith "*" (Py.replace_from "**" [] 0 s) = true)
    in F.
  apply andb_true_iff in F as [Fc F].
  apply replace_stars_head in F. rewrite Fc, F in E. discriminate.
Qed.

Lemma replace_stars_gone (s : str) : Py.isin "**" (Py.replace "**" "" s) = false.
Proof. apply replace_stars_from. Qed.

Lemma isin_strip_false (x s : str) :
  Py.isin x s = false -> Py.isin x (Py.strip s) = false.
Proof.
  intro H. destruct (Py.isin x (Py.strip s)) eqn:E; [|reflexivity].
  apply isin_strip_by in E. congruence.
Qed.

Lemma strip_strip (s : str) : Py.strip (Py.strip s) = Py.strip s.
Proof. apply strip_by_idem. Qed.

Lemma clean_nav_text_no_hash (x : str) :
  Forall (fun c => c <> "#"%char) (clean_nav_text x).
Proof.
  unfold clean_nav_text, Py.strip.
  apply Forall_strip_by, Forall_replace; [constructor|].
  apply (replace_char_gone "#").
Qed.

Lemma clean_nav_text_trimmed (x : str) :
  Py.strip (clean_nav_text x) = clean_nav_text x.
Proof. unfold clean_nav_text. apply strip_strip. Qed.

Lemma clean_nav_text_no_stars (x : str) : Py.isin "**" (clean_nav_text x) = false.
Proof. unfold clean_nav_text. apply isin_strip_false, replace_stars_gone. Qed.

(** X2.  The text that [clean_nav_text] returns holds no brace, no '#'
    and no '**', and has no white space at either end. *)
Theorem clean_nav_text_shape (text : str) :
  Forall (fun c => c <> "{"%char /\ c <> "}"%char /\ c <> "#"%char)
         (clean_nav_text text)
  /\ Py.isin "**" (clean_nav_text text) = false
  /\ Py.strip (clean_nav_text text) = clean_nav_text text.
Proof.
  split; [|split; [apply clean_nav_text_no_stars | apply clean_nav_text_trimmed]].
  apply Forall_forall. intros c Hc. repeat split.
  - revert c Hc. apply Forall_forall.
    unfold clean_nav_text, Py.strip.
    apply Forall_strip_by.
    do 2 (apply Forall_replace; [constructor|]).
    do 2 (apply Forall_sub; [constructor|]).
    apply Forall_replace; [constructor|].
    apply (replace_char_gone "{").
  - revert c Hc. apply Forall_forall.
    unfold clean_nav_text, Py.strip.
    apply Forall_strip_by.
    do 2 (apply Forall_replace; [constructor|]).
    do 2 (apply Forall_sub; [constructor|]).
    apply (replace_char_gone "}").
  - revert c Hc. apply Forall_forall. apply clean_nav_text_no_hash.
Qed.

(** X3.  The text that [clean_markdown_link] returns holds no backslash
    and no angle bracket, and has no white space at either end. *)
Theorem clean_markdown_link_shape (text : str) :
  Forall (fun c => c <> "\"%char /\ c <> "<"%char /\ c <> ">"%char)
         (clean_markdown_link text)
  /\ Py.strip (clean_markdown_link text) = clean_markdown_link text.
Proof.
  split; [|unfold clean_markdown_link; apply strip_strip].
  apply Forall_forall. intros c Hc. repeat split.
  - revert c Hc. apply Forall_forall.
    unfold clean_markdown_link, Py.strip.
    apply Forall_strip_by.
    do 2 (apply Forall_replace; [constructor|]).
    apply (replace_char_gone "\").
  - revert c Hc. apply Forall_forall.
    unfold clean_markdown_link, Py.strip.
    apply Forall_strip_by.
    apply Forall_replace; [constructor|].
    apply (replace_char_gone "<").
  - revert c Hc. apply Forall_forall.
    unfold clean_markdown_link, Py.strip.
    apply Forall_strip_by.
    apply (replace_char_gone ">").
Qed.

(** No excluded keyword starts or ends with white space. *)
Lemma keyword_edges (keyword : str) :
  In keyword EXCLUDED_KEYWORDS ->
  match keyword with c :: _ => Py.is_space c = false | [] => False end
  /\ match rev keyword with c :: _ => Py.is_space c = false | [] => False end.
Proof.
  revert keyword. apply Forall_forall.
  repeat constructor.
Qed.

Lemma keyword_in_stripped (keyword s : str) :
  In keyword EXCLUDED_KEYWORDS ->
  Py.isin keyword (Py.strip s) = Py.isin keyword s.
Proof.
  intro Hk. destruct (keyword_edges keyword Hk) as [Hh Hl].
  destruct (Py.isin keyword s) eqn:E.
  - now apply isin_strip_by_keeps.
  - now apply isin_strip_false.
Qed.

(** X4.  A page is skipped exactly when its title, put in lower case,
    contains one of the excluded keywords, or when its content has fewer
    than ten characters between its first and last non-blank ones.  The
    white space around the title plays no part. *)
Theorem should_skip_page_iff (title content : str) :
  should_skip_page title content = true
  <-> (exists keyword, In keyword EXCLUDED_KEYWORDS
                       /\ Py.isin keyword (Py.lower title) = true)
      \/ List.length (Py.strip content) < 10.
Proof.
  unfold should_skip_page.
  destruct (existsb _ EXCLUDED_KEYWORDS) eqn:E.
  - split; [intros _ | reflexivity].
    left. apply existsb_exists in E as (k & Hk & H).
    exists k. split; [exact Hk|]. now rewrite keyword_in_stripped in H.
  - destruct (List.length (Py.strip content) <? 10) eqn:L.
    + split; [intros _ | reflexivity]. right. now apply Nat.ltb_lt.
    + split; [discriminate|].
      intros [(k & Hk & H) | H].
      * assert (X : existsb (fun keyword => Py.isin keyword (Py.strip (Py.lower title)))
                            EXCLUDED_KEYWORDS = true).
        { apply existsb_exists. exists k. split; [exact Hk|].
          now rewrite keyword_in_stripped. }
        congruence.
      * apply Nat.ltb_lt in H. congruence.
Qed.

(** *** Dictionaries *)

Lemma dict_mem_in {V} (k : str) (d : Dict.t V) :
  Dict.mem k d = true <-> In k (Dict.keys d).
Proof.
  unfold Dict.mem, Dict.keys. induction d as [|[k' v] d IH]; simpl.
  - split; [discriminate | contradiction].
  - destruct (Py.eqb k' k) eqn:E.
    + apply eqb_eq in E. split; [now left | reflexivity].
    + apply eqb_neq in E. rewrite IH. split; [now right | intros [H|H]; tauto].
Qed.

Lemma dict_keys_set {V} (k : str) (v : V) (d : Dict.t V) :
  Dict.keys (Dict.set k v d)
  = if Dict.mem k d then Dict.keys d else Dict.keys d ++ [k].
Proof.
  unfold Dict.mem, Dict.keys. induction d as [|[k' w] d IH]; simpl; [reflexivity|].
  destruct (Py.eqb k' k) eqn:E; simpl; [reflexivity|].
  rewrite IH. now destruct (Dict.get k d).
Qed.

Lemma dict_get_mem {V} (k : str) (d : Dict.t V) (v : V) :
  Dict.get k d = Some v -> Dict.mem k d = true.
Proof. unfold Dict.mem. now intros ->. Qed.

Lemma dict_keys_nodup_set {V} (k : str) (v : V) (d : Dict.t V) :
  NoDup (Dict.keys d) -> NoDup (Dict.keys (Dict.set k v d)).
Proof.
  intro H. rewrite dict_keys_set.
  destruct (Dict.mem k d) eqn:E; [exact H|].
  apply NoDup_rev in H. rewrite <- (rev_involutive (Dict.keys d ++ [k])).
  apply NoDup_rev. rewrite rev_app_distr. simpl.
  constructor; [|exact H].
  rewrite <- in_rev. intro Hin. apply dict_mem_in in Hin. congruence.
Qed.

Lemma mem_set_same_any {V} (k : str) (v : V) (d : Dict.t V) :
  Dict.mem k (Dict.set k v d) = true.
Proof. now rewrite dict_mem_set, eqb_refl. Qed.

(** *** Navigation *)

Lemma nav_kind_truthy (line : str) :
  match nav_kind_of line with
  | NavSkip => True
  | NavChild t | NavParent t => Py.truthy t = true
  end.
Proof.
  unfold nav_kind_of.
  destruct (negb (Py.truthy (Py.strip line)) || Py.isin "Dev Note" (Py.strip line));
    [exact I|].
  destruct (Py.truthy (clean_nav_text (Py.strip line))) eqn:E; simpl; [|exact I].
  now destruct (matches list_pattern (Py.strip line)).
Qed.

Lemma nav_wf_step (st : nav_state) (line : str) :
  nav_wf st -> nav_wf (nav_line st line).
Proof.
  intros Hst. pose proof Hst as (Hcur & Hnd & Hall). rewrite nav_line_kind.
  pose proof (nav_kind_truthy line) as Ht.
  destruct (nav_kind_of line) as [|c|p]; [exact Hst| |].
  - destruct (current_parent st) as [parent|] eqn:Ec; [|exact Hst].
    destruct (Py.truthy parent) eqn:Etp; [|exact Hst].
    destruct (Dict.get parent (nav_structure st)) as [children|] eqn:Eg;
      [|exact Hst].
    split; [|split]; simpl.
    + intros q Hq. injection Hq as <-. destruct (Hcur parent eq_refl) as [H1 H2].
      split; [exact H1|]. rewrite dict_mem_set, H2. apply orb_true_r.
    + now apply dict_keys_nodup_set.
    + apply Forall_forall. intros [q w] Hin.
      apply dict_set_in in Hin as [[-> ->]|Hin]; simpl.
      * apply dict_get_in in Eg.
        rewrite Forall_forall in Hall. destruct (Hall _ Eg) as [H1 H2].
        split; [exact H1|]. apply Forall_app; split; [exact H2|].
        constructor; [exact Ht | constructor].
      * rewrite Forall_forall in Hall. exact (Hall _ Hin).
  - split; [|split]; simpl.
    + intros q Hq. injection Hq as <-. split; [exact Ht|].
      destruct (Dict.mem p (nav_structure st)) eqn:E; [exact E|].
      apply mem_set_same_any.
    + destruct (Dict.mem p (nav_structure st)); [exact Hnd|].
      now apply dict_keys_nodup_set.
    + destruct (Dict.mem p (nav_structure st)); [exact Hall|].
      apply Forall_forall. intros [q w] Hin.
      apply dict_set_in in Hin as [[-> ->]|Hin]; simpl.
      * split; [exact Ht | constructor].
      * rewrite Forall_forall in Hall. exact (Hall _ Hin).
Qed.

(** X5.  While [generate_nav_yaml] reads the lines, the current parent is
    always a non-empty key of the structure, so that appending a child to
    it cannot raise KeyError; the parents of the structure are distinct,
    and no parent and no child is the empty text.  This holds after any
    number of lines. *)
Theorem nav_structure_well_formed (lines : list str) :
  (forall p, current_parent (build_nav lines) = Some p ->
             Py.truthy p = true
             /\ Dict.mem p (nav_structure (build_nav lines)) = true)
  /\ NoDup (Dict.keys (nav_structure (build_nav lines)))
  /\ Forall (fun entry => Py.truthy (fst entry) = true
                          /\ Forall (fun c => Py.truthy c = true) (snd entry))
            (nav_structure (build_nav lines)).
Proof.
  change (nav_wf (build_nav lines)). unfold build_nav.
  apply fold_keeps; [apply nav_wf_step|].
  split; [discriminate | split; constructor].
Qed.

(** *** Patterns that need a character *)

Section Needs.
Variable p : ascii -> bool.

Lemma rep_greedy_none (R : Type) (q : ascii -> bool)
    (K : option ascii -> nat -> str -> option R) :
(forall prev pos s, Forall (fun c => p c = false) s -> K prev pos s = None) ->
forall (s : str) lo hi prev pos,
  Forall (fun c => p c = false) s -> Re.rep_greedy q K lo hi prev pos s = None.
Proof.
intros HK s. induction s as [|c s IH]; intros lo hi prev pos Hs; simpl.
- destruct (lo =? 0); [now apply HK | reflexivity].
- inversion Hs as [|? ? Hc Hs']; subst.
  rewrite (IH _ _ _ _ Hs').
  rewrite (HK prev pos (c :: s) Hs).
  now destruct (q c && Re.more hi), (lo =? 0).
Qed.

Lemma rep_lazy_none (R : Type) (q : ascii -> bool)
    (K : option ascii -> nat -> str -> option R) :
(forall prev pos s, Forall (fun c => p c = false) s -> K prev pos s = None) ->
forall (s : str) lo hi prev pos,
  Forall (fun c => p c = false) s -> Re.rep_lazy q K lo hi prev pos s = None.
Proof.
intros HK s. induction s as [|c s IH]; intros lo hi prev pos Hs; simpl.
- rewrite (HK prev pos [] Hs). now destruct (lo =? 0).
- inversion Hs as [|? ? Hc Hs']; subst.
  rewrite (IH _ _ _ _ Hs').
  rewrite (HK prev pos (c :: s) Hs).
  now destruct (q c && Re.more hi), (lo =? 0).
Qed.

(** A pattern with an item that asks for one character of [p] matches
  nowhere in a text that has none. *)
Lemma run_needs (ml : bool) (pat : Re.pattern) :
In (Re.Chr p) pat ->
forall prev pos (s : str) opens caps,
  Forall (fun c => p c = false) s -> Re.run ml pat prev pos s opens caps = None.
Proof.
induction pat as [|it pat IH]; intros Hin prev pos s opens caps Hs;
  [contradiction|].
destruct Hin as [->|Hin].
- simpl. destruct s as [|c s]; [reflexivity|].
  inversion Hs as [|? ? Hc _]; subst. now rewrite Hc.
- specialize (IH Hin).
  destruct it as [q|greedy lo hi q|n|n| |]; simpl.
  + destruct s as [|c s]; [reflexivity|].
    inversion Hs; subst. destruct (q c); [now apply IH | reflexivity].
  + destruct greedy; [apply rep_greedy_none | apply rep_lazy_none];
      try assumption; intros; now apply IH.
  + now apply IH.
  + destruct opens as [|[k [pos0 s0]] opens]; [reflexivity | now apply IH].
  + destruct (Re.at_bol ml prev); [now apply IH | reflexivity].
  + destruct (Re.at_eol ml s); [now apply IH | reflexivity].
Qed.

Lemma search_needs (ml : bool) (pat : Re.pattern) (s : str) :
In (Re.Chr p) pat ->
Forall (fun c => p c = false) s -> Re.search ml pat s = None.
Proof.
intros Hin. unfold Re.search. generalize (@None ascii).
induction s as [|c s IH]; intros prev Hs; simpl; unfold Re.here;
  rewrite (run_needs ml pat Hin _ _ _ _ _ Hs); [reflexivity|].
inversion Hs; subst. now apply IH.
Qed.
End Needs.

Lemma Forall_split (P : ascii -> Prop) (sep : ascii) (s : str) :
  Forall P s -> Forall (Forall P) (Py.split sep s).
Proof.
  induction 1 as [|c s Hc Hs IH]; simpl; [repeat constructor|].
  destruct (Py.ceq c sep); [constructor; [constructor | exact IH]|].
  destruct (Py.split sep s) as [|w ws]; [repeat constructor; assumption|].
  inversion IH; subst. constructor; [constructor|]; assumption.
Qed.

(** *** Reviews *)

Lemma review_line_ok (st : review_state) (line : str) :
  Forall review_ok (reviews_data st) ->
  Forall review_ok (reviews_data (review_line st line)).
Proof.
  intro H. unfold review_line.
  destruct (negb (Py.truthy (Py.strip line))); [exact H|].
  destruct (Re.search false trailing_paren_re _) as [m|]; [|exact H].
  destruct (match Re.search false sentence_split_re _ with
            | Some split => _ | None => _ end) as [review_text source].
  cbn [reviews_data].
  destruct (Py.truthy (Py.replace "**" "" _)) eqn:E; [|exact H].
  apply Forall_app; split; [exact H|].
  constructor; [|constructor].
  repeat split; cbn [service_type r_text r_source r_service].
  - exact E.
  - apply replace_stars_gone.
  - apply replace_stars_gone.
  - eexists; split; [reflexivity | apply replace_stars_gone].
Qed.

(** X6.  Every review that [generate_reviews_yaml] emits has a text that
    is not empty, a service written between parentheses, and no '**' left
    in its text, its source or its service; [service_type] is never
    filled in. *)
Theorem reviews_well_formed (raw_text : str) :
  Forall (fun r => service_type r = None
                   /\ Py.truthy (r_text r) = true
                   /\ Py.isin "**" (r_text r) = false
                   /\ Py.isin "**" (r_source r) = false
                   /\ exists service, r_service r = "(" ++ service ++ ")"
                                      /\ Py.isin "**" service = false)
         (generate_reviews_yaml raw_text).
Proof.
  unfold generate_reviews_yaml.
  apply (fold_keeps (fun st => Forall review_ok (reviews_data st))).
  - apply review_line_ok.
  - constructor.
Qed.

Lemma review_line_no_paren (st : review_state) (line : str) :
  Forall (fun c => Re.lit ")" c = false) line ->
  reviews_data (review_line st line) = reviews_data st.
Proof.
  intro H. unfold review_line.
  destruct (negb (Py.truthy (Py.strip line))); [reflexivity|].
  rewrite (search_needs (Re.lit ")") false trailing_paren_re); [reflexivity| |].
  - unfold trailing_paren_re. simpl. tauto.
  - unfold Py.strip. now apply Forall_strip_by, Forall_strip_links, Forall_strip_by.
Qed.

Lemma review_fold_no_paren (lines : list str) :
  Forall (Forall (fun c => Re.lit ")" c = false)) lines ->
  forall st, reviews_data (fold_left review_line lines st) = reviews_data st.
Proof.
  induction 1 as [|l lines Hl _ IH]; intro st; simpl; [reflexivity|].
  rewrite IH. now apply review_line_no_paren.
Qed.

(** X7.  A review is recognised only on a line that ends with a
    parenthesised service: a text without any ')' gives no review at
    all. *)
Theorem reviews_need_parenthesis (raw_text : str) :
  Py.isin ")" raw_text = false -> generate_reviews_yaml raw_text = [].
Proof.
  intro H. apply isin_char_false in H.
  unfold generate_reviews_yaml. rewrite review_fold_no_paren; [reflexivity|].
  apply Forall_split, Forall_replace; [repeat constructor|].
  apply Forall_sub; [constructor | exact H].
Qed.

Lemma reviews_need_parenthesis_witness :
  generate_reviews_yaml "Great service! - Jane D." = [].
Proof. apply (reviews_need_parenthesis "Great service! - Jane D."). reflexivity. Defined.

(** *** Page content *)

Lemma blank_line_lower (line : str) :
  negb (Py.truthy (Py.strip line)) = true ->
  Py.replace "\" "" (Py.lower (Py.strip line)) = [].
Proof. destruct (Py.strip line); [reflexivity | discriminate]. Qed.

(** X8.  A line that carries one of the tags [[hero image]],
    [[para_subheader]], [[promo...], [[hero_promo]] or [[cta...] (in any
    letter case, backslashes apart) adds nothing to the body of the page,
    whatever the state of the loop. *)
Theorem tag_lines_stay_out_of_body
        (hyperlink_map : Dict.t str) (page_slug : str) (st : page_state)
        (line : str) :
  is_tag_line line = true ->
  body_lines (data (page_line hyperlink_map page_slug st line))
  = body_lines (data st).
Proof.
  unfold is_tag_line, page_line. cbv zeta.
  set (stripped := Py.strip line).
  destruct (negb (Py.truthy stripped)) eqn:Eb.
  { unfold stripped. rewrite (blank_line_lower line Eb). discriminate. }
  set (line_lower := Py.replace "\" "" (Py.lower stripped)).
  intro Htag.
  destruct (Py.isin "how can we help" line_lower && Py.isin "##" stripped);
    [reflexivity|].
  pose proof (service_box_block_body st stripped line_lower) as H1.
  destruct (service_box_block st stripped line_lower) as [st'|st1]; [exact H1|].
  pose proof (pre_body_block_body st1 stripped) as H2.
  destruct (pre_body_block st1 stripped) as [st'|st2]; [congruence|].
  rewrite <- H1, <- H2.
  destruct (Py.isin "[hero image]" line_lower); [apply hero_block_body|].
  destruct (Py.isin "[para_subheader]" line_lower).
  { destruct (extract_tag_value stripped "para_subheader" false) as [val|];
      [destruct (Py.truthy val)|]; reflexivity. }
  destruct (Py.isin "[promo" line_lower || Py.isin "[hero_promo]" line_lower);
    [reflexivity|].
  destruct (Py.isin "[cta" line_lower); [apply cta_block_body | discriminate].
Qed.

Lemma tag_lines_stay_out_of_body_witness :
  body_lines (data (page_line [] "home" (page_init "Home Page" [])
                              "[CTA] Call us today"))
  = [].
Proof.
  apply (tag_lines_stay_out_of_body [] "home" (page_init "Home Page" [])
                                    "[CTA] Call us today").
  reflexivity.
Defined.

Lemma ends_nonblank_cons (l : list str) :
  ends_nonblank l = true -> exists x l', l = x :: l'.
Proof. destruct l as [|x l']; [discriminate | now exists x, l']. Qed.

Lemma append_body_head (l : list str) (cleaned : str) :
  Py.truthy cleaned = true -> head_nonblank l = true ->
  head_nonblank (append_body l cleaned) = true.
Proof.
  intros Hc Hl. unfold append_body.
  destruct l as [|x l'].
  - cbn [ends_nonblank Py.last_opt andb]. rewrite andb_false_r. exact Hc.
  - set (l1 := if Py.startswith "#" cleaned && ends_nonblank (x :: l')
               then (x :: l') ++ [[]] else x :: l').
    assert (E1 : exists t, l1 = x :: t).
    { unfold l1. destruct (_ && _); eexists; reflexivity. }
    destruct E1 as [t ->].
    destruct (ends_nonblank (x :: t)); [|exact Hl].
    destruct (_ && _); exact Hl.
Qed.

Lemma body_change_head (l l' : list str) :
  body_change l l' -> head_nonblank l = true -> head_nonblank l' = true.
Proof.
  intros [|Hb|cleaned Hc] Hl.
  - exact Hl.
  - apply ends_nonblank_cons in Hb as (x & t & ->). exact Hl.
  - now apply append_body_head.
Qed.

(** X9.  The body of a page never begins with an empty line: after any
    number of lines, the first body line, if there is one, is not
    empty. *)
Theorem body_starts_with_text
        (hyperlink_map : Dict.t str) (page_title : str) (queue : list image_task)
        (lines : list str) :
  head_nonblank
    (body_lines
       (data (fold_left (page_line hyperlink_map (page_slug_of page_title)) lines
                        (page_init page_title queue))))
  = true.
Proof.
  apply (fold_keeps (fun st => head_nonblank (body_lines (data st)) = true)).
  - intros st l H. eapply body_change_head; [apply page_line_body | exact H].
  - reflexivity.
Qed.

Lemma queue_step_refl (page_slug : str) (st : page_state) :
  queue_step page_slug st st.
Proof. repeat split; now left. Qed.

Lemma queue_step_same (page_slug : str) (st st' : page_state) :
  title (data st') = title (data st) ->
  hero_image (data st') = hero_image (data st) ->
  image_queue st' = image_queue st ->
  queue_step page_slug st st'.
Proof. intros H1 H2 H3. repeat split; try assumption. now left. Qed.

Lemma queue_step_trans (page_slug : str) (a b c : page_state) :
  title (data b) = title (data a) ->
  hero_image (data b) = hero_image (data a) ->
  image_queue b = image_queue a ->
  queue_step page_slug b c -> queue_step page_slug a c.
Proof.
  intros H1 H2 H3 (T & I & Q). unfold queue_step.
  rewrite <- H1, <- H2, <- H3. auto.
Qed.

Lemma service_box_block_step (page_slug : str) (st : page_state)
      (stripped line_lower : str) :
  match service_box_block st stripped line_lower with
  | Continue st' | Fall st' =>
      title (data st') = title (data st)
      /\ hero_image (data st') = hero_image (data st)
      /\ image_queue st' = image_queue st
  end.
Proof.
  unfold service_box_block.
  destruct (is_service_box st); [|now repeat split].
  destruct (_ && _); [now repeat split|].
  destruct (Py.isin "[p]" line_lower); [now repeat split|].
  destruct (_ && _); now repeat split.
Qed.

Lemma pre_body_block_step (st : page_state) (stripped : str) :
  match pre_body_block st stripped with
  | Continue st' | Fall st' =>
      title (data st') = title (data st)
      /\ hero_image (data st') = hero_image (data st)
      /\ image_queue st' = image_queue st
  end.
Proof.
  unfold pre_body_block.
  destruct (negb (is_body_started st)); [|now repeat split].
  destruct (Py.startswith "##" stripped); [now repeat split|].
  destruct (_ || _); now repeat split.
Qed.

Lemma page_line_queue (hm : Dict.t str) (page_slug : str) (st : page_state)
      (line : str) :
  queue_step page_slug st (page_line hm page_slug st line).
Proof.
  unfold page_line. cbv zeta.
  set (stripped := Py.strip line).
  set (line_lower := Py.replace "\" "" (Py.lower stripped)).
  destruct (negb (Py.truthy stripped)).
  { destruct (_ && _); now apply queue_step_same. }
  destruct (Py.isin "how can we help" line_lower && Py.isin "##" stripped);
    [now apply queue_step_same|].
  pose proof (service_box_block_step page_slug st stripped line_lower) as H1.
  destruct (service_box_block st stripped line_lower) as [st'|st1];
    destruct H1 as (T1 & I1 & Q1); [now apply queue_step_same|].
  pose proof (pre_body_block_step st1 stripped) as H2.
  destruct (pre_body_block st1 stripped) as [st'|st2];
    destruct H2 as (T2 & I2 & Q2); [apply queue_step_same; congruence|].
  apply (queue_step_trans page_slug st st2); try congruence.
  destruct (Py.isin "[hero image]" line_lower).
  { unfold hero_block.
    destruct (extract_tag_value stripped "hero image" true) as [v|];
      [|apply queue_step_refl].
    destruct (Py.truthy v); [|apply queue_step_refl].
    repeat split. right. eexists. reflexivity. }
  destruct (Py.isin "[para_subheader]" line_lower).
  { destruct (extract_tag_value stripped "para_subheader" false) as [val|];
      [destruct (Py.truthy val)|]; now apply queue_step_same. }
  destruct (Py.isin "[promo" line_lower || Py.isin "[hero_promo]" line_lower);
    [now apply queue_step_same|].
  destruct (Py.isin "[cta" line_lower).
  { unfold cta_block. destruct (cta_value stripped) as [val|];
      [destruct (Py.truthy val)|]; now apply queue_step_same. }
  unfold body_block. destruct (Py.isin "##" stripped); now apply queue_step_same.
Qed.

Lemma page_fold_queue (hm : Dict.t str) (page_slug : str) (lines : list str) :
  forall st,
    title (data (fold_left (page_line hm page_slug) lines st)) = title (data st)
    /\ hero_image (data (fold_left (page_line hm page_slug) lines st))
       = hero_image (data st)
    /\ exists added,
         image_queue (fold_left (page_line hm page_slug) lines st)
         = image_queue st ++ added
         /\ Forall (fun t => filename t = page_slug) added
         /\ List.length added <= List.length lines.
Proof.
  induction lines as [|l lines IH]; intro st; simpl.
  - split; [reflexivity | split; [reflexivity|]].
    exists []. rewrite app_nil_r.
    split; [reflexivity | split; [constructor | simpl; lia]].
  - destruct (IH (page_line hm page_slug st l)) as (T & I & added & Q & F & L).
    destruct (page_line_queue hm page_slug st l) as (T1 & I1 & Q1).
    split; [congruence | split; [congruence|]].
    destruct Q1 as [Q1 | [u Q1]]; rewrite Q1 in Q.
    + exists added. split; [exact Q | split; [exact F | lia]].
    + exists (MkTask u page_slug :: added).
      rewrite <- app_assoc in Q.
      split; [exact Q | split; [|simpl; lia]].
      constructor; [reflexivity | exact F].
Qed.

Lemma flat_map_prefix {A B} (f : A -> list B) (l1 l2 : list A) (rest : list B) :
  flat_map f (l1 ++ l2) ++ rest = flat_map f l1 ++ (flat_map f l2 ++ rest).
Proof. now rewrite flat_map_app, <- app_assoc. Qed.

(** X10.  [parse_page_content] never removes or reorders what is in the
    image queue: it appends at most one task per line of the page, and
    every task it appends is named after the slug of the page.  Whatever
    the lines of the page, the text it returns starts with the front
    matter in which [title:] is followed by the cleaned title and, under
    [hero:], [image:] by the slug of the page. *)
Theorem page_images_named_after_slug
        (raw_text page_title : str) (queue : list image_task)
        (hyperlink_map : Dict.t str) :
  (exists rest,
      fst (fst (parse_page_content raw_text page_title queue hyperlink_map))
      = flat_map (fun l : str => l ++ [nl])
          [ "---" : str;
            "layout: post-sidebar" : str;
            "title: " ++ clean_title_of page_title;
            "title_override:" : str;
            "category: services" : str;
            "body_class:" : str;
            "show_steps_banner:" : str;
            "# top_review_slider:" : str;
            "#     show_slider: true" : str;
            "#     custom_class: " ++ [dquote] ++ "block lg:hidden" ++ [dquote];
            "# bottom_review_slider:" : str;
            "#     hide_slider: " : str;
            "#     custom_class: " ++ [dquote] ++ "hidden lg:block" ++ [dquote];
            [];
            "hero:" : str;
            "  variant: split" : str;
            "  image: " ++ page_slug_of page_title ]
        ++ rest)
  /\ title (data (page_loop raw_text page_title queue hyperlink_map))
     = clean_title_of page_title
  /\ hero_image (data (page_loop raw_text page_title queue hyperlink_map))
     = page_slug_of page_title
  /\ exists added,
       snd (parse_page_content raw_text page_title queue hyperlink_map)
       = queue ++ added
       /\ Forall (fun t => filename t = page_slug_of page_title) added
       /\ List.length added <= List.length (Py.split nl raw_text).
Proof.
  pose proof (page_fold_queue hyperlink_map (page_slug_of page_title)
                (Py.split nl raw_text) (page_init page_title queue)) as H.
  unfold parse_page_content, page_loop. cbn [fst snd].
  set (st := fold_left _ _ _) in *.
  split; [|exact H].
  destruct H as (T & I & _). cbn [page_init data title hero_image] in T, I.
  unfold front_matter. rewrite T, I.
  eexists.
  match goal with
  | |- _ = flat_map ?f ?l1 ++ _ => refine (flat_map_prefix f l1 _ _)
  end.
Qed.

(** *** The service box *)

Lemma help_heading_truthy (line : str) :
  is_help_heading line = true -> negb (Py.truthy (Py.strip line)) = false.
Proof.
  unfold is_help_heading. cbv zeta.
  destruct (Py.strip line); [|reflexivity].
  rewrite andb_false_r. discriminate.
Qed.

Lemma service_box_block_box (st : page_state) (stripped line_lower : str) :
  Py.truthy (Py.strip stripped) = true ->
  box_inv st ->
  match service_box_block st stripped line_lower with
  | Continue st' | Fall st' => has_box st' = has_box st /\ box_inv st'
  end.
Proof.
  intros Hs Hinv. pose proof Hinv as [Hb Hc]. unfold service_box_block.
  destruct (is_service_box st) eqn:Ein; [|now split].
  destruct (_ && _).
  { split; [reflexivity|]. split; [discriminate | exact Hc]. }
  unfold box_inv, has_box, cards_ok in *.
  destruct (Py.isin "[p]" line_lower).
  { cbn [service_box set_box is_service_box].
    destruct (service_box st) as [b|]; cbn [option_map cards];
      repeat split; auto. }
  destruct (_ && _); [|now split].
  cbn [service_box set_box is_service_box].
  destruct (service_box st) as [b|]; cbn [option_map cards];
    repeat split; auto.
  apply Forall_app; split; [exact Hc|].
  constructor; [|constructor]. split; [reflexivity|].
  cbn [card_title]. now apply clean_body_line_truthy.
Qed.

Lemma pre_body_block_box (st : page_state) (stripped : str) :
  match pre_body_block st stripped with
  | Continue st' | Fall st' =>
      service_box st' = service_box st /\ is_service_box st' = is_service_box st
  end.
Proof.
  unfold pre_body_block.
  destruct (negb (is_body_started st)); [|now split].
  destruct (Py.startswith "##" stripped); [now split|].
  destruct (_ || _); now split.
Qed.

Lemma page_line_rest_box (hm : Dict.t str) (page_slug : str) (st : page_state)
      (stripped line_lower : str) :
  let st' :=
    if Py.isin "[hero image]" line_lower then
      hero_block hm page_slug st stripped
    else if Py.isin "[para_subheader]" line_lower then
      match extract_tag_value stripped "para_subheader" false with
      | Some val =>
          if Py.truthy val
          then with_data (set_subheader (Py.replace "**" "" val)) st
          else st
      | None => st
      end
    else if Py.isin "[promo" line_lower || Py.isin "[hero_promo]" line_lower then
      let promo := Re.sub false promo_re [] stripped in
      with_data (add_promo (Py.replace "**" "" (clean_nav_text promo))) st
    else if Py.isin "[cta" line_lower then cta_block st stripped
    else body_block st stripped in
  service_box st' = service_box st /\ is_service_box st' = is_service_box st.
Proof.
  cbv zeta.
  destruct (Py.isin "[hero image]" line_lower).
  { unfold hero_block.
    destruct (extract_tag_value stripped "hero image" true) as [v|];
      [destruct (Py.truthy v)|]; now split. }
  destruct (Py.isin "[para_subheader]" line_lower).
  { destruct (extract_tag_value stripped "para_subheader" false) as [val|];
      [destruct (Py.truthy val)|]; now split. }
  destruct (Py.isin "[promo" line_lower || Py.isin "[hero_promo]" line_lower);
    [now split|].
  destruct (Py.isin "[cta" line_lower).
  { unfold cta_block. destruct (cta_value stripped) as [val|];
      [destruct (Py.truthy val)|]; now split. }
  unfold body_block. destruct (Py.isin "##" stripped); now split.
Qed.

Lemma page_line_box (hm : Dict.t str) (page_slug : str) (st : page_state)
      (line : str) :
  box_inv st ->
  has_box (page_line hm page_slug st line) = has_box st || is_help_heading line
  /\ box_inv (page_line hm page_slug st line).
Proof.
  intro Hinv. unfold page_line, is_help_heading. cbv zeta.
  set (stripped := Py.strip line).
  set (line_lower := Py.replace "\" "" (Py.lower stripped)).
  destruct (negb (Py.truthy stripped)) eqn:Eb.
  { assert (E : Py.isin "##" stripped = false).
    { destruct stripped; [reflexivity | discriminate]. }
    rewrite E, andb_false_r, orb_false_r.
    destruct (_ && _); now split. }
  destruct (Py.isin "how can we help" line_lower && Py.isin "##" stripped).
  { rewrite orb_true_r. split; [reflexivity|].
    split; [reflexivity | constructor]. }
  rewrite orb_false_r.
  assert (Hs : Py.truthy (Py.strip stripped) = true).
  { unfold stripped. apply truthy_strip_strip. fold stripped.
    now apply negb_false_iff in Eb. }
  pose proof (service_box_block_box st stripped line_lower Hs Hinv) as H1.
  destruct (service_box_block st stripped line_lower) as [st'|st1];
    [exact H1|]. destruct H1 as [B1 I1].
  pose proof (pre_body_block_box st1 stripped) as H2.
  destruct (pre_body_block st1 stripped) as [st'|st2]; destruct H2 as [S2 N2].
  { unfold box_inv, has_box, cards_ok in *. rewrite S2, N2. now split. }
  destruct (page_line_rest_box hm page_slug st2 stripped line_lower) as [S3 N3].
  cbv zeta in S3, N3.
  unfold box_inv, has_box, cards_ok in *. rewrite S3, N3, S2, N2. now split.
Qed.

Lemma page_fold_box (hm : Dict.t str) (page_slug : str) (lines : list str) :
  forall st,
    box_inv st ->
    has_box (fold_left (page_line hm page_slug) lines st)
    = has_box st || existsb is_help_heading lines
    /\ box_inv (fold_left (page_line hm page_slug) lines st).
Proof.
  induction lines as [|l lines IH]; intros st Hinv; simpl.
  - now rewrite orb_false_r.
  - destruct (page_line_box hm page_slug st l Hinv) as [H1 I1].
    destruct (IH _ I1) as [H2 I2].
    split; [|exact I2]. now rewrite H2, H1, orb_assoc.
Qed.

Lemma box_inv_init (page_title : str) (queue : list image_task) :
  box_inv (page_init page_title queue).
Proof. split; [discriminate | exact I]. Qed.

(** X11.  [parse_page_content] returns a service box exactly when some
    line of the page is a '##' heading that contains [how can we help] (in
    any letter case, backslashes apart).  While the loop is in service-box
    mode the box exists, so the assignments to its sub-heading and cards
    cannot fail. *)
Theorem service_box_iff_help_heading
        (raw_text page_title : str) (queue : list image_task)
        (hyperlink_map : Dict.t str) :
  match snd (fst (parse_page_content raw_text page_title queue hyperlink_map)) with
  | Some _ => true
  | None => false
  end = existsb is_help_heading (Py.split nl raw_text)
  /\ forall lines : list str,
       let st := fold_left (page_line hyperlink_map (page_slug_of page_title))
                           lines (page_init page_title queue) in
       is_service_box st = true -> service_box st <> None.
Proof.
  split.
  - unfold parse_page_content, page_loop. cbn [fst snd].
    apply (page_fold_box hyperlink_map (page_slug_of page_title)
                         (Py.split nl raw_text) (page_init page_title queue)
                         (box_inv_init page_title queue)).
  - intros lines st Hin.
    destruct (page_fold_box hyperlink_map (page_slug_of page_title) lines
                            (page_init page_title queue)
                            (box_inv_init page_title queue)) as [_ [Hb _]].
    fold st in Hb. specialize (Hb Hin). unfold has_box in Hb.
    destruct (service_box st); [discriminate | discriminate].
Qed.

(** X12.  Every card of the service box of a page has a title that is not
    empty and the kebab-case of that title as its slug; so the cards that
    [generate_services_yaml] writes for the page are, in the same order,
    the titles with the permalinks [/services/<kebab-case of the title>/],
    under the variant [image]. *)
Theorem service_cards_link_to_their_slug
        (raw_text page_title : str) (queue : list image_task)
        (hyperlink_map : Dict.t str) (box : service_box_data) :
  snd (fst (parse_page_content raw_text page_title queue hyperlink_map))
  = Some box ->
  Forall (fun c => Py.truthy (card_title c) = true) (cards box)
  /\ generate_services_yaml (Some box)
     = Some (MkServices (heading box) (sub_heading box) "image"
               (map (fun c => MkCardData (card_title c)
                                ("/services/" ++ to_kebab_case (card_title c) ++ "/")
                                "[center_10%]")
                    (cards box))).
Proof.
  unfold parse_page_content, page_loop. cbn [fst snd]. intro H.
  destruct (page_fold_box hyperlink_map (page_slug_of page_title)
                          (Py.split nl raw_text) (page_init page_title queue)
                          (box_inv_init page_title queue)) as [_ [_ Hc]].
  unfold cards_ok in Hc. rewrite H in Hc.
  split.
  - eapply Forall_impl; [|exact Hc]. now intros c [_ Ht].
  - unfold generate_services_yaml. do 2 f_equal.
    apply map_ext_in. intros c Hin.
    rewrite Forall_forall in Hc. destruct (Hc c Hin) as [-> _]. reflexivity.
Qed.

Lemma service_cards_link_to_their_slug_witness :
  Forall (fun c => Py.truthy (card_title c) = true) (cards help_box)
  /\ generate_services_yaml (Some help_box)
     = Some (MkServices (heading help_box) (sub_heading help_box) "image"
               (map (fun c => MkCardData (card_title c)
                                ("/services/" ++ to_kebab_case (card_title c) ++ "/")
                                "[center_10%]")
                    (cards help_box))).
Proof.
  apply (service_cards_link_to_their_slug help_page "Home Page" [] [] help_box).
  vm_compute. reflexivity.
Defined.

(** *** Section segmentation *)

Lemma replace_hash_clean (s : str) :
  Py.replace "#" "" (clean_nav_text s) = clean_nav_text s.
Proof.
  apply replace_absent.
  eapply Forall_impl; [|apply clean_nav_text_no_hash].
  intros c Hc. destruct (Py.ceq "#" c) eqn:E; [|reflexivity].
  apply ceq_eq in E. now subst c.
Qed.

(** The name the segmenter gives to a page is the cleaned line itself. *)
Lemma page_name_is_clean (s : str) :
  Py.strip (Py.replace "#" "" (clean_nav_text s)) = clean_nav_text s.
Proof. rewrite replace_hash_clean. apply clean_nav_text_trimmed. Qed.

Lemma page_name_not_reserved (k : str) :
  Py.isin "customer reviews" (Py.lower k) = true
  \/ no_keyword (Py.lower k) = true ->
  k <> ("Navigation" : str) /\ k <> ("00_Ignore" : str).
Proof. intros [H|H]; split; intros ->; discriminate. Qed.

Lemma dict_get_set_other {V} (k q : str) (v : V) (d : Dict.t V) :
  k <> q -> Dict.get q (Dict.set k v d) = Dict.get q d.
Proof.
  intro Hne. induction d as [|[k' w] d IH]; simpl.
  - apply eqb_neq in Hne. now rewrite Hne.
  - destruct (Py.eqb k' k) eqn:E; simpl.
    + apply eqb_eq in E. subst k'. apply eqb_neq in Hne. now rewrite Hne.
    + now rewrite IH.
Qed.

Lemma section_ok_set (k : str) (v : section_value) (d : Dict.t section_value) :
  section_ok (k, v) -> Forall section_ok d -> Forall section_ok (Dict.set k v d).
Proof.
  intros Hk Hd. apply Forall_forall. intros [q w] Hin.
  apply dict_set_in in Hin as [[-> ->]|Hin]; [exact Hk|].
  rewrite Forall_forall in Hd. exact (Hd _ Hin).
Qed.

Lemma commit_ok (st : segment_state) : seg_inv st -> Forall section_ok (commit st).
Proof.
  intros [Hs Hc]. unfold commit.
  destruct (current_content st); [exact Hs|].
  destruct (Py.eqb (current_page st) "00_Ignore") eqn:E; [exact Hs|].
  apply section_ok_set; [|exact Hs].
  destruct Hc as [Hc|Hc]; [|exact Hc].
  apply eqb_neq in E. contradiction.
Qed.

Lemma commit_navigation (st : segment_state) :
  seg_inv st ->
  Dict.get "Navigation" (commit st) = Dict.get "Navigation" (sections st).
Proof.
  intros [Hs Hc]. unfold commit.
  destruct (current_content st); [reflexivity|].
  destruct (Py.eqb (current_page st) "00_Ignore") eqn:E; [reflexivity|].
  apply dict_get_set_other.
  destruct Hc as [Hc|(_ & _ & _ & Hc)].
  - apply eqb_neq in E. contradiction.
  - now apply page_name_not_reserved.
Qed.

Lemma isin_false_chars (c : ascii) (s : str) :
  Py.isin [c] s = false -> Forall (fun x => x <> c) s.
Proof.
  intro H. apply isin_char_false in H.
  eapply Forall_impl; [|exact H].
  intros x Hx ->. now rewrite ceq_refl in Hx.
Qed.

Lemma segment_line_inv (targets : list str) (st : segment_state) (line : str) :
  seg_inv st ->
  seg_inv (segment_line targets st line)
  /\ Dict.get "Navigation" (sections (segment_line targets st line))
     = Dict.get "Navigation" (sections st).
Proof.
  intro Hinv. pose proof Hinv as [Hs Hc]. unfold segment_line. cbv zeta.
  set (stripped := Py.strip line).
  set (clean := clean_nav_text stripped).
  destruct (_ || _).
  { split; [|reflexivity]. split; [exact Hs | now left]. }
  destruct (negb (has_passed_footer st)); [now split|].
  set (keep := MkSeg (sections st) (current_page st) _ (has_passed_footer st)).
  assert (Hkeep : seg_inv keep
                  /\ Dict.get "Navigation" (sections keep)
                     = Dict.get "Navigation" (sections st)).
  { split; [|reflexivity]. split; assumption. }
  destruct ((_ || _ || _ || _) && (List.length clean <? 80)
            && negb (Py.isin "[" stripped)) eqn:Ecand; [|exact Hkeep].
  apply andb_true_iff in Ecand as [Ecand Ebr].
  apply andb_true_iff in Ecand as [_ Elen].
  destruct (negb (if Py.isin "customer reviews" (Py.lower clean) then false
                  else existsb (fun exc => Py.isin exc (Py.lower clean))
                               EXCLUDED_KEYWORDS)) eqn:Eexc; [|exact Hkeep].
  cbn [sections current_page].
  split; [|now apply commit_navigation].
  split; [now apply commit_ok|].
  right. cbn [current_page]. unfold clean. rewrite page_name_is_clean.
  fold clean. unfold page_name_ok. repeat split.
  - apply Forall_forall. intros c Hin. split.
    + pose proof (clean_nav_text_no_hash stripped) as Hh.
      rewrite Forall_forall in Hh. now apply Hh.
    + revert c Hin. apply Forall_forall. apply Forall_clean_nav_text.
      apply isin_false_chars. now apply negb_true_iff in Ebr.
  - now apply Nat.ltb_lt.
  - apply clean_nav_text_trimmed.
  - unfold no_keyword.
    destruct (Py.isin "customer reviews" (Py.lower clean)); [now left|].
    right. exact Eexc.
Qed.

Lemma segment_fold_inv (targets : list str) (lines : list str) :
  forall st,
    seg_inv st ->
    seg_inv (fold_left (segment_line targets) lines st)
    /\ Dict.get "Navigation" (sections (fold_left (segment_line targets) lines st))
       = Dict.get "Navigation" (sections st).
Proof.
  induction lines as [|l lines IH]; intros st Hinv; cbn [fold_left]; [now split|].
  destruct (segment_line_inv targets st l Hinv) as [H1 G1].
  destruct (IH _ H1) as [H2 G2].
  split; [exact H2 | etransitivity; [exact G2 | exact G1]].
Qed.

Lemma capture_line_inv (st : nav_capture) (line : str) :
  cap_inv st -> cap_inv (capture_line st line).
Proof.
  intro H. unfold capture_line. cbv zeta.
  destruct (_ && _); [exact H|].
  destruct (is_capturing_nav st); [|exact H].
  destruct (_ || _); [|exact H].
  right. unfold cap_inv in H. cbn [cap_sections].
  destruct H as [->|[l ->]]; eexists; reflexivity.
Qed.

Lemma capture_fold_inv (lines : list str) :
  cap_inv (fold_left capture_line lines (MkCapture [] [] false false)).
Proof. apply fold_keeps; [apply capture_line_inv | now left]. Qed.

Lemma cap_inv_ok (st : nav_capture) :
  cap_inv st -> Forall section_ok (cap_sections st).
Proof. intros [->|[l ->]]; repeat constructor. Qed.

Lemma process_docx_ok (raw_md : str) : Forall section_ok (process_docx raw_md).
Proof.
  unfold process_docx, segment_lines. cbv zeta.
  set (lines := Py.split nl raw_md).
  set (cap := fold_left capture_line lines (MkCapture [] [] false false)).
  assert (Hcap : cap_inv cap) by apply capture_fold_inv.
  assert (Hinit : seg_inv (MkSeg (cap_sections cap) "00_Ignore" [] false)).
  { split; [now apply cap_inv_ok | now left]. }
  destruct (segment_fold_inv (target_pages_of (cap_sections cap)) lines _ Hinit)
    as [Hfin _].
  now apply commit_ok.
Qed.

(** X13.  The section map of [process_docx] is typed by its keys: a list
    of lines is stored under [Navigation] only, and every other key, a
    page name, holds the text of the page.  A page name has no '#' and no
    '[', is shorter than 80 characters, has no white space at either end,
    and contains no excluded keyword in any letter case unless it contains
    [customer reviews]; in particular a page is never named [Navigation]
    and the text of a page never replaces the navigation lines. *)
Theorem sections_are_typed (raw_md : str) :
  Forall (fun kv =>
            match snd kv with
            | NavLines _ => fst kv = ("Navigation" : str)
            | Text _ =>
                fst kv <> ("Navigation" : str)
                /\ Forall (fun c => c <> "#"%char /\ c <> "["%char) (fst kv)
                /\ List.length (fst kv) < 80
                /\ Py.strip (fst kv) = fst kv
                /\ (Py.isin "customer reviews" (Py.lower (fst kv)) = true
                    \/ Forall (fun exc => Py.isin exc (Py.lower (fst kv)) = false)
                              EXCLUDED_KEYWORDS)
            end)
         (process_docx raw_md).
Proof.
  eapply Forall_impl; [|apply process_docx_ok].
  intros [k v]. unfold section_ok. cbn [fst snd].
  destruct v as [l|content]; [exact (fun H => H)|].
  intros (Hc & Hl & Ht & Hk).
  split; [now apply page_name_not_reserved|].
  repeat split; try assumption.
  destruct Hk as [Hk|Hk]; [now left|]. right.
  unfold no_keyword in Hk. apply negb_true_iff in Hk.
  apply Forall_forall. intros exc Hin.
  destruct (Py.isin exc (Py.lower k)) eqn:E; [|reflexivity].
  assert (X : existsb (fun exc => Py.isin exc (Py.lower k)) EXCLUDED_KEYWORDS = true).
  { apply existsb_exists. now exists exc. }
  congruence.
Qed.

Lemma split_head (sep : ascii) (s : str) :
  exists w ws b, Py.split sep s = w :: ws /\ s = w ++ b.
Proof.
  induction s as [|c s (w & ws & b & E & Hs)]; simpl.
  - now exists [], [], [].
  - destruct (Py.ceq c sep).
    + now exists [], (Py.split sep s), (c :: s).
    + rewrite E. exists (c :: w), ws, b. split; [reflexivity|]. simpl. now rewrite <- Hs.
Qed.

(** Every piece of a split is a part of the text. *)
Lemma split_within (sep : ascii) (s : str) :
  forall l, In l (Py.split sep s) -> exists a b, s = a ++ l ++ b.
Proof.
  induction s as [|c s IH]; intros l Hin; simpl in Hin.
  - destruct Hin as [<-|[]]. now exists [], [].
  - destruct (Py.ceq c sep).
    + destruct Hin as [<-|Hin]; [now exists [], (c :: s)|].
      destruct (IH l Hin) as (a & b & ->). now exists (c :: a), b.
    + destruct (split_head sep s) as (w & ws & b & E & Hs).
      rewrite E in Hin, IH. destruct Hin as [<-|Hin].
      * exists [], b. simpl. now rewrite <- Hs.
      * destruct (IH l (or_intror Hin)) as (a & b' & ->). now exists (c :: a), b'.
Qed.

Lemma segment_idle (targets : list str) (lines : list str) :
  Forall (fun l => is_footer l = false) lines ->
  forall st, has_passed_footer st = false ->
             fold_left (segment_line targets) lines st = st.
Proof.
  induction 1 as [|l lines Hl _ IH]; intros st Hst; cbn [fold_left]; [reflexivity|].
  assert (E : segment_line targets st l = st).
  { unfold segment_line. cbv zeta. unfold is_footer in Hl.
    change (Py.isin START_MARKER (Py.strip l)) with (Py.isin "Footer (All Pages)" (Py.strip l)).
    now rewrite Hl, Hst. }
  rewrite E. now apply IH.
Qed.

Lemma lines_without_footer (raw_md : str) :
  Py.isin "Footer (All Pages)" raw_md = false ->
  Forall (fun l => is_footer l = false) (Py.split nl raw_md).
Proof.
  intro H. apply Forall_forall. intros l Hin.
  unfold is_footer. destruct (Py.isin _ (Py.strip l)) eqn:E; [|reflexivity].
  apply isin_strip_by in E.
  destruct (split_within nl raw_md l Hin) as (a & b & Hs).
  rewrite Hs, (isin_within _ a l b E) in H. discriminate.
Qed.

(** X14.  Pages are read only after the footer marker: a document that
    does not contain [Footer (All Pages)] gives no page at all.  Its
    section map is empty or holds the navigation lines alone, and the
    bundle made from it has no entry: no page, no review file, no service
    file and no image. *)
Theorem no_footer_no_page (raw_md : str) :
  Py.isin "Footer (All Pages)" raw_md = false ->
  (process_docx raw_md = []
   \/ exists l, process_docx raw_md = [("Navigation" : str, NavLines l)])
  /\ forall (get : web) (hyperlink_map : Dict.t str),
       convert get (process_docx raw_md) hyperlink_map = Some (MkBundle [] 0 []).
Proof.
  intro H.
  assert (C : cap_inv (MkCapture (process_docx raw_md) [] false false)).
  { unfold cap_inv, process_docx, segment_lines. cbv zeta.
    rewrite segment_idle; [|now apply lines_without_footer | reflexivity].
    unfold commit. cbn [current_content sections cap_sections].
    apply capture_fold_inv. }
  unfold cap_inv in C. cbn [cap_sections] in C.
  split; [exact C|].
  intros get hm. destruct C as [->|[l ->]]; reflexivity.
Qed.

Lemma no_footer_no_page_witness :
  process_docx ("# Home Page" ++ [nl] ++ "Some content here") = []
  \/ exists l, process_docx ("# Home Page" ++ [nl] ++ "Some content here")
               = [("Navigation" : str, NavLines l)].
Proof.
  apply (no_footer_no_page ("# Home Page" ++ [nl] ++ "Some content here")).
  reflexivity.
Defined.

(** *** The navigation block *)

Lemma capture_idle (lines : list str) :
  forall st,
    is_capturing_nav st = false ->
    nav_captured st = true \/ Forall (fun l => is_nav_marker l = false) lines ->
    fold_left capture_line lines st = st.
Proof.
  induction lines as [|l lines IH]; intros st Hc Hm; cbn [fold_left];
    [reflexivity|].
  assert (E : capture_line st l = st).
  { unfold capture_line. cbv zeta. rewrite Hc.
    destruct Hm as [Hm|Hm].
    - now rewrite Hm.
    - inversion Hm as [|? ? Hl _]; subst. unfold is_nav_marker in Hl.
      now rewrite Hl, andb_false_r. }
  rewrite E. apply IH; [exact Hc|].
  destruct Hm as [Hm|Hm]; [now left | right; now inversion Hm].
Qed.

Lemma capture_block (block : list str) :
  Forall (fun l => is_nav_marker l || negb (is_nav_end l) = true) block ->
  forall sections lines,
    fold_left capture_line block (MkCapture sections lines true false)
    = MkCapture sections
                (lines ++ map Py.strip (filter (fun l => negb (is_nav_marker l)) block))
                true false.
Proof.
  induction 1 as [|l block Hl _ IH]; intros sections lines; cbn [fold_left].
  - simpl. now rewrite app_nil_r.
  - assert (E : capture_line (MkCapture sections lines true false) l
                = MkCapture sections
                            (if is_nav_marker l then lines else lines ++ [Py.strip l])
                            true false).
    { destruct (is_nav_marker l) eqn:Em.
      - unfold capture_line. cbv zeta.
        cbn [nav_captured is_capturing_nav cap_sections nav_lines negb andb].
        unfold is_nav_marker in Em. now rewrite Em.
      - cbn [orb] in Hl. apply negb_true_iff in Hl.
        unfold capture_line. cbv zeta.
        cbn [nav_captured is_capturing_nav cap_sections nav_lines negb andb].
        unfold is_nav_marker in Em. rewrite Em.
        unfold is_nav_end in Hl. cbv zeta in Hl. now rewrite Hl. }
    rewrite E, IH. cbn [filter].
    destruct (is_nav_marker l); cbn [negb map]; [reflexivity|].
    now rewrite <- app_assoc.
Qed.

Lemma segment_lines_navigation (lines : list str) :
  Dict.get "Navigation" (segment_lines lines)
  = Dict.get "Navigation"
             (cap_sections (fold_left capture_line lines
                                      (MkCapture [] [] false false))).
Proof.
  unfold segment_lines. cbv zeta.
  set (cap := fold_left capture_line lines (MkCapture [] [] false false)).
  assert (Hinit : seg_inv (MkSeg (cap_sections cap) "00_Ignore" [] false)).
  { split; [apply cap_inv_ok, capture_fold_inv | now left]. }
  destruct (segment_fold_inv (target_pages_of (cap_sections cap)) lines _ Hinit)
    as [Hfin G].
  rewrite (commit_navigation _ Hfin). exact G.
Qed.

(** X15.  The navigation lines of the section map are the lines between
    the first line that contains [Navigation (All Pages)] and the first
    heading that closes the block after it (a line that starts with '# ',
    or with '## ' and without [Navigation]), each stripped, the marker lines
    among them left out; what comes after the closing heading plays no
    part.  A block that no heading closes is not recorded: the section map
    then has no navigation at all, as it has none without a marker. *)
Theorem navigation_block (pre block post : list str) (marker closing : str) :
  Forall (fun l => is_nav_marker l = false) pre ->
  is_nav_marker marker = true ->
  Forall (fun l => is_nav_marker l || negb (is_nav_end l) = true) block ->
  (is_nav_marker closing = false -> is_nav_end closing = true ->
   Dict.get "Navigation"
            (segment_lines (pre ++ marker :: block ++ closing :: post))
   = Some (NavLines
             (map Py.strip (filter (fun l => negb (is_nav_marker l)) block))))
  /\ Dict.mem "Navigation" (segment_lines (pre ++ marker :: block)) = false
  /\ Dict.mem "Navigation" (segment_lines pre) = false.
Proof.
  intros Hpre Hm Hblock.
  assert (E1 : capture_line (MkCapture [] [] false false) marker
               = MkCapture [] [] true false).
  { unfold capture_line. cbv zeta. unfold is_nav_marker in Hm. now rewrite Hm. }
  split; [|split].
  - intros Hc He.
    rewrite segment_lines_navigation, fold_left_app.
    rewrite (capture_idle pre); [|reflexivity | now right].
    cbn [fold_left].
    rewrite E1, fold_left_app, (capture_block block Hblock). cbn [fold_left app].
    set (l := map Py.strip _).
    assert (E2 : capture_line (MkCapture [] l true false) closing
                 = MkCapture [("Navigation" : str, NavLines l)] l false true).
    { unfold capture_line. cbv zeta. unfold is_nav_marker, is_nav_end in Hc, He.
      cbv zeta in He. rewrite Hc. cbn [negb andb is_capturing_nav nav_captured].
      now rewrite He. }
    rewrite E2, (capture_idle post); [reflexivity | reflexivity | now left].
  - unfold Dict.mem. rewrite segment_lines_navigation, fold_left_app.
    rewrite (capture_idle pre); [|reflexivity | now right].
    cbn [fold_left]. now rewrite E1, (capture_block block Hblock).
  - unfold Dict.mem. rewrite segment_lines_navigation.
    now rewrite (capture_idle pre); [|reflexivity | now right].
Qed.

Lemma navigation_block_witness :
  Dict.get "Navigation" (segment_lines nav_example)
  = Some (NavLines [ "Services" : str; "- Drain Cleaning" : str ]).
Proof.
  refine (proj1 (navigation_block [ "Intro" : str ]
                   [ "Services" : str; "  - Drain Cleaning" : str ]
                   [ "# Home Page" : str ]
                   "## Navigation (All Pages)" "# Footer (All Pages)" _ _ _) _ _);
    repeat constructor.
Defined.

(** *** The hyperlink table *)

Section Hoare.
Variable Inv : Dict.t str -> Prop.

Lemma hoare_ret {A} (a : A) (Q : A -> Prop) : Q a -> hoare Inv (Exn.ret a) Q.
Proof. intros H m Hm. now split. Qed.

Lemma hoare_lift {A} (o : outcome A) (Q : A -> Prop) :
(forall a, o = Ok a -> Q a) -> hoare Inv (Exn.lift o) Q.
Proof.
intros H m Hm. split; [exact Hm|]. simpl. destruct o; [now apply H | exact I].
Qed.

Lemma hoare_bind {A B} (c : Exn.M A) (k : A -> Exn.M B)
    (Q : A -> Prop) (R : B -> Prop) :
hoare Inv c Q -> (forall a, Q a -> hoare Inv (k a) R) -> hoare Inv (Exn.bind c k) R.
Proof.
intros Hc Hk m Hm. unfold Exn.bind.
destruct (Hc m Hm) as [H1 H2]. destruct (c m) as [[a|] m']; simpl in *.
- now apply Hk.
- now split.
Qed.

Lemma hoare_try {A} (c handler : Exn.M A) (Q : A -> Prop) :
hoare Inv c Q -> hoare Inv handler Q ->
hoare Inv (Exn.try_except c handler) Q.
Proof.
intros Hc Hh m Hm. unfold Exn.try_except.
destruct (Hc m Hm) as [H1 H2]. destruct (c m) as [[a|] m']; simpl in *.
- now split.
- now apply Hh.
Qed.

Lemma hoare_for_each {A S} (l : list A) (body : S -> A -> Exn.M S) (Q : S -> Prop) :
(forall s a, Q s -> hoare Inv (body s a) Q) ->
forall s, Q s -> hoare Inv (Exn.for_each l body s) Q.
Proof.
intro Hb. induction l as [|x l IH]; intros s Hs; simpl.
- now apply hoare_ret.
- eapply hoare_bind; [now apply Hb | exact IH].
Qed.

Lemma hoare_weaken {A} (c : Exn.M A) (Q R : A -> Prop) :
(forall a, Q a -> R a) -> hoare Inv c Q -> hoare Inv c R.
Proof.
intros HQR Hc m Hm. destruct (Hc m Hm) as [H1 H2]. split; [exact H1|].
destruct (fst (c m)); [now apply HQR | exact I].
Qed.
End Hoare.

Lemma replace_spaces_idem (s : str) :
  Py.replace " " "" (Py.replace " " "" s) = Py.replace " " "" s.
Proof.
  apply replace_absent.
  eapply Forall_impl; [|apply (replace_char_gone " ")].
  intros c Hc. destruct (Py.ceq " " c) eqn:E; [|reflexivity].
  apply ceq_eq in E. now subst c.
Qed.

Lemma visible_without_spaces (s : str) :
  visible s = true -> visible (Py.replace " " "" s) = true.
Proof.
  intro H. unfold visible.
  apply (existsb_replace (Re.neg Py.is_space) " " [] [] s); [|exact H].
  repeat constructor.
Qed.

Lemma visible_strip (s : str) :
  Py.truthy (Py.strip s) = true -> visible (Py.strip s) = true.
Proof.
  intro H. unfold visible, Py.strip in *.
  rewrite truthy_strip_by in H.
  rewrite existsb_strip_by; [exact H|].
  intros c Hc. now apply negb_true_iff in Hc.
Qed.

Lemma visible_truthy (s : str) : visible s = true -> Py.truthy s = true.
Proof. apply truthy_existsb. Qed.

Lemma store_pair_ok (rels : Dict.t relationship) (a u : str) :
  visible a = true -> from_rels rels u ->
  hoare (table_ok rels)
        (Exn.store a u ;;; Exn.store (Py.replace " " "" a) u)
        (fun _ => True).
Proof.
  intros Ha Hu m [Hall Hclosed]. unfold Exn.bind, Exn.store. cbn [fst snd].
  split; [|exact I]. split.
  - apply Forall_forall. intros [q w] Hin.
    rewrite Forall_forall in Hall.
    apply dict_set_in in Hin as [[-> ->]|Hin];
      [split; [now apply visible_without_spaces | exact Hu]|].
    apply dict_set_in in Hin as [[-> ->]|Hin]; [now split|].
    exact (Hall _ Hin).
  - intros k Hk. rewrite !dict_mem_set in *.
    apply orb_true_iff in Hk as [Hk|Hk].
    + apply eqb_eq in Hk. subst k. now rewrite replace_spaces_idem, eqb_refl.
    + apply orb_true_iff in Hk as [Hk|Hk].
      * apply eqb_eq in Hk. subst k. now rewrite eqb_refl.
      * rewrite (Hclosed k Hk). now rewrite !orb_true_r.
Qed.

Lemma inspect_hyperlink_ok (rels : Dict.t relationship) (found : option str)
      (item : hyperlink_elem) :
  found_ok rels found ->
  hoare (table_ok rels) (inspect_hyperlink rels found item) (found_ok rels).
Proof.
  intro Hf. unfold inspect_hyperlink.
  eapply hoare_bind; [apply (hoare_lift _ _ (fun _ => True)); auto|].
  intros rid _.
  destruct (if truthy_opt rid then rid else None) as [r|];
    [|now apply hoare_ret].
  destruct (Dict.get r rels) as [rel|] eqn:Er; [|now apply hoare_ret].
  eapply hoare_bind;
    [apply (hoare_lift _ _ (fun url => target_ref rel = Ok url)); auto|].
  intros url Hurl.
  eapply hoare_bind; [apply (hoare_lift _ _ (fun _ => True)); auto|].
  intros text_nodes _.
  assert (Hu : from_rels rels url) by (now exists r, rel).
  eapply hoare_bind with (Q := fun _ => True).
  - destruct (Py.truthy (Py.strip _)) eqn:Et; [|now apply hoare_ret].
    apply store_pair_ok; [now apply visible_strip | exact Hu].
  - intros _ _. apply hoare_ret.
    destruct (negb (truthy_opt found)); [exact Hu | exact Hf].
Qed.

Lemma inspect_paragraph_ok (rels : Dict.t relationship) (p : paragraph) :
  hoare (table_ok rels) (inspect_paragraph rels p) (fun _ => True).
Proof.
  unfold inspect_paragraph.
  eapply hoare_bind; [apply (hoare_lift _ _ (fun _ => True)); auto|].
  intros t _.
  eapply hoare_bind; [apply (hoare_lift _ _ (fun _ => True)); auto|].
  intros xml _.
  eapply hoare_bind with (Q := found_ok rels).
  - destruct (Py.isin "w:hyperlink" xml); [|now apply hoare_ret].
    eapply hoare_bind; [apply (hoare_lift _ _ (fun _ => True)); auto|].
    intros items _.
    apply hoare_for_each; [|exact I].
    intros found item Hf.
    apply hoare_try; [now apply inspect_hyperlink_ok | now apply hoare_ret].
  - intros found Hf.
    destruct found as [u|]; cbn [truthy_opt]; [|now apply hoare_ret].
    destruct (Py.truthy u); [|now apply hoare_ret].
    apply hoare_for_each; [|exact I].
    intros _ tag _.
    destruct (Py.isin tag (Py.lower (Py.strip t))); [|now apply hoare_ret].
    destruct (Py.truthy (Py.strip _)) eqn:Et; [|now apply hoare_ret].
    apply store_pair_ok; [now apply visible_strip | exact Hf].
Qed.

Lemma extract_guarded_ok (f : file_obj) :
  forall m,
    m = [] ->
    match Document f with
    | Ok doc => table_ok (rels doc) (snd (extract_guarded f m))
    | Raised => snd (extract_guarded f m) = []
    end.
Proof.
  intros m ->. unfold extract_guarded, Exn.bind, Exn.lift.
  destruct (seek f); [|now destruct (Document f); [split; [constructor | discriminate]|]].
  destruct (Document f) as [doc|]; [|reflexivity].
  apply (hoare_for_each (table_ok (rels doc)) (paragraphs doc)
           (fun _ p => inspect_paragraph (rels doc) p) (fun _ => True)).
  - intros _ p _. apply inspect_paragraph_ok.
  - exact I.
  - split; [constructor | discriminate].
Qed.

(** X16.  The table that [extract_hyperlinks_from_docx] returns holds
    nothing made up: every key has a character that is not white space (so
    no key is empty), every url is the target of a relationship of the
    document, and with a key the table has the same key without its
    spaces.  Where the document cannot be opened the table is empty. *)
Theorem hyperlink_table_sound (f : file_obj) (table : Dict.t str) :
  extract_hyperlinks_from_docx f = Ok table ->
  match Document f with
  | Ok doc =>
      Forall (fun kv =>
                existsb (fun c => negb (Py.is_space c)) (fst kv) = true
                /\ exists r rel, Dict.get r (rels doc) = Some rel
                                 /\ target_ref rel = Ok (snd kv))
             table
      /\ forall k, Dict.mem k table = true ->
                   Dict.mem (Py.replace " " "" k) table = true
  | Raised => table = []
  end.
Proof.
  unfold extract_hyperlinks_from_docx, Exn.try_except, Exn.ret.
  pose proof (extract_guarded_ok f [] eq_refl) as H.
  destruct (extract_guarded f []) as [[[]|] m]; cbn [snd] in H;
    (destruct (seek f); [|discriminate]); intro E; injection E as <-; exact H.
Qed.

Lemma hyperlink_table_sound_witness :
  Forall (fun kv =>
            existsb (fun c => negb (Py.is_space c)) (fst kv) = true
            /\ exists r rel, Dict.get r home_rels = Some rel
                             /\ target_ref rel = Ok (snd kv))
         [ ("Home" : str, "https://example.com/" : str) ]
  /\ forall k, Dict.mem k [ ("Home" : str, "https://example.com/" : str) ] = true ->
               Dict.mem (Py.replace " " "" k)
                        [ ("Home" : str, "https://example.com/" : str) ] = true.
Proof.
  exact (hyperlink_table_sound home_file
           [ ("Home" : str, "https://example.com/" : str) ] eq_refl).
Defined.

(** *** What a match has read

    [reads ml pat pos s opens caps m]: some way through [pat] reads the
    start of [s] from offset [pos] and ends in the match [m].  Every
    successful run of the matcher is such a way. *)

Section RepSound.
Variable R : Type.
Variable p : ascii -> bool.
Variable K : option ascii -> nat -> str -> option R.

Lemma rep_greedy_sound (s : str) :
forall lo hi prev pos r,
  Re.rep_greedy p K lo hi prev pos s = Some r ->
  exists a s' prev',
    s = a ++ s' /\ forallb p a = true /\ lo <= List.length a
    /\ within hi (List.length a) /\ K prev' (pos + List.length a) s' = Some r.
Proof.
assert (Stop : forall lo hi prev pos (t : str) r,
           (if lo =? 0 then K prev pos t else None) = Some r ->
           exists a s' prev',
             t = a ++ s' /\ forallb p a = true /\ lo <= List.length a
             /\ within hi (List.length a)
             /\ K prev' (pos + List.length a) s' = Some r).
{ intros lo hi prev pos t r H. destruct (lo =? 0) eqn:E; [|discriminate].
  apply Nat.eqb_eq in E. exists [], t, prev. simpl. rewrite Nat.add_0_r.
  repeat split; try assumption; try lia. destruct hi; simpl; [lia | exact I]. }
induction s as [|c s IH]; intros lo hi prev pos r; simpl.
- apply Stop.
- destruct (p c && Re.more hi) eqn:E; [|apply Stop].
  destruct (Re.rep_greedy p K (pred lo) (Re.dec hi) (Some c) (S pos) s) eqn:G;
    [|apply Stop].
  intro H; injection H as <-.
  apply andb_true_iff in E as [Ec Em].
  destruct (IH _ _ _ _ _ G) as (a & s' & prev' & -> & Ha & Hlo & Hhi & HK).
  exists (c :: a), s', prev'. simpl. rewrite Ec, Ha.
  replace (pos + S (List.length a)) with (S pos + List.length a) by lia.
  repeat split; try assumption; try lia.
  destruct hi as [h|]; simpl in *; [|exact I].
  apply negb_true_iff, Nat.eqb_neq in Em. lia.
Qed.

Lemma rep_lazy_sound (s : str) :
forall lo hi prev pos r,
  Re.rep_lazy p K lo hi prev pos s = Some r ->
  exists a s' prev',
    s = a ++ s' /\ forallb p a = true /\ lo <= List.length a
    /\ within hi (List.length a) /\ K prev' (pos + List.length a) s' = Some r.
Proof.
assert (Stop : forall lo hi prev pos (t : str) r,
           (if lo =? 0 then K prev pos t else None) = Some r ->
           exists a s' prev',
             t = a ++ s' /\ forallb p a = true /\ lo <= List.length a
             /\ within hi (List.length a)
             /\ K prev' (pos + List.length a) s' = Some r).
{ intros lo hi prev pos t r H. destruct (lo =? 0) eqn:E; [|discriminate].
  apply Nat.eqb_eq in E. exists [], t, prev. simpl. rewrite Nat.add_0_r.
  repeat split; try assumption; try lia. destruct hi; simpl; [lia | exact I]. }
induction s as [|c s IH]; intros lo hi prev pos r; simpl.
- destruct (if lo =? 0 then K prev pos [] else None) eqn:E; [|discriminate].
  intro H; injection H as <-. eapply Stop; eassumption.
- destruct (if lo =? 0 then K prev pos (c :: s) else None) eqn:E.
  + intro H; injection H as <-. eapply Stop; eassumption.
  + destruct (p c && Re.more hi) eqn:F; [|discriminate].
    intro G.
    apply andb_true_iff in F as [Ec Em].
    destruct (IH _ _ _ _ _ G) as (a & s' & prev' & -> & Ha & Hlo & Hhi & HK).
    exists (c :: a), s', prev'. simpl. rewrite Ec, Ha.
    replace (pos + S (List.length a)) with (S pos + List.length a) by lia.
    repeat split; try assumption; try lia.
    destruct hi as [h|]; simpl in *; [|exact I].
    apply negb_true_iff, Nat.eqb_neq in Em. lia.
Qed.
End RepSound.

Lemma run_reads (ml : bool) (pat : Re.pattern) :
  forall prev pos (s : str) opens caps m,
    Re.run ml pat prev pos s opens caps = Some m ->
    reads ml pat pos s opens caps m.
Proof.
  induction pat as [|it pat IH]; intros prev pos s opens caps m; simpl.
  - intro H; injection H as <-. constructor.
  - destruct it as [p|greedy lo hi p|n|n| |].
    + destruct s as [|c s]; [discriminate|].
      destruct (p c) eqn:E; [|discriminate].
      intro H. constructor; [exact E | eapply IH; exact H].
    + intro H.
      assert (S : exists a s' prev',
                 s = a ++ s' /\ forallb p a = true /\ lo <= List.length a
                 /\ within hi (List.length a)
                 /\ Re.run ml pat prev' (pos + List.length a) s' opens caps = Some m).
      { destruct greedy.
        - exact (rep_greedy_sound _ p
                   (fun prev' pos' s' => Re.run ml pat prev' pos' s' opens caps)
                   s lo hi prev pos m H).
        - exact (rep_lazy_sound _ p
                   (fun prev' pos' s' => Re.run ml pat prev' pos' s' opens caps)
                   s lo hi prev pos m H). }
      destruct S as (a & s' & prev' & -> & Ha & Hlo & Hhi & HK).
      constructor; try assumption. eapply IH; exact HK.
    + intro H. constructor. eapply IH; exact H.
    + destruct opens as [|[k [pos0 s0]] opens]; [discriminate|].
      intro H. constructor. eapply IH; exact H.
    + destruct (Re.at_bol ml prev); [|discriminate].
      intro H. constructor. eapply IH; exact H.
    + destruct (Re.at_eol ml s) eqn:E; [|discriminate].
      intro H. constructor; [exact E | eapply IH; exact H].
Qed.

Lemma here_reads (ml : bool) (pat : Re.pattern) (prev : option ascii) (s : str)
      (m : Re.rmatch) :
  Re.here ml pat prev s = Some m -> reads ml pat 0 s [] [] m.
Proof. apply run_reads. Qed.

(** A search finds its match at the start of some suffix of the text. *)
Lemma search_reads (ml : bool) (pat : Re.pattern) (s : str) (m : Re.rmatch) :
  Re.search ml pat s = Some m ->
  exists before suffix, s = before ++ suffix /\ reads ml pat 0 suffix [] [] m.
Proof.
  unfold Re.search. generalize (@None ascii).
  induction s as [|c s IH]; intros prev; simpl.
  - destruct (Re.here ml pat prev []) eqn:E; [|discriminate].
    intro H; injection H as <-. exists [], []. split; [reflexivity|].
    eapply here_reads; exact E.
  - destruct (Re.here ml pat prev (c :: s)) eqn:E.
    + intro H; injection H as <-. exists [], (c :: s). split; [reflexivity|].
      eapply here_reads; exact E.
    + intro H. destruct (IH _ H) as (b & suf & -> & Hr).
      now exists (c :: b), suf.
Qed.

(** *** Image download *)

Ltac read_all :=
  repeat match goal with
         | H : reads _ (_ :: _) _ _ _ _ _ |- _ => inversion H; subst; clear H
         | H : reads _ [] _ _ _ _ _ |- _ => inversion H; subst; clear H
         end.

Lemma firstn_exact {A} (n : nat) (a b : list A) :
  n = List.length a -> firstn n (a ++ b) = a.
Proof.
  intros ->. rewrite firstn_app, Nat.sub_diag, firstn_all. simpl.
  apply app_nil_r.
Qed.

Lemma lit_eq (c x : ascii) : Re.lit c x = true -> x = c.
Proof. apply ceq_eq. Qed.

Lemma bare_url_reads (s : str) (m : Re.rmatch) :
  reads false bare_url_re 0 s [] [] m ->
  clean_url (Re.group 1 (Re.m_groups m)) = true.
Proof.
  intro H. unfold bare_url_re in H.
  cbn [app Re.word map list_ascii_of_string] in H.
  read_all.
  repeat match goal with H : Re.lit _ _ = true |- _ => apply lit_eq in H; subst end.
  cbn [Re.group Re.m_groups Nat.eqb].
  match goal with
  | |- context [firstn ?n (?c1 :: ?c2 :: ?c3 :: ?c4 :: ?a ++ ?c5 :: ?c6 :: ?c7 :: ?b ++ ?r)] =>
      replace (c1 :: c2 :: c3 :: c4 :: a ++ c5 :: c6 :: c7 :: b ++ r)
        with ((c1 :: c2 :: c3 :: c4 :: a ++ c5 :: c6 :: c7 :: b) ++ r)
        by (simpl; now rewrite <- app_assoc);
      rewrite (firstn_exact n) by (simpl; rewrite length_app; simpl; lia)
  end.
  match goal with
  | H : forallb (Re.neg _) ?b = true |- _ =>
      assert (Hb : forallb url_char b = true) by exact H
  end.
  match goal with
  | H : forallb (Re.lit _) ?a = true, W : within (Some 1) (List.length ?a) |- _ =>
      destruct a as [|x [|y a]];
        [| cbn [forallb] in H; rewrite andb_true_r in H; apply lit_eq in H; subst x
         | simpl in W; lia]
  end; unfold clean_url; cbn [app forallb]; rewrite Hb; reflexivity.
Qed.

Lemma search_bare_url (s : str) (m : Re.rmatch) :
  Re.search false bare_url_re s = Some m ->
  clean_url (Re.group 1 (Re.m_groups m)) = true.
Proof.
  intro H. apply search_reads in H as (b & suf & _ & H).
  now apply (bare_url_reads suf).
Qed.

Lemma drive_id_reads (s : str) (m : Re.rmatch) :
  reads false drive_id_re 0 s [] [] m ->
  forallb drive_id_char (Re.group 1 (Re.m_groups m)) = true.
Proof.
  intro H. unfold drive_id_re in H.
  cbn [app Re.word map list_ascii_of_string] in H.
  read_all.
  cbn [Re.group Re.m_groups Nat.eqb].
  rewrite firstn_exact; [assumption | lia].
Qed.

Lemma drive_id_is_url_char (c : ascii) : drive_id_char c = true -> url_char c = true.
Proof.
  intro H.
  pose proof (forall_chars (fun c => implb (drive_id_char c) (url_char c)) eq_refl c)
    as F.
  cbv beta in F. now rewrite H in F.
Qed.

(** Every url that [download_and_convert_image] asks for is clean. *)
Lemma request_url_clean (url u : str) :
  request_url url = inl u -> clean_url u = true.
Proof.
  unfold request_url.
  destruct (Re.search false bare_url_re url) as [clean_match|] eqn:E;
    [|discriminate].
  apply search_bare_url in E.
  destruct (_ || _); [discriminate|].
  destruct (_ && _); [|now intro H; injection H as <-].
  destruct (Re.search false drive_id_re _) as [file_id_match|] eqn:D;
    [|now intro H; injection H as <-].
  intro H; injection H as <-.
  apply search_reads in D as (b & suf & _ & D). apply drive_id_reads in D.
  unfold clean_url.
  apply andb_true_iff. split; [reflexivity|].
  repeat (cbn [forallb app]; apply andb_true_iff; split; [reflexivity|]).
  apply forallb_forall. intros c Hc. apply drive_id_is_url_char.
  rewrite forallb_forall in D. now apply D.
Qed.

Lemma try_agents_ext (get get' : web) (u : str) (agents : list str) :
  (forall agent, In agent agents -> get u agent = get' u agent) ->
  forall i, try_agents get u i agents = try_agents get' u i agents.
Proof.
  induction agents as [|agent rest IH]; intros Hg i; [reflexivity|].
  cbn [try_agents]. rewrite <- (Hg agent (or_introl eq_refl)).
  rewrite !IH by (intros a Ha; apply Hg; now right).
  reflexivity.
Qed.

(** X17.  The only requests that [download_and_convert_image] makes are
    for a url that starts with [http://] or [https://] and holds neither
    white space nor any of the characters [<], [>], [)], []] and the double
    quote, sent with one of its two user agents: its result is the same in
    any two states of the web that answer those requests alike. *)
Theorem download_requests_clean_urls (get get' : web) (url : str) :
  (forall u agent,
      clean_url u = true -> In agent user_agents -> get u agent = get' u agent) ->
  download_and_convert_image get url = download_and_convert_image get' url.
Proof.
  intro H. unfold download_and_convert_image.
  destruct (request_url url) as [u|reason] eqn:E; [|reflexivity].
  apply try_agents_ext. intros agent Ha. apply H; [|exact Ha].
  now apply (request_url_clean url).
Qed.

Lemma download_requests_clean_urls_witness :
  picky_web "ftp://example.com/a.png" "curl"
  = Returns (MkResponse 200 "image/png" (Returns [Byte.x52; Byte.x49]))
  /\ download_and_convert_image unreachable_web "see https://example.com/a.png"
     = download_and_convert_image picky_web "see https://example.com/a.png".
Proof.
  split; [reflexivity|].
  apply (download_requests_clean_urls unreachable_web picky_web
           "see https://example.com/a.png").
  intros u agent Hu Ha. unfold unreachable_web, picky_web. rewrite Hu.
  destruct Ha as [<-|[<-|[]]]; reflexivity.
Defined.

Lemma try_agents_bytes (get : web) (u : str) (b : bytes) (agents : list str) :
  forall i,
    try_agents get u i agents = ImageBytes b ->
    exists agent r,
      In agent agents /\ get u agent = Returns r
      /\ status_code r = 200
      /\ Py.isin "text/html" (Py.lower (content_type_header r)) = false
      /\ to_webp r = Returns b.
Proof.
  induction agents as [|agent rest IH]; intros i; cbn [try_agents];
    [discriminate|].
  assert (Next : forall j, try_agents get u j rest = ImageBytes b ->
                           exists agent0 r,
                             In agent0 (agent :: rest) /\ get u agent0 = Returns r
                             /\ status_code r = 200
                             /\ Py.isin "text/html"
                                        (Py.lower (content_type_header r)) = false
                             /\ to_webp r = Returns b).
  { intros j H. destruct (IH j H) as (a & r & Hin & Hr).
    exists a, r. split; [now right | exact Hr]. }
  assert (Exc : forall e,
             match e with
             | UnidentifiedImageError => Message "Failed (Not an image file)"
             | OtherException message =>
                 if i =? List.length user_agents - 1 then Message message
                 else try_agents get u (S i) rest
             end = ImageBytes b ->
             exists agent0 r,
               In agent0 (agent :: rest) /\ get u agent0 = Returns r
               /\ status_code r = 200
               /\ Py.isin "text/html" (Py.lower (content_type_header r)) = false
               /\ to_webp r = Returns b).
  { intros [|message]; [discriminate|].
    destruct (i =? List.length user_agents - 1); [discriminate | apply Next]. }
  destruct (get u agent) as [r|e] eqn:G; [|apply Exc].
  destruct ((status_code r =? 403) && (i <? List.length user_agents - 1));
    [apply Next|].
  destruct (status_code r =? 200) eqn:E200; cbn [negb]; [|discriminate].
  destruct (Py.isin "text/html" (Py.lower (content_type_header r))) eqn:Eh;
    [discriminate|].
  destruct (to_webp r) as [b'|e] eqn:W; [|apply Exc].
  intro H; injection H as ->.
  exists agent, r. apply Nat.eqb_eq in E200.
  repeat split; try assumption. now left.
Qed.

(** X18.  [download_and_convert_image] returns image bytes only when one
    of its two user agents got, for a clean url, a response with status
    200 whose content type is not a web page in any letter case, and the
    bytes are that response's image re-encoded. *)
Theorem download_bytes_come_from_an_image (get : web) (url : str) (b : bytes) :
  download_and_convert_image get url = ImageBytes b ->
  exists u agent r,
    clean_url u = true /\ In agent user_agents /\ get u agent = Returns r
    /\ status_code r = 200
    /\ Py.isin "text/html" (Py.lower (content_type_header r)) = false
    /\ to_webp r = Returns b.
Proof.
  unfold download_and_convert_image.
  destruct (request_url url) as [u|reason] eqn:E; [|discriminate].
  intro H. apply try_agents_bytes in H as (agent & r & Hin & Hr).
  exists u, agent, r. split; [now apply (request_url_clean url) | now split].
Qed.

Lemma download_bytes_come_from_an_image_witness :
  exists u agent r,
    clean_url u = true /\ In agent user_agents /\ png_web u agent = Returns r
    /\ status_code r = 200
    /\ Py.isin "text/html" (Py.lower (content_type_header r)) = false
    /\ to_webp r = Returns [Byte.x52; Byte.x49].
Proof.
  apply (download_bytes_come_from_an_image png_web "https://example.com/a.png"
           [Byte.x52; Byte.x49]).
  reflexivity.
Defined.

(** *** The bundle *)

Lemma filter_snoc {A} (f : A -> bool) (l : list A) (x : A) :
  filter f (l ++ [x]) = if f x then filter f l ++ [x] else filter f l.
Proof.
  rewrite filter_app. simpl. destruct (f x); [reflexivity | apply app_nil_r].
Qed.

Lemma some_elim {A} (P : A -> Prop) (x y : A) : P x -> Some x = Some y -> P y.
Proof. intros H E. injection E as <-. exact H. Qed.

Lemma convert_section_ok (hm : Dict.t str) (b b' : bundle)
      (entry : str * section_value) :
  bundle_ok b -> convert_section hm b entry = Some b' -> bundle_ok b'.
Proof.
  intros Hb. pose proof Hb as (He & Hq & Hc).
  unfold convert_section. destruct entry as [page_name value].
  destruct (_ || _); [now intro H; injection H as <-|].
  destruct value as [l|content].
  { destruct (existsb _ EXCLUDED_KEYWORDS); [now intro H; injection H as <-|].
    discriminate. }
  destruct (should_skip_page page_name content); [now intro H; injection H as <-|].
  destruct (Py.isin "customer reviews" (Py.lower page_name)).
  { intro H; injection H as <-. split; [|split]; cbn [zip_entries bundle_queue valid_cnt].
    - apply Forall_app; split; [exact He|]. repeat constructor.
    - exact Hq.
    - now rewrite filter_snoc. }
  unfold parse_page_content, page_loop.
  destruct (page_fold_queue hm (page_slug_of page_name) (Py.split nl content)
                            (page_init page_name (bundle_queue b)))
    as (_ & _ & added & Q & F & _).
  cbn [image_queue page_init] in Q.
  set (st := fold_left _ _ _) in *.
  apply (some_elim bundle_ok).
  split; [|split]; cbn [zip_entries bundle_queue valid_cnt].
  - apply Forall_app; split.
    + destruct (service_box st); [|exact He].
      apply Forall_app; split; [exact He|].
      constructor; [|constructor]. split; [reflexivity | discriminate].
    + constructor; [|constructor]. cbn [entry_ok snd fst].
      exists (to_kebab_case
                (Py.strip (Py.replace " page" "" (Py.lower page_name)))).
      split; [reflexivity|]. apply to_kebab_case_chars.
  - rewrite Q. apply Forall_app; split; [exact Hq|].
    eapply Forall_impl; [|exact F].
    intros t ->. apply to_kebab_case_chars.
  - rewrite filter_snoc. cbn [is_post snd]. rewrite length_app. cbn [List.length].
    destruct (service_box st); [rewrite filter_snoc; cbn [is_post snd]|]; lia.
Qed.

Lemma convert_sections_ok (hm : Dict.t str) (raw_sections : Dict.t section_value) :
  forall b b',
    bundle_ok b -> convert_sections hm b raw_sections = Some b' -> bundle_ok b'.
Proof.
  induction raw_sections as [|entry rest IH]; intros b b' Hb; cbn [convert_sections].
  - now intro H; injection H as <-.
  - destruct (convert_section hm b entry) as [b1|] eqn:E; [|discriminate].
    apply IH. eapply convert_section_ok; eassumption.
Qed.

Lemma convert_images_ok (get : web) (queue : list image_task) :
  forall entries,
    Forall (fun t => is_slug (filename t)) queue ->
    Forall entry_ok entries ->
    Forall entry_ok (fold_left (convert_image get) queue entries)
    /\ filter is_post (fold_left (convert_image get) queue entries)
       = filter is_post entries.
Proof.
  induction queue as [|t queue IH]; intros entries Hq He; cbn [fold_left];
    [now split|].
  inversion Hq as [|? ? Ht Hq']; subst.
  assert (S : Forall entry_ok (convert_image get entries t)
              /\ filter is_post (convert_image get entries t)
                 = filter is_post entries).
  { unfold convert_image.
    destruct (download_and_convert_image get (url t)); [|now split].
    split; [|now rewrite filter_snoc].
    apply Forall_app; split; [exact He|].
    constructor; [|constructor]. now exists (filename t). }
  destruct S as [S1 S2]. destruct (IH _ Hq' S1) as [I1 I2].
  split; [exact I1 | congruence].
Qed.

(** X19.  Every entry of the bundle is written under one of four names:
    [_data/reviews.yml], [_data/services.yml] (never with empty content),
    [_posts/2001-01-01-<slug>.md] for a page and [img/<slug>.webp] for an
    image, where the slug is made of lower-case letters, digits, '_' and
    '-' only; so no entry name can leave its directory.  The page counter
    is the number of page files written.  As everywhere in this file a
    string is a sequence of code points below 256: a page name with other
    characters is outside the statement. *)
Theorem bundle_entry_names
        (get : web) (raw_sections : Dict.t section_value)
        (hyperlink_map : Dict.t str) (b : bundle) :
  convert get raw_sections hyperlink_map = Some b ->
  Forall (fun e =>
            match snd e with
            | PostFile _ =>
                exists slug,
                  fst e = "_posts/2001-01-01-" ++ slug ++ ".md"
                  /\ Forall (fun c => slug_char c = true) slug
            | ReviewsFile _ => fst e = ("_data/reviews.yml" : str)
            | ServicesFile services =>
                fst e = ("_data/services.yml" : str) /\ services <> None
            | WebpFile _ =>
                exists slug,
                  fst e = "img/" ++ slug ++ ".webp"
                  /\ Forall (fun c => slug_char c = true) slug
            end)
         (zip_entries b)
  /\ valid_cnt b
     = List.length (filter (fun e => match snd e with
                                     | PostFile _ => true
                                     | _ => false
                                     end)
                           (zip_entries b)).
Proof.
  unfold convert.
  destruct (convert_sections hyperlink_map (MkBundle [] 0 []) raw_sections)
    as [b1|] eqn:E; [|discriminate].
  intro H; injection H as <-. cbn [zip_entries valid_cnt].
  assert (H0 : bundle_ok (MkBundle [] 0 [])) by (repeat split; constructor).
  destruct (convert_sections_ok _ _ _ _ H0 E) as (He & Hq & Hc).
  destruct (convert_images_ok get (bundle_queue b1) (zip_entries b1) Hq He)
    as [I1 I2].
  split; [exact I1|].
  change (valid_cnt b1
          = List.length (filter is_post
                           (fold_left (convert_image get) (bundle_queue b1)
                                      (zip_entries b1)))).
  now rewrite I2.
Qed.

Lemma convert_sections_total (hm : Dict.t str) (raw_sections : Dict.t section_value) :
  Forall section_ok raw_sections ->
  forall b, exists b', convert_sections hm b raw_sections = Some b'.
Proof.
  induction 1 as [|[page_name value] rest Hk _ IH]; intro b; cbn [convert_sections].
  - now exists b.
  - assert (S : exists b1, convert_section hm b (page_name, value) = Some b1).
    { unfold convert_section.
      destruct value as [l|content].
      - unfold section_ok in Hk. cbn [fst snd] in Hk. subst page_name.
        now exists b.
      - destruct (_ || _); [now exists b|].
        destruct (should_skip_page page_name content); [now exists b|].
        destruct (Py.isin "customer reviews" (Py.lower page_name));
          [eexists; reflexivity|].
        destruct (parse_page_content content page_name (bundle_queue b) hm)
          as [[final_md box] queue].
        eexists; reflexivity. }
    destruct S as [b1 ->]. apply IH.
Qed.

(** X20.  The main block cannot fail on what [process_docx] returns: the
    only section that holds a list of lines is [Navigation], which the loop
    over the sections passes over, so [should_skip_page] and
    [parse_page_content] are only given the text of a page. *)
Theorem bundle_of_any_document
        (get : web) (raw_md : str) (hyperlink_map : Dict.t str) :
  exists b, convert get (process_docx raw_md) hyperlink_map = Some b.
Proof.
  unfold convert.
  destruct (convert_sections_total hyperlink_map (process_docx raw_md)
              (process_docx_ok raw_md) (MkBundle [] 0 [])) as [b1 ->].
  eexists; reflexivity.
Qed.

Lemma bundle_entry_names_witness :
  exists b,
    convert png_web home_sections [] = Some b
    /\ map fst (zip_entries b)
       = [ "_posts/2001-01-01-home.md" : str; "img/home.webp" : str ]
    /\ Forall (fun e =>
                 match snd e with
                 | PostFile _ =>
                     exists slug,
                       fst e = "_posts/2001-01-01-" ++ slug ++ ".md"
                       /\ Forall (fun c => slug_char c = true) slug
                 | ReviewsFile _ => fst e = ("_data/reviews.yml" : str)
                 | ServicesFile services =>
                     fst e = ("_data/services.yml" : str) /\ services <> None
                 | WebpFile _ =>
                     exists slug,
                       fst e = "img/" ++ slug ++ ".webp"
                       /\ Forall (fun c => slug_char c = true) slug
                 end)
              (zip_entries b).
Proof.
  eexists. split; [vm_compute; reflexivity|]. split; [reflexivity|].
  refine (proj1 (bundle_entry_names png_web home_sections [] _ _)).
  vm_compute. reflexivity.
Defined.

(** *** The text of a page *)

Lemma segment_line_footer (targets : list str) (st : segment_state) (line : str) :
  is_footer line = true ->
  segment_line targets st line = MkSeg (sections st) "00_Ignore" [] true.
Proof.
  intro H. unfold segment_line. cbv zeta. unfold is_footer in H.
  change (Py.isin START_MARKER (Py.strip line))
    with (Py.isin "Footer (All Pages)" (Py.strip line)).
  now rewrite H.
Qed.

Lemma segment_line_opens (targets : list str) (st : segment_state) (line : str) :
  has_passed_footer st = true -> is_footer line = false ->
  opens_page targets line = true ->
  segment_line targets st line
  = MkSeg (commit st) (clean_nav_text (Py.strip line)) [] true.
Proof.
  intros Hp Hf Ho. unfold segment_line. cbv zeta. unfold is_footer in Hf.
  change (Py.isin START_MARKER (Py.strip line))
    with (Py.isin "Footer (All Pages)" (Py.strip line)).
  rewrite Hf, Hp. cbn [orb negb].
  unfold opens_page in Ho. cbv zeta in Ho.
  apply andb_true_iff in Ho as [Ho Hexc]. rewrite Ho, Hexc.
  now rewrite page_name_is_clean.
Qed.

Lemma segment_line_keeps (targets : list str) (st : segment_state) (line : str) :
  has_passed_footer st = true -> is_footer line = false ->
  opens_page targets line = false ->
  Py.eqb (current_page st) "00_Ignore" = false ->
  segment_line targets st line
  = MkSeg (sections st) (current_page st) (current_content st ++ [line]) true.
Proof.
  intros Hp Hf Ho Hn. unfold segment_line. cbv zeta. unfold is_footer in Hf.
  change (Py.isin START_MARKER (Py.strip line))
    with (Py.isin "Footer (All Pages)" (Py.strip line)).
  rewrite Hf, Hp, Hn. cbn [orb negb].
  unfold opens_page in Ho. cbv zeta in Ho.
  match goal with |- (if ?c then _ else _) = _ => destruct c eqn:E end;
    [|reflexivity].
  cbn [andb] in Ho. now rewrite Ho.
Qed.

Lemma segment_body (targets : list str) (body : list str) :
  Forall (fun l => is_footer l = false /\ opens_page targets l = false) body ->
  forall secs name content,
    Py.eqb name "00_Ignore" = false ->
    fold_left (segment_line targets) body (MkSeg secs name content true)
    = MkSeg secs name (content ++ body) true.
Proof.
  induction 1 as [|l body [Hf Ho] _ IH]; intros secs name content Hn;
    cbn [fold_left].
  - now rewrite app_nil_r.
  - rewrite segment_line_keeps; try assumption; try reflexivity.
    cbn [sections current_page current_content].
    rewrite IH by assumption. now rewrite <- app_assoc.
Qed.

Lemma opens_page_name (targets : list str) (line : str) :
  opens_page targets line = true ->
  Py.eqb (clean_nav_text (Py.strip line)) "00_Ignore" = false.
Proof.
  intro H. unfold opens_page in H. cbv zeta in H.
  apply andb_true_iff in H as [_ H].
  apply eqb_neq.
  apply (page_name_not_reserved (clean_nav_text (Py.strip line))).
  unfold no_keyword.
  destruct (Py.isin "customer reviews" _); [now left | now right].
Qed.

(** X21.  The text of a page is what follows its heading, line by line
    and unchanged, joined by newlines: after the footer marker, a line
    that opens a page, followed by lines that neither open a page nor
    contain the marker, gives the section named by the cleaned heading
    with exactly those lines as text.  A heading with no line after it
    gives no section.  What stands before the marker gives no page. *)
Theorem page_text_is_the_lines_after_the_heading
        (pre body : list str) (footer heading : str) :
  let lines := pre ++ footer :: heading :: body in
  let captured :=
    cap_sections (fold_left capture_line lines (MkCapture [] [] false false)) in
  let target_pages := target_pages_of captured in
  Forall (fun l => is_footer l = false) pre ->
  is_footer footer = true ->
  is_footer heading = false ->
  opens_page target_pages heading = true ->
  Forall (fun l => is_footer l = false /\ opens_page target_pages l = false) body ->
  segment_lines lines
  = match body with
    | [] => captured
    | _ => Dict.set (clean_nav_text (Py.strip heading))
                    (Text (Py.join [nl] body)) captured
    end.
Proof.
  intros lines captured target_pages Hpre Hfoot Hh Hopen Hbody.
  unfold segment_lines. cbv zeta. fold lines. fold captured. fold target_pages.
  unfold lines at 1. rewrite fold_left_app.
  rewrite (segment_idle target_pages pre Hpre) by reflexivity.
  cbn [fold_left].
  rewrite (segment_line_footer target_pages _ footer Hfoot). cbn [sections].
  rewrite (segment_line_opens target_pages (MkSeg captured "00_Ignore" [] true)
                              heading eq_refl Hh Hopen).
  change (commit (MkSeg captured "00_Ignore" [] true)) with captured.
  rewrite segment_body by (assumption || now apply (opens_page_name target_pages)).
  unfold commit. cbn [current_content current_page sections app].
  destruct body as [|l body]; [reflexivity|].
  now rewrite (opens_page_name target_pages heading Hopen).
Qed.

Lemma page_text_is_the_lines_after_the_heading_witness :
  segment_lines home_lines
  = [ ("Home Page" : str,
       Text ("  Some content here" ++ [nl] ++ [nl] ++ "More")) ].
Proof.
  refine (page_text_is_the_lines_after_the_heading
            [ "Intro" : str ] [ "  Some content here" : str; "" : str; "More" : str ]
            "# Footer (All Pages)" "# Home Page" _ _ _ _ _);
    repeat constructor.
Defined.

(** *** Letter case *)

Ltac char_table c :=
  apply Bool.eqb_prop; revert c;
  refine (forall_chars _ _); vm_compute; reflexivity.

Lemma caseless_space : caseless Py.is_space.
Proof. intro c. char_table c. Qed.

Lemma caseless_newline : caseless (fun c => Py.ceq c "010").
Proof. intro c. char_table c. Qed.

Lemma lower_lower (s : str) : Py.lower (Py.lower s) = Py.lower s.
Proof.
  unfold Py.lower. rewrite map_map. apply map_ext. intro c.
  apply ceq_eq.
  exact (forall_chars
           (fun c => Py.ceq (Py.lower_char (Py.lower_char c)) (Py.lower_char c))
           eq_refl c).
Qed.

Lemma lower_app (a b : str) : Py.lower (a ++ b) = Py.lower a ++ Py.lower b.
Proof. apply map_app. Qed.

Lemma dropwhile_lower (p : ascii -> bool) (s : str) :
  caseless p -> Py.dropwhile p (Py.lower s) = Py.lower (Py.dropwhile p s).
Proof.
  intro Hp. induction s as [|c s IH]; [reflexivity|].
  cbn [Py.lower map Py.dropwhile]. rewrite Hp.
  destruct (p c); [exact IH | reflexivity].
Qed.

Lemma strip_by_lower (p : ascii -> bool) (s : str) :
  caseless p -> Py.strip_by p (Py.lower s) = Py.lower (Py.strip_by p s).
Proof.
  intro Hp. unfold Py.strip_by, Py.rstrip_by, Py.lstrip_by.
  assert (R : forall t : str, rev (Py.lower t) = Py.lower (rev t)).
  { intro t. unfold Py.lower. symmetry. apply map_rev. }
  rewrite (dropwhile_lower p s Hp), R, (dropwhile_lower p _ Hp), R.
  reflexivity.
Qed.

Lemma startswith_lower (old s : str) :
  Forall (fun o => caseless (Py.ceq o)) old ->
  Py.startswith old (Py.lower s) = Py.startswith old s.
Proof.
  intro H. revert s. induction H as [|o old Ho _ IH]; intros [|c s];
    try reflexivity.
  cbn [Py.lower map Py.startswith]. rewrite Ho. f_equal. apply IH.
Qed.

Lemma replace_from_lower (old new : str) :
  Forall (fun o => caseless (Py.ceq o)) old -> Py.lower new = new ->
  forall (s : str) (k : nat),
    Py.replace_from old new k (Py.lower s)
    = Py.lower (Py.replace_from old new k s).
Proof.
  intros Ho Hn s. induction s as [|c s IH]; intro k; [reflexivity|].
  change (Py.lower (c :: s)) with (Py.lower_char c :: Py.lower s).
  cbn [Py.replace_from]. destruct k as [|k]; [|apply IH].
  change (Py.lower_char c :: Py.lower s) with (Py.lower (c :: s)).
  rewrite (startswith_lower old (c :: s) Ho).
  destruct (Py.startswith old (c :: s)).
  - now rewrite IH, lower_app, Hn.
  - rewrite IH. reflexivity.
Qed.

Lemma replace_lower (o : ascii) (old new s : str) :
  Forall (fun o => caseless (Py.ceq o)) (o :: old) -> Py.lower new = new ->
  Py.replace (o :: old) new (Py.lower s) = Py.lower (Py.replace (o :: old) new s).
Proof. intros Ho Hn. unfold Py.replace. now apply replace_from_lower. Qed.

Section RepLower.
Variable p : ascii -> bool.
Hypothesis p_caseless : caseless p.
Variable K K' : option ascii -> nat -> str -> option Re.rmatch.
Hypothesis K_lower :
forall prev pos s,
  K' (option_map Py.lower_char prev) pos (Py.lower s)
  = option_map lower_match (K prev pos s).

Lemma rep_greedy_lower (s : str) :
forall lo hi prev pos,
  Re.rep_greedy p K' lo hi (option_map Py.lower_char prev) pos (Py.lower s)
  = option_map lower_match (Re.rep_greedy p K lo hi prev pos s).
Proof.
induction s as [|c s IH]; intros lo hi prev pos.
- cbn [Py.lower map Re.rep_greedy].
  destruct (lo =? 0); [apply (K_lower prev pos []) | reflexivity].
- change (Py.lower (c :: s)) with (Py.lower_char c :: Py.lower s).
  cbn [Re.rep_greedy]. rewrite p_caseless.
  change (Py.lower_char c :: Py.lower s) with (Py.lower (c :: s)).
  assert (Stop : (if lo =? 0
                  then K' (option_map Py.lower_char prev) pos (Py.lower (c :: s))
                  else None)
                 = option_map lower_match
                     (if lo =? 0 then K prev pos (c :: s) else None)).
  { destruct (lo =? 0); [apply K_lower | reflexivity]. }
  destruct (p c && Re.more hi); [|exact Stop].
  change (Some (Py.lower_char c)) with (option_map Py.lower_char (Some c)).
  rewrite IH.
  destruct (Re.rep_greedy p K (pred lo) (Re.dec hi) (Some c) (S pos) s);
    [reflexivity | exact Stop].
Qed.

Lemma rep_lazy_lower (s : str) :
forall lo hi prev pos,
  Re.rep_lazy p K' lo hi (option_map Py.lower_char prev) pos (Py.lower s)
  = option_map lower_match (Re.rep_lazy p K lo hi prev pos s).
Proof.
induction s as [|c s IH]; intros lo hi prev pos.
- cbn [Py.lower map Re.rep_lazy].
  destruct (lo =? 0); [|reflexivity].
  pose proof (K_lower prev pos []) as E. cbn [Py.lower map] in E.
  rewrite E. now destruct (K prev pos []).
- change (Py.lower (c :: s)) with (Py.lower_char c :: Py.lower s).
  cbn [Re.rep_lazy]. rewrite p_caseless.
  change (Py.lower_char c :: Py.lower s) with (Py.lower (c :: s)).
  assert (Stop : (if lo =? 0
                  then K' (option_map Py.lower_char prev) pos (Py.lower (c :: s))
                  else None)
                 = option_map lower_match
                     (if lo =? 0 then K prev pos (c :: s) else None)).
  { destruct (lo =? 0); [apply K_lower | reflexivity]. }
  rewrite Stop.
  destruct (if lo =? 0 then K prev pos (c :: s) else None); [reflexivity|].
  cbn [option_map].
  destruct (p c && Re.more hi); [|reflexivity].
  change (Some (Py.lower_char c)) with (option_map Py.lower_char (Some c)).
  apply IH.
Qed.
End RepLower.

Lemma at_bol_lower (ml : bool) (prev : option ascii) :
  Re.at_bol ml (option_map Py.lower_char prev) = Re.at_bol ml prev.
Proof.
  destruct prev as [c|]; [|reflexivity]. cbn [option_map Re.at_bol].
  now rewrite (caseless_newline c).
Qed.

Lemma at_eol_lower (ml : bool) (s : str) :
  Re.at_eol ml (Py.lower s) = Re.at_eol ml s.
Proof.
  destruct s as [|c s]; [reflexivity|]. cbn [Py.lower map Re.at_eol].
  rewrite (caseless_newline c). now destruct s.
Qed.

(** On a text put in lower case a pattern of caseless classes matches
    where it matched, and its groups are those of the text in lower
    case. *)
Lemma run_lower (ml : bool) (pat : Re.pattern) :
  Forall caseless_item pat ->
  forall prev pos (s : str) opens caps,
    Re.run ml pat (option_map Py.lower_char prev) pos (Py.lower s)
           (lower_opens opens) (lower_caps caps)
    = option_map lower_match (Re.run ml pat prev pos s opens caps).
Proof.
  induction 1 as [|it pat Hit _ IH]; intros prev pos s opens caps.
  - reflexivity.
  - destruct it as [p|greedy lo hi p|n|n| |]; cbn [Re.run].
    + destruct s as [|c s]; [reflexivity|].
      cbn [Py.lower map]. rewrite (Hit c).
      destruct (p c); [|reflexivity].
      apply (IH (Some c)).
    + destruct greedy.
      * apply (rep_greedy_lower p Hit
                 (fun prev' pos' s' => Re.run ml pat prev' pos' s' opens caps)).
        intros. apply IH.
      * apply (rep_lazy_lower p Hit
                 (fun prev' pos' s' => Re.run ml pat prev' pos' s' opens caps)).
        intros. apply IH.
    + apply (IH prev pos s ((n, (pos, s)) :: opens) caps).
    + destruct opens as [|[k [pos0 s0]] opens]; [reflexivity|].
      cbn [lower_opens map fst snd].
      assert (F : firstn (pos - pos0) (Py.lower s0)
                  = Py.lower (firstn (pos - pos0) s0)) by apply firstn_map.
      rewrite F.
      apply (IH prev pos s opens ((n, firstn (pos - pos0) s0) :: caps)).
    + rewrite at_bol_lower. destruct (Re.at_bol ml prev); [apply IH | reflexivity].
    + rewrite at_eol_lower. destruct (Re.at_eol ml s); [apply IH | reflexivity].
Qed.

Lemma here_lower (ml : bool) (pat : Re.pattern) (prev : option ascii) (s : str) :
  Forall caseless_item pat ->
  Re.here ml pat (option_map Py.lower_char prev) (Py.lower s)
  = option_map lower_match (Re.here ml pat prev s).
Proof. intro H. unfold Re.here. apply (run_lower ml pat H prev 0 s [] []). Qed.

Lemma group_lower (n : nat) (caps : list (nat * str)) :
  Re.group n (lower_caps caps) = Py.lower (Re.group n caps).
Proof.
  induction caps as [|[k t] caps IH]; [reflexivity|].
  cbn [lower_caps map fst snd Re.group]. now destruct (k =? n).
Qed.

Lemma expand_lower (repl : Re.template) (m : Re.rmatch) :
  Forall (fun x => match x with inl t => Py.lower t = t | inr _ => True end) repl ->
  Re.expand repl (lower_match m) = Py.lower (Re.expand repl m).
Proof.
  intro H. unfold Re.expand.
  induction H as [|x repl Hx _ IH]; [reflexivity|].
  cbn [flat_map]. rewrite lower_app, IH. f_equal.
  destruct x as [t|n]; [now rewrite Hx | apply group_lower].
Qed.

Lemma sub_from_lower (ml : bool) (pat : Re.pattern) (repl : Re.template) :
  Forall caseless_item pat ->
  Forall (fun x => match x with inl t => Py.lower t = t | inr _ => True end) repl ->
  forall (s : str) prev k,
    Re.sub_from ml pat repl (option_map Py.lower_char prev) k (Py.lower s)
    = Py.lower (Re.sub_from ml pat repl prev k s).
Proof.
  intros Hp Hr s. induction s as [|c s IH]; intros prev k.
  - destruct k; [|reflexivity].
    cbn [Py.lower map Re.sub_from].
    change (@nil ascii) with (Py.lower []) at 1.
    rewrite (here_lower ml pat prev [] Hp).
    destruct (Re.here ml pat prev []) as [m|]; [|reflexivity].
    cbn [option_map]. rewrite !app_nil_r. now apply expand_lower.
  - change (Py.lower (c :: s)) with (Py.lower_char c :: Py.lower s).
    destruct k as [|k]; cbn [Re.sub_from]; [|apply (IH (Some c))].
    change (Py.lower_char c :: Py.lower s) with (Py.lower (c :: s)).
    rewrite (here_lower ml pat prev (c :: s) Hp).
    destruct (Re.here ml pat prev (c :: s)) as [m|]; cbn [option_map].
    + rewrite (expand_lower repl m Hr), lower_app.
      f_equal. cbn [lower_match Re.m_end].
      destruct (Re.m_end m); [cbn [Py.lower map]; f_equal|]; apply (IH (Some c)).
    + cbn [Py.lower map]. f_equal. apply (IH (Some c)).
Qed.

Lemma sub_lower (ml : bool) (pat : Re.pattern) (repl : Re.template) (s : str) :
  Forall caseless_item pat ->
  Forall (fun x => match x with inl t => Py.lower t = t | inr _ => True end) repl ->
  Re.sub ml pat repl (Py.lower s) = Py.lower (Re.sub ml pat repl s).
Proof. intros Hp Hr. apply (sub_from_lower ml pat repl Hp Hr s None 0). Qed.

Ltac caseless_all :=
  repeat match goal with
         | |- Forall _ [] => constructor
         | |- Forall _ (_ :: _) => constructor
         | |- caseless_item _ =>
             progress (unfold Re.plus, Re.star, Re.lazy_star, Re.opt, Re.times;
                       cbn [caseless_item])
         | |- True => exact I
         | |- caseless _ => let c := fresh "c" in intro c; char_table c
         | |- Py.lower _ = _ => reflexivity
         end.

Lemma strip_links_lower (s : str) :
  strip_links (Py.lower s) = Py.lower (strip_links s).
Proof. unfold strip_links, link_re. apply sub_lower; caseless_all. Qed.

Lemma strip_lower (s : str) : Py.strip (Py.lower s) = Py.lower (Py.strip s).
Proof. apply strip_by_lower, caseless_space. Qed.

Lemma clean_nav_text_lower (s : str) :
  clean_nav_text (Py.lower s) = Py.lower (clean_nav_text s).
Proof.
  unfold clean_nav_text.
  rewrite strip_links_lower.
  cbn [list_ascii_of_string].
  rewrite !replace_lower by caseless_all.
  unfold nav_lead_re, nav_trail_re.
  rewrite !sub_lower by caseless_all.
  rewrite !replace_lower by caseless_all.
  apply strip_lower.
Qed.

Lemma to_kebab_case_lower (text : str) :
  to_kebab_case (Py.lower text) = to_kebab_case text.
Proof.
  assert (E : Py.strip
                (Re.sub false [Re.Chr non_slug] []
                   (Py.replace "|" ""
                      (Py.replace " - " " " (clean_nav_text (Py.lower text)))))
              = Py.lower
                  (Py.strip
                     (Re.sub false [Re.Chr non_slug] []
                        (Py.replace "|" ""
                           (Py.replace " - " " " (clean_nav_text text)))))).
  { rewrite clean_nav_text_lower.
    cbn [list_ascii_of_string].
    rewrite !replace_lower by caseless_all.
    rewrite sub_lower by caseless_all.
    apply strip_lower. }
  unfold to_kebab_case. now rewrite E, lower_lower.
Qed.

(** X22.  A slug does not depend on the letter case of the text:
    [to_kebab_case] gives the same slug for a text and for the text in
    lower case. *)
Theorem to_kebab_case_ignores_case (text : str) :
  to_kebab_case (Py.lower text) = to_kebab_case text.
Proof. apply to_kebab_case_lower. Qed.

(** *** The slug of the page file and the slug of the page *)

Lemma replace_page_lower (s : str) :
  page_word_exact s = true ->
  forall k, Py.replace_from " page" "" k (Py.lower s)
            = Py.lower (Py.replace_from " Page" "" k s).
Proof.
  induction s as [|c s IH]; intros H k; [reflexivity|].
  cbn [page_word_exact] in H. apply andb_true_iff in H as [E H].
  apply Bool.eqb_prop in E.
  change (Py.lower (c :: s)) with (Py.lower_char c :: Py.lower s) at 1.
  cbn [Py.replace_from]. destruct k as [|k]; [|now apply IH].
  change (Py.lower_char c :: Py.lower s) with (Py.lower (c :: s)).
  rewrite E. destruct (Py.startswith " Page" (c :: s)).
  - cbn [app]. now apply IH.
  - cbn [Py.lower map]. f_equal. now apply IH.
Qed.

Lemma post_slug_is_page_slug (page_name : str) :
  Py.isin "#" page_name = false -> page_word_exact page_name = true ->
  to_kebab_case (Py.strip (Py.replace " page" "" (Py.lower page_name)))
  = page_slug_of page_name.
Proof.
  intros Hh Hp. unfold page_slug_of, clean_title_of.
  assert (R : Py.replace "#" "" page_name = page_name).
  { apply replace_absent. apply isin_char_false in Hh.
    eapply Forall_impl; [|exact Hh].
    intros c Hc. destruct (Py.ceq "#" c) eqn:E; [|reflexivity].
    apply ceq_eq in E. subst c. now rewrite ceq_refl in Hc. }
  rewrite R.
  change (Py.replace " page" "" (Py.lower page_name))
    with (Py.replace_from " page" "" 0 (Py.lower page_name)).
  rewrite (replace_page_lower page_name Hp 0).
  change (Py.replace_from " Page" "" 0 page_name)
    with (Py.replace " Page" "" page_name).
  now rewrite strip_lower, to_kebab_case_lower.
Qed.

(** X23.  The file of a page and the images of the page are named after
    the same slug: for a page name without '#' in which every [ page], in
    whatever letter case, is written [ Page], the slug that the main block
    computes for the file name is the slug that [parse_page_content]
    computes, so a page that is neither skipped nor the review section is
    written to [_posts/2001-01-01-<page slug>.md].  The condition on the
    letter case is needed: for [Home page] the file is named after [home]
    and the images after [home-page].  As everywhere in this file a string
    is a sequence of code points below 256, where [lower] works character
    by character: a page name with other characters is outside the
    statement. *)
Theorem page_file_named_after_page_slug (page_name : str) :
  Py.isin "#" page_name = false ->
  page_word_exact page_name = true ->
  to_kebab_case (Py.strip (Py.replace " page" "" (Py.lower page_name)))
  = page_slug_of page_name
  /\ (forall (hyperlink_map : Dict.t str) (b : bundle) (content : str),
         Py.eqb page_name "Navigation" || Py.eqb page_name "00_Ignore" = false ->
         should_skip_page page_name content = false ->
         Py.isin "customer reviews" (Py.lower page_name) = false ->
         exists b',
           convert_section hyperlink_map b (page_name, Text content) = Some b'
           /\ Py.last_opt (zip_entries b')
              = Some ("_posts/2001-01-01-" ++ page_slug_of page_name ++ ".md",
                      PostFile
                        (fst (fst (parse_page_content content page_name
                                     (bundle_queue b) hyperlink_map)))))
  /\ to_kebab_case (Py.strip (Py.replace " page" "" (Py.lower "Home page")))
     = ("home" : str)
  /\ page_slug_of "Home page" = ("home-page" : str).
Proof.
  intros Hh Hp.
  pose proof (post_slug_is_page_slug page_name Hh Hp) as E.
  split; [exact E|]. split; [|split; vm_compute; reflexivity].
  intros hm b content Hn Hs Hr.
  unfold convert_section. rewrite Hn, Hs, Hr.
  destruct (parse_page_content content page_name (bundle_queue b) hm)
    as [[final_md box] queue].
  eexists. split; [reflexivity|].
  cbn [zip_entries fst]. rewrite last_opt_snoc, E. reflexivity.
Qed.

Lemma page_file_named_after_page_slug_witness :
  to_kebab_case (Py.strip (Py.replace " page" "" (Py.lower "Home Page")))
  = page_slug_of "Home Page".
Proof.
  apply (proj1 (page_file_named_after_page_slug "Home Page" eq_refl eq_refl)).
Defined.

(** *** The layout of the body *)

Lemma separated_snoc (l : list str) (x : str) :
  separated (l ++ [x])
  = separated l
    && match Py.last_opt l with Some y => apart y x | None => true end.
Proof.
  induction l as [|a l IH]; [reflexivity|].
  destruct l as [|b l]; [cbn; now rewrite andb_true_r|].
  change (separated ((a :: b :: l) ++ [x]))
    with (apart a b && separated ((b :: l) ++ [x])).
  rewrite IH. change (separated (a :: b :: l)) with (apart a b && separated (b :: l)).
  change (Py.last_opt (a :: b :: l)) with (Py.last_opt (b :: l)).
  now rewrite andb_assoc.
Qed.

Lemma ends_nonblank_snoc_blank (l : list str) : ends_nonblank (l ++ [[]]) = false.
Proof. unfold ends_nonblank. now rewrite last_opt_snoc. Qed.

Lemma separated_push_blank (l : list str) :
  separated l = true -> separated (l ++ [[]]) = true.
Proof.
  intro H. rewrite separated_snoc, H.
  destruct (Py.last_opt l) as [y|]; [|reflexivity].
  unfold apart. cbn. now rewrite orb_true_r.
Qed.

Lemma separated_after_blank (l : list str) (x : str) :
  separated l = true -> ends_nonblank l = false -> separated (l ++ [x]) = true.
Proof.
  intros H E. rewrite separated_snoc, H. unfold ends_nonblank in E.
  destruct (Py.last_opt l) as [y|]; [|reflexivity].
  unfold apart, blank. now rewrite E.
Qed.

Lemma append_body_separated (l : list str) (cleaned : str) :
  separated l = true -> separated (append_body l cleaned) = true.
Proof.
  intro H. unfold append_body.
  set (l1 := if Py.startswith "#" cleaned && ends_nonblank l then l ++ [[]] else l).
  assert (H1 : separated l1 = true).
  { unfold l1. destruct (_ && _); [now apply separated_push_blank | exact H]. }
  assert (Hh : Py.startswith "#" cleaned = true -> ends_nonblank l1 = false).
  { intro Hs. unfold l1. rewrite Hs. cbn [andb].
    destruct (ends_nonblank l) eqn:E; [apply ends_nonblank_snoc_blank | exact E]. }
  destruct (ends_nonblank l1) eqn:E1; [|now apply separated_after_blank].
  destruct (negb (is_list_line cleaned
                  && is_list_line match Py.last_opt l1 with
                                  | Some x => x
                                  | None => []
                                  end)
            && negb (Py.startswith "#" cleaned)) eqn:C.
  - apply separated_after_blank;
      [now apply separated_push_blank | apply ends_nonblank_snoc_blank].
  - rewrite separated_snoc, H1.
    destruct (Py.last_opt l1) as [y|]; [|reflexivity].
    apply andb_false_iff in C as [C|C].
    + apply negb_false_iff, andb_true_iff in C as [Ca Cb].
      unfold apart. rewrite Ca, Cb. cbn. apply orb_true_r.
    + apply negb_false_iff in C. specialize (Hh C). discriminate.
Qed.

(** X24.  In the body of a page two lines that are both not empty stand
    next to each other only when both are items of a list (a bullet or a
    numbered item): every heading and every paragraph is set apart from
    the line before it by an empty line.  This holds after any number of
    lines. *)
Theorem body_blocks_are_separated
        (hyperlink_map : Dict.t str) (page_title : str) (queue : list image_task)
        (lines : list str) :
  separated
    (body_lines
       (data (fold_left (page_line hyperlink_map (page_slug_of page_title)) lines
                        (page_init page_title queue))))
  = true.
Proof.
  apply (fold_keeps (fun st => separated (body_lines (data st)) = true)).
  - intros st l H.
    destruct (page_line_body hyperlink_map (page_slug_of page_title) st l)
      as [|E|c Hc].
    + exact H.
    + now apply separated_push_blank.
    + now apply append_body_separated.
  - reflexivity.
Qed.

(** *** Headings of the body *)

(** A greedy repetition followed by something that cannot start with a
    character of the class takes the whole run. *)
Lemma greedy_blocked (R : Type) (p : ascii -> bool)
      (K : option ascii -> nat -> str -> option R) :
  (forall prev pos c s, p c = true -> K prev pos (c :: s) = None) ->
  forall (s : str) lo prev pos,
    Re.rep_greedy p K lo None prev pos s
    = if lo <=? runlen p s
      then K (prev_after prev (firstn (runlen p s) s)) (pos + runlen p s)
             (Py.dropwhile p s)
      else None.
Proof.
  intros HK s. induction s as [|c s IH]; intros lo prev pos.
  - cbn [Re.rep_greedy runlen firstn Py.dropwhile]. rewrite Nat.add_0_r.
    unfold prev_after. cbn [Py.last_opt].
    destruct lo; reflexivity.
  - cbn [Re.rep_greedy runlen Py.dropwhile Re.more].
    destruct (p c) eqn:Ec; cbn [andb].
    + rewrite IH. cbn [firstn]. rewrite prev_after_cons.
      replace (pos + S (runlen p s)) with (S pos + runlen p s) by lia.
      replace (lo <=? S (runlen p s)) with (pred lo <=? runlen p s)
        by (destruct lo; reflexivity).
      destruct (pred lo <=? runlen p s); [|now rewrite HK; destruct (lo =? 0)].
      destruct (K _ _ _); [reflexivity|].
      rewrite HK by assumption. now destruct (lo =? 0).
    + cbn [firstn]. rewrite Nat.add_0_r. unfold prev_after. cbn [Py.last_opt].
      destruct lo; reflexivity.
Qed.

(** What the heading pattern finds at the start of a line. *)
Lemma here_heading_fix (s : str) :
  Re.here false heading_fix_re None s
  = if 1 <=? runlen hash s then
      match Py.dropwhile hash s with
      | c :: _ =>
          if heading_text c
          then Some (Re.MkMatch (S (runlen hash s))
                                [(2, [c]); (1, firstn (runlen hash s) s)])
          else None
      | [] => None
      end
    else None.
Proof.
  unfold Re.here, heading_fix_re, Re.plus. cbn [Re.run Re.at_bol].
  fold heading_text. fold hash.
  rewrite greedy_blocked.
  - destruct (1 <=? runlen hash s); [|reflexivity].
    cbn [Re.run Nat.add].
    destruct (Py.dropwhile hash s) as [|c t]; [reflexivity|].
    destruct (heading_text c); [|reflexivity].
    cbn [Re.run]. rewrite Nat.sub_0_r.
    replace (S (runlen hash s) - runlen hash s) with 1 by lia.
    reflexivity.
  - intros prev pos c t Hc. cbn [Re.run].
    assert (E : heading_text c = false).
    { unfold heading_text, Re.neg, Re.orc. unfold hash in Hc. now rewrite Hc. }
    now rewrite E.
Qed.

Lemma forallb_firstn_runlen (p : ascii -> bool) (s : str) :
  forallb p (firstn (runlen p s) s) = true.
Proof.
  induction s as [|c s IH]; [reflexivity|].
  cbn [runlen]. destruct (p c) eqn:E; [|reflexivity].
  cbn [firstn forallb]. now rewrite E.
Qed.

Lemma startswith_hash (s : str) : Py.startswith "#" s = (1 <=? runlen hash s).
Proof.
  destruct s as [|c s]; [reflexivity|].
  cbn [list_ascii_of_string Py.startswith runlen].
  unfold hash, Re.lit, Py.ceq. rewrite (Ascii.eqb_sym "#" c), andb_true_r.
  now destruct (Ascii.eqb c "#").
Qed.

Lemma body_text_heading (stripped : str) : heading_ok (body_text stripped) = true.
Proof.
  unfold body_text. set (cleaned := clean_body_line stripped).
  unfold matches, Re.rmatch_at_start. rewrite here_heading_fix.
  destruct (1 <=? runlen hash cleaned) eqn:E1.
  2:{ unfold heading_ok. now rewrite startswith_hash, E1. }
  pose proof (dropwhile_head hash cleaned) as Hd.
  destruct (Py.dropwhile hash cleaned) as [|c t] eqn:Ed.
  { unfold heading_ok. now rewrite Ed, orb_true_r. }
  destruct (heading_text c) eqn:Ec.
  2:{ unfold heading_ok. rewrite Ed.
      unfold heading_text, Re.neg, Re.orc in Ec. apply negb_false_iff in Ec.
      fold hash in Ec. rewrite Hd in Ec. cbn [orb] in Ec. rewrite Ec.
      apply orb_true_r. }
  unfold Re.sub. rewrite sub_from_here, here_heading_fix, E1, Ed, Ec.
  unfold Re.expand. cbn [flat_map Re.group Re.m_groups Nat.eqb Re.m_end app].
  unfold heading_ok. rewrite <- !app_assoc, dropwhile_app, forallb_firstn_runlen.
  cbn [app Py.dropwhile list_ascii_of_string]. apply orb_true_r.
Qed.

Lemma page_line_body_text (hm : Dict.t str) (slug : str) (st : page_state)
      (line : str) :
  let l := body_lines (data st) in
  let l' := body_lines (data (page_line hm slug st line)) in
  l' = l \/ l' = l ++ [[]] \/ l' = append_body l (body_text (Py.strip line)).
Proof.
  cbv zeta. unfold page_line.
  destruct (Py.truthy (Py.strip line)) eqn:Hs; cbn [negb].
  2:{ destruct (is_body_started st && negb (is_service_box st)
                && ends_nonblank (body_lines (data st)));
        [right; left; reflexivity | left; reflexivity]. }
  destruct (Py.isin "how can we help" _ && Py.isin "##" _); [now left|].
  pose proof (service_box_block_body st (Py.strip line)
                (Py.replace "\" "" (Py.lower (Py.strip line)))) as H1.
  destruct (service_box_block st _ _) as [st1|st1]; [now left|].
  pose proof (pre_body_block_body st1 (Py.strip line)) as H2.
  destruct (pre_body_block st1 _) as [st2|st2]; rewrite <- H1, <- H2;
    [now left|].
  destruct (Py.isin "[hero image]" _); [left; apply hero_block_body|].
  destruct (Py.isin "[para_subheader]" _).
  { destruct (extract_tag_value _ _ false) as [v|]; [|now left].
    destruct (Py.truthy v); now left. }
  destruct (Py.isin "[promo" _ || Py.isin "[hero_promo]" _); [now left|].
  destruct (Py.isin "[cta" _); [left; apply cta_block_body|].
  right; right. unfold body_block.
  destruct (Py.isin "##" (Py.strip line)); reflexivity.
Qed.

Lemma append_body_all (P : str -> Prop) (l : list str) (cleaned : str) :
  P [] -> P cleaned -> Forall P l -> Forall P (append_body l cleaned).
Proof.
  intros H0 Hc Hl. unfold append_body.
  set (l1 := if _ && _ then l ++ [[]] else l).
  assert (H1 : Forall P l1).
  { unfold l1. destruct (_ && _); [|exact Hl].
    apply Forall_app; split; [exact Hl | now constructor]. }
  clearbody l1.
  apply Forall_app; split; [|now constructor].
  destruct (ends_nonblank l1); [|exact H1].
  match goal with |- Forall P (if ?c then _ else _) => destruct c end;
    [|exact H1].
  apply Forall_app; split; [exact H1 | now constructor].
Qed.

(** X25.  Every line of the body that starts with '#' is a well-formed
    heading: its '#'s are followed by white space or by nothing, because
    a heading written without the space gets one.  This holds after any
    number of lines. *)
Theorem body_headings_are_well_formed
        (hyperlink_map : Dict.t str) (page_title : str) (queue : list image_task)
        (lines : list str) :
  forallb heading_ok
    (body_lines
       (data (fold_left (page_line hyperlink_map (page_slug_of page_title)) lines
                        (page_init page_title queue))))
  = true.
Proof.
  apply forallb_forall. apply Forall_forall.
  apply (fold_keeps (fun st => Forall (fun r => heading_ok r = true)
                                      (body_lines (data st)))).
  - intros st l H.
    destruct (page_line_body_text hyperlink_map (page_slug_of page_title) st l)
      as [E|[E|E]]; rewrite E.
    + exact H.
    + apply Forall_app; split; [exact H | now constructor].
    + apply append_body_all; [reflexivity | apply body_text_heading | exact H].
  - constructor.
Qed.
